(** * open_flamingo/train/data.py: the streaming shard pipeline

    A shallow embedding of the data pipeline of [open_flamingo/train/data.py]
    and the properties its specification states about it.

    Conventions.
    - Python [int] is [Z]; a Python [float] is a finite binary64 value, kept
      as a dyadic number [mant * 2^expo] (module [PyFloat]).
    - A function that can raise returns [result]: [Ok v] or [Raise e].
    - A generator is the list of the items it yields, together with the
      exception that ends it when one escapes (module [Stages]).
    - Python's [random.Random] and torch's random draws are interfaces
      (classes [PyRandom] and [TorchRandom]); tokenizers, decoders and the
      sentence splitter are parameters.
    - The [str] values the preprocessors work on are lists of code points
      (module [Text]); white space is CPython's, and the alphanumeric
      property of the Unicode database is a parameter, [isalnum].
    - A [string] holds bytes, or a name, key or message whose characters are
      below U+0100.
*)

From Stdlib Require Import ZArith String Ascii Bool Lia Arith List.
From Stdlib Require Import Permutation.
Import ListNotations.

Local Open Scope Z_scope.

(* ===================================================================== *)
(** ** Exceptions and results *)

Inductive exn : Type :=
| ValueError (msg : string)
| RuntimeError (msg : string)
| AssertionError (msg : string)
| ZeroDivisionError
| OverflowError
| IndexError
| TypeError
| DecodeError (msg : string).

Inductive result (A : Type) : Type :=
| Ok (v : A)
| Raise (e : exn).

Arguments Ok {A} v.
Arguments Raise {A} e.

Definition bind {A B : Type} (r : result A) (k : A -> result B) : result B :=
  match r with
  | Ok v => k v
  | Raise e => Raise e
  end.

Declare Scope py_scope.
Delimit Scope py_scope with py.
Notation "x <- c1 ;; c2" := (bind c1 (fun x => c2))
  (at level 61, c1 at next level, right associativity) : py_scope.
Notation "' pat <- c1 ;; c2" := (bind c1 (fun x => match x with pat => c2 end))
  (at level 61, pat pattern, c1 at next level, right associativity) : py_scope.
Local Open Scope py_scope.

(* ===================================================================== *)
(** ** Python floats: true division of integers, [math.ceil], [math.floor] *)

Module PyFloat.

(** A finite double, as the dyadic number [mant * 2^expo]. *)
Record float : Type := mkFloat { mant : Z; expo : Z }.

Definition prec : Z := 53.
Definition emin : Z := -1074.
Definition emax : Z := 1024.

(** Round [x / y] to the nearest integer, ties to even ([0 <= x], [0 < y]). *)
Definition rne (x y : Z) : Z :=
  let q := x / y in
  let r := x mod y in
  match 2 * r ?= y with
  | Lt => q
  | Gt => q + 1
  | Eq => if Z.even q then q else q + 1
  end.

(** [b * 2^k <= a], for [k] of either sign. *)
Definition scaled_leb (b k a : Z) : bool :=
  if 0 <=? k then b * 2 ^ k <=? a else b <=? a * 2 ^ (- k).

(** [floor (log2 (a / b))] for [0 < a], [0 < b]. *)
Definition ilog2_ratio (a b : Z) : Z :=
  let k := Z.log2 a - Z.log2 b in
  if scaled_leb b k a then k else k - 1.

(** The exponent of the unit in the last place of the double nearest to
    [a / b]: 53 significant bits, no finer than [2^emin]. *)
Definition fexp (a b : Z) : Z := Z.max (ilog2_ratio a b - (prec - 1)) emin.

(** [a / (b * 2^e)] rounded to an integer, ties to even. *)
Definition scaled_rne (a b e : Z) : Z :=
  if 0 <=? e then rne a (b * 2 ^ e) else rne (a * 2 ^ (- e)) b.

(** [e] is only ever positive here when the value is an integer. *)
Definition overflows (m e : Z) : bool :=
  if 0 <=? e then 2 ^ emax <=? m * 2 ^ e else false.

(** Python's [a / b] on two ints: the double nearest to the exact quotient
    (CPython's [long_true_divide] is correctly rounded), [ZeroDivisionError]
    for [b = 0], [OverflowError] when the rounded quotient is not finite. *)
Definition true_div (a b : Z) : result float :=
  if b =? 0 then Raise ZeroDivisionError
  else if a =? 0 then Ok (mkFloat 0 0)
  else
    let e := fexp (Z.abs a) (Z.abs b) in
    let m := scaled_rne (Z.abs a) (Z.abs b) e in
    if overflows m e then Raise OverflowError
    else Ok (mkFloat (Z.sgn a * Z.sgn b * m) e).

(** [math.floor] and [math.ceil] return the exact integer. *)
Definition math_floor (f : float) : Z :=
  if 0 <=? expo f then mant f * 2 ^ expo f else mant f / 2 ^ (- expo f).

Definition math_ceil (f : float) : Z :=
  if 0 <=? expo f then mant f * 2 ^ expo f
  else - ((- mant f) / 2 ^ (- expo f)).

End PyFloat.

(* ===================================================================== *)
(** ** The command-line arguments the pipeline reads *)

Record Args : Type := mkArgs {
  shards : string;
  batch_size : Z;
  world_size : Z;
  workers : Z;
  seed : Z;
  dataset_resampled : bool;
  train_num_samples : option Z
}.

(* ===================================================================== *)
(** ** The pipeline driver's counts *)

Module Driver.
Import PyFloat.

(** [round_fn = math.floor if floor else math.ceil] *)
Definition round_fn (floor : bool) : float -> Z :=
  if floor then math_floor else math_ceil.

(** [recompute_samples_stats(args, floor, num_samples)]; the same eight
    lines are inlined in [get_wds_dataset] and [get_pile_dataset]. *)
Definition recompute_samples_stats (args : Args) (floor : bool) (num_samples : Z)
  : result (Z * Z * Z) :=
  let global_batch_size := batch_size args * world_size args in
  f1 <- true_div num_samples global_batch_size ;;
  let num_batches := round_fn floor f1 in
  let num_workers := Z.max 1 (workers args) in
  f2 <- true_div num_batches num_workers ;;
  let num_worker_batches := round_fn floor f2 in
  let num_batches := num_worker_batches * num_workers in
  let num_samples := num_batches * global_batch_size in
  Ok (num_samples, num_batches, num_worker_batches).

(** The counts of the specification, in exact integer arithmetic:
    [ceil_or_floor (x / y)] on the mathematical quotient. *)
Definition ceil_or_floor (floor : bool) (x y : Z) : Z :=
  if floor then x / y else - ((- x) / y).

Definition spec_counts (bs ws nw : Z) (floor : bool) (total : Z) : Z * Z * Z :=
  let globalBatch := bs * ws in
  let totalBatches := ceil_or_floor floor total globalBatch in
  let perWorkerBatches := ceil_or_floor floor totalBatches nw in
  let totalBatches := perWorkerBatches * nw in
  (totalBatches * globalBatch, totalBatches, perWorkerBatches).

End Driver.

(* ===================================================================== *)
(** ** The shared epoch cell *)

Module Epoch.

(** [Value("i", epoch)] holds a C [int]: storing wraps to 32 bits. *)
Definition wrap_int32 (z : Z) : Z := (z + 2 ^ 31) mod 2 ^ 32 - 2 ^ 31.

Record SharedEpoch : Type := mkSharedEpoch { shared_epoch : Z }.

Definition new (epoch : Z) : SharedEpoch := mkSharedEpoch (wrap_int32 epoch).

Definition set_value (_ : SharedEpoch) (epoch : Z) : SharedEpoch :=
  mkSharedEpoch (wrap_int32 epoch).

Definition get_value (c : SharedEpoch) : Z := shared_epoch c.

(** The [epoch] attribute of a stage: the shared cell (one cell per
    pipeline, passed alongside), or a private counter. *)
Inductive epoch_attr : Type :=
| Shared
| Counter (n : Z).

(** The first lines of [detshuffle2.run] and [ResampledShards2.__iter__]:
    read the cell, or bump the private counter. *)
Definition current (cell : SharedEpoch) (a : epoch_attr) : Z * epoch_attr :=
  match a with
  | Shared => (get_value cell, Shared)
  | Counter n => (n + 1, Counter (n + 1))
  end.

End Epoch.

(* ===================================================================== *)
(** ** Python's [random.Random], as an interface *)

(** [rng_seed a] is the state after [rng.seed(a)], whatever the state was
    before; [randbelow r n] is [rng._randbelow(n)], the draw every other
    method used here is made of. *)
Class PyRandom : Type := {
  rng : Type;
  rng_seed : Z -> rng;
  randbelow : rng -> Z -> Z * rng;
  randbelow_range : forall r n, 0 < n -> 0 <= fst (randbelow r n) < n
}.

Module Random.
Section Random.
Context {PR : PyRandom}.

(** [rng.randint(a, b)] *)
Definition randint (r : rng) (a b : Z) : result (Z * rng) :=
  if b <? a then Raise (ValueError "empty range for randrange()")
  else let (k, r') := randbelow r (b - a + 1) in Ok (a + k, r').

(** [rng.choice(seq)] *)
Definition choice {A : Type} (r : rng) (seq : list A) : result (A * rng) :=
  match seq with
  | [] => Raise IndexError
  | _ =>
      let (k, r') := randbelow r (Z.of_nat (length seq)) in
      match nth_error seq (Z.to_nat k) with
      | Some x => Ok (x, r')
      | None => Raise IndexError
      end
  end.

End Random.
End Random.

(* ===================================================================== *)
(** ** Lists used as Python lists *)

Fixpoint list_set {A : Type} (l : list A) (k : nat) (v : A) : list A :=
  match l, k with
  | [], _ => []
  | _ :: t, O => v :: t
  | h :: t, S k' => h :: list_set t k' v
  end.

Definition last_error {A : Type} (l : list A) : option A :=
  nth_error l (length l - 1).

(* ===================================================================== *)
(** ** The deterministic shuffle *)

Module Shuffle.
Section Shuffle.
Context {PR : PyRandom} {A : Type}.

(** A run of the generator, one entry per loop iteration: the buffer as it
    stands when the iteration decides whether to yield, and what it yields. *)
Inductive event : Type :=
| Iter (buf : list A) (yielded : option A)
| Drain (buf : list A) (yielded : A).

Definition gen : Type := list event * option exn.

Definition emit (ev : event) (g : gen) : gen := (ev :: fst g, snd g).

(** Modelled from the spec: webdataset's [pick], used by [_shuffle], is
    imported and not part of the sources.  [k = rng.randint(0, len(buf)-1)];
    [sample = buf[k]]; [buf[k] = buf[-1]]; [buf.pop()]. *)
Definition pick (buf : list A) (r : rng) : result (A * list A * rng) :=
  '(k, r') <- Random.randint r 0 (Z.of_nat (length buf) - 1) ;;
  match nth_error buf (Z.to_nat k), last_error buf with
  | Some sample, Some l => Ok (sample, removelast (list_set buf (Z.to_nat k) l), r')
  | _, _ => Raise IndexError
  end.

(** [while len(buf) > 0: yield pick(buf, rng)]; [fuel] is [len(buf)]. *)
Fixpoint drain (fuel : nat) (buf : list A) (r : rng) : gen :=
  match fuel, buf with
  | S fuel', _ :: _ =>
      match pick buf r with
      | Ok (x, buf', r') => emit (Drain buf x) (drain fuel' buf' r')
      | Raise e => ([], Some e)
      end
  | _, _ => ([], None)
  end.

(** [if len(buf) >= initial: yield pick(buf, rng)], then go on with [k]. *)
Definition yield_if_ready (initial : Z) (buf : list A) (r : rng)
    (k : list A -> rng -> gen) : gen :=
  if initial <=? Z.of_nat (length buf) then
    match pick buf r with
    | Ok (x, buf', r') => emit (Iter buf (Some x)) (k buf' r')
    | Raise e => ([], Some e)
    end
  else emit (Iter buf None) (k buf r).

(** The [for sample in data] loop: append the sample, pull one more with
    [next(data)] while the buffer is below [bufsize], yield when ready. *)
Fixpoint fill (bufsize initial : Z) (data : list A) (buf : list A) (r : rng)
  : gen :=
  match data with
  | [] => drain (length buf) buf r
  | sample :: rest =>
      let buf := buf ++ [sample] in
      if Z.of_nat (length buf) <? bufsize then
        match rest with
        | [] => yield_if_ready initial buf r (fun b r' => drain (length b) b r')
        | extra :: rest' =>
            yield_if_ready initial (buf ++ [extra]) r (fill bufsize initial rest')
        end
      else yield_if_ready initial buf r (fill bufsize initial rest)
  end.

(** Modelled from the spec: webdataset's [_shuffle(data, bufsize, initial,
    rng)] is imported and not part of the sources; this is the bounded
    reservoir of section 4.5, as webdataset 0.2 writes it. *)
Definition _shuffle (data : list A) (bufsize initial : Z) (r : rng) : gen :=
  let initial := Z.min initial bufsize in
  fill bufsize initial data [] r.

(** What the consumer of the generator sees. *)
Definition yielded_of (ev : event) : list A :=
  match ev with
  | Iter _ (Some x) => [x]
  | Iter _ None => []
  | Drain _ x => [x]
  end.

Definition yields (g : gen) : list A := flat_map yielded_of (fst g).

Definition buffer_of (ev : event) : list A :=
  match ev with
  | Iter b _ => b
  | Drain b _ => b
  end.

(** [class detshuffle2(wds.PipelineStage)] *)
Record detshuffle2 : Type := mk_detshuffle2 {
  bufsize : Z;
  initial : Z;
  ds_seed : Z;
  ds_epoch : Epoch.epoch_attr
}.

(** [detshuffle2.run(src)].  [entropy] is the state [random.Random()] starts
    in, [worker_seed] what [pytorch_worker_seed()] returns in this process. *)
Definition run (cell : Epoch.SharedEpoch) (self : detshuffle2)
    (entropy : rng) (worker_seed : Z) (src : list A) : gen * detshuffle2 :=
  let (epoch, attr) := Epoch.current cell (ds_epoch self) in
  let self := mk_detshuffle2 (bufsize self) (initial self) (ds_seed self) attr in
  let r := entropy in
  let seed := if ds_seed self <? 0 then worker_seed + epoch
              else ds_seed self + epoch in
  let r := rng_seed seed in
  (_shuffle src (bufsize self) (initial self) r, self).

End Shuffle.
End Shuffle.

(* ===================================================================== *)
(** ** The resampling shard source *)

Module Resampled.
Section Resampled.
Context {PR : PyRandom}.

(** [class ResampledShards2(IterableDataset)]; the [worker_seed] callable
    reads the process it runs in, so what it returns is an argument of
    [iter]. *)
Record ResampledShards2 : Type := mk_ResampledShards2 {
  urls : list string;
  nshards : Z;
  rs_rng : rng;
  deterministic : bool;
  rs_epoch : Epoch.epoch_attr
}.

(** [sys.maxsize], the default of [nshards]. *)
Definition sys_maxsize : Z := 2 ^ 63 - 1.

(** [ResampledShards2.__init__]; [expanded] is [expand_urls(urls)] and
    [entropy] the state [random.Random()] starts in.  [self.urls[0]] raises
    on an empty list. *)
Definition init (expanded : list string) (nshards : Z) (entropy : rng)
    (deterministic : bool) (epoch : Epoch.epoch_attr)
  : result ResampledShards2 :=
  match expanded with
  | [] => Raise IndexError
  | _ => Ok (mk_ResampledShards2 expanded nshards entropy deterministic epoch)
  end.

(** [for _ in range(n): yield dict(url=self.rng.choice(self.urls))] *)
Fixpoint draws (n : nat) (us : list string) (r : rng)
  : list string * option exn * rng :=
  match n with
  | O => ([], None, r)
  | S n' =>
      match Random.choice r us with
      | Ok (u, r') =>
          let '(out, e, r'') := draws n' us r' in (u :: out, e, r'')
      | Raise e => ([], Some e, r)
      end
  end.

(** [ResampledShards2.__iter__], run to the end of the generator: the shard
    identifiers yielded, the exception that ended it if any, and the object
    afterwards.  [worker_seed] is what [self.worker_seed()] returns. *)
Definition iter (cell : Epoch.SharedEpoch) (self : ResampledShards2)
    (worker_seed : Z) : list string * option exn * ResampledShards2 :=
  let (epoch, attr) := Epoch.current cell (rs_epoch self) in
  let r := if deterministic self then rng_seed (worker_seed + epoch)
           else rs_rng self in
  let '(out, e, r') := draws (Z.to_nat (nshards self)) (urls self) r in
  (out, e, mk_ResampledShards2 (urls self) (nshards self) r'
             (deterministic self) attr).

End Resampled.
End Resampled.

(* ===================================================================== *)
(** ** Strings and paths *)

Module Str.

Definition chars (s : string) : list ascii := list_ascii_of_string s.
Definition of_chars (l : list ascii) : string := string_of_list_ascii l.

Definition is_slash (c : ascii) : bool := Ascii.eqb c "/".
Definition is_dot (c : ascii) : bool := Ascii.eqb c ".".
Definition is_newline (c : ascii) : bool := Ascii.eqb c "010".

(** [str.lower()] on one character below U+0100: [A]..[Z], and the
    capital letters U+00C0..U+00DE but the multiplication sign, have their
    small letter 32 places on. *)
Definition lower_char (c : ascii) : ascii :=
  let n := nat_of_ascii c in
  if ((65 <=? n) && (n <=? 90)
      || (192 <=? n) && (n <=? 222) && negb (n =? 215))%nat
  then ascii_of_nat (n + 32) else c.

(** [str.lower()], on the names a [string] holds. *)
Definition lower (s : string) : string := of_chars (map lower_char (chars s)).

(** [s.rfind("/") + 1] *)
Fixpoint after_last_slash (l : list ascii) : nat :=
  match l with
  | [] => 0
  | c :: t =>
      if existsb is_slash t then S (after_last_slash t)
      else if is_slash c then 1 else 0
  end.

Fixpoint rstrip_slash_rev (l : list ascii) : list ascii :=
  match l with
  | c :: t => if is_slash c then rstrip_slash_rev t else l
  | [] => []
  end.

(** [os.path.basename] *)
Definition basename (p : string) : string :=
  of_chars (skipn (after_last_slash (chars p)) (chars p)).

(** [os.path.dirname]: the head up to the last slash, trailing slashes
    stripped unless the head is made of slashes only. *)
Definition dirname (p : string) : string :=
  let head := firstn (after_last_slash (chars p)) (chars p) in
  if forallb is_slash head then of_chars head
  else of_chars (rev (rstrip_slash_rev (rev head))).

(** [os.path.join(a, b)] *)
Definition join (a b : string) : string :=
  match chars b with
  | c :: _ => if is_slash c then b
              else match rev (chars a) with
                   | [] => b
                   | l :: _ => if is_slash l then a ++ b else a ++ "/" ++ b
                   end
  | [] => match rev (chars a) with
          | [] => b
          | l :: _ => if is_slash l then a else a ++ "/"
          end
  end%string.

Fixpoint has_prefix (p s : list ascii) : bool :=
  match p, s with
  | [], _ => true
  | a :: p', c :: s' => Ascii.eqb a c && has_prefix p' s'
  | _ :: _, [] => false
  end.

(** The loop of [s.split(sep)]: left to right, the matches do not overlap;
    [acc] is the part being read, reversed, and [skip] characters of a
    match remain to drop. *)
Fixpoint split_go (sep : list ascii) (skip : nat) (acc s : list ascii)
  : list string :=
  match s with
  | [] => [of_chars (rev acc)]
  | c :: t =>
      match skip with
      | S k => split_go sep k acc t
      | O =>
          if has_prefix sep s
          then of_chars (rev acc) :: split_go sep (length sep - 1) [] t
          else split_go sep 0 (c :: acc) t
      end
  end.

(** [s.split(sep)], [sep] not empty. *)
Definition split (s sep : string) : list string :=
  split_go (chars sep) 0 [] (chars s).

End Str.

(* ===================================================================== *)
(** ** Decoded pictures *)

Module Pil.

(** A PIL image: its size and its content. *)
Record image : Type := mk_image { width : Z; height : Z; content : string }.

End Pil.

(* ===================================================================== *)
(** ** Grouping archive entries into samples *)

Module Grouper.

(** A field of a sample: the key and the url are strings, a payload is the
    bytes of the archive entry until [wds.decode] turns it into a string or
    a picture. *)
Inductive value : Type :=
| VStr (s : string)
| VBytes (b : string)
| VImage (im : Pil.image).

(** A sample is a [dict]; insertion order is kept. *)
Definition sample : Type := list (string * value).

Fixpoint dict_get (d : sample) (k : string) : option value :=
  match d with
  | [] => None
  | (k', v) :: t => if String.eqb k' k then Some v else dict_get t k
  end.

Definition dict_mem (d : sample) (k : string) : bool :=
  match dict_get d k with Some _ => true | None => false end.

Fixpoint dict_set (d : sample) (k : string) (v : value) : sample :=
  match d with
  | [] => [(k, v)]
  | (k', v') :: t =>
      if String.eqb k' k then (k', v) :: t else (k', v') :: dict_set t k v
  end.

Definition value_eqb (a b : value) : bool :=
  match a, b with
  | VStr x, VStr y => String.eqb x y
  | VBytes x, VBytes y => String.eqb x y
  | VImage x, VImage y =>
      (Pil.width x =? Pil.width y) && (Pil.height x =? Pil.height y)
      && String.eqb (Pil.content x) (Pil.content y)
  | _, _ => false
  end.

Definition truthy (v : value) : bool :=
  match v with
  | VStr s => negb (String.eqb s "")
  | VBytes b => negb (String.eqb b "")
  | VImage _ => true
  end.

(** An entry of the expanded archive:
    [dict(fname=..., data=..., __url__=...)]. *)
Record filesample : Type := mk_filesample {
  fname : string;
  data : string;
  url : string
}.

(** The run of characters up to the first dot, and the rest from the dot. *)
Fixpoint span_until_dot (l : list ascii) : list ascii * list ascii :=
  match l with
  | [] => ([], [])
  | c :: t =>
      if Str.is_dot c then ([], l)
      else let (run, rest) := span_until_dot t in (c :: run, rest)
  end.

(** The match of the pattern's tail at position [i]: one or more characters
    other than a dot, a dot, then no slash up to the end. *)
Definition match_at (l : list ascii) (i : nat) : option (string * string) :=
  let (run, rest) := span_until_dot (skipn i l) in
  match run, rest with
  | _ :: _, _ :: ext =>
      if existsb Str.is_slash ext then None
      else Some (Str.of_chars (firstn i l ++ run), Str.of_chars ext)
  | _, _ => None
  end.

(** The positions where [.*/] can end, the longest first: after a slash,
    with no newline before it. *)
Fixpoint dir_ends (l : list ascii) (i : nat) : list nat :=
  match l with
  | [] => []
  | c :: t =>
      if Str.is_newline c then []
      else if Str.is_slash c then dir_ends t (S i) ++ [S i]
      else dir_ends t (S i)
  end.

Fixpoint first_match (l : list ascii) (ends : list nat) : option (string * string) :=
  match ends with
  | [] => None
  | i :: rest =>
      match match_at l i with
      | Some r => Some r
      | None => first_match l rest
      end
  end.

(** Modelled from the spec: webdataset's [base_plus_ext] is imported and not
    part of the sources; prefix = the entry name up to the first dot of its
    last path component: the regular expression tries the longest directory
    part first, then shorter ones, then none.  [None] stands for
    [(None, None)]. *)
Definition base_plus_ext (path : string) : option (string * string) :=
  let l := Str.chars path in
  first_match l (dir_ends l 0 ++ [0%nat]).

(** Modelled from the spec: webdataset's [valid_sample] is imported and not
    part of the sources; a sample is flushed when it is a non-empty dict
    that is not marked [__bad__]. *)
Definition valid_sample (s : option sample) : bool :=
  match s with
  | None => false
  | Some d =>
      negb (Nat.eqb (length d) 0) &&
      negb (match dict_get d "__bad__" with Some v => truthy v | None => false end)
  end.

Definition flush (current : option sample) : list sample :=
  match current with
  | Some d => if valid_sample current then [d] else []
  | None => []
  end.

(** [prefix != current_sample["__key__"]] *)
Definition key_differs (d : sample) (prefix : string) : bool :=
  match dict_get d "__key__" with
  | Some v => negb (value_eqb v (VStr prefix))
  | None => true
  end.

(** The body of [group_by_keys_nothrow]: the samples yielded, in order. *)
Fixpoint group_loop (keys : string -> option (string * string)) (lcase : bool)
    (suffixes : option (list string)) (files : list filesample)
    (current_sample : option sample) : list sample :=
  match files with
  | [] => flush current_sample
  | filesample :: rest =>
      match keys (fname filesample) with
      | None => group_loop keys lcase suffixes rest current_sample
      | Some (prefix, suffix) =>
          let suffix := if lcase then Str.lower suffix else suffix in
          let starts_new :=
            match current_sample with
            | None => true
            | Some d => key_differs d prefix || dict_mem d suffix
            end in
          let yielded := if starts_new then flush current_sample else [] in
          let d :=
            match starts_new, current_sample with
            | false, Some d => d
            | _, _ => [("__key__", VStr prefix); ("__url__", VStr (url filesample))]
            end%string in
          let wanted :=
            match suffixes with
            | None => true
            | Some l => existsb (String.eqb suffix) l
            end in
          let d := if wanted then dict_set d suffix (VBytes (data filesample)) else d in
          yielded ++ group_loop keys lcase suffixes rest (Some d)
      end
  end.

(** [group_by_keys_nothrow(data, keys=base_plus_ext, lcase=True,
    suffixes=None, handler=None)] *)
Definition group_by_keys_nothrow (files : list filesample)
    (keys : string -> option (string * string)) (lcase : bool)
    (suffixes : option (list string)) : list sample :=
  group_loop keys lcase suffixes files None.

(** [filter_no_caption_or_no_image(sample)] *)
Definition filter_no_caption_or_no_image (s : sample) : bool :=
  dict_mem s "txt" && (dict_mem s "png" || dict_mem s "jpg" || dict_mem s "jpeg").

End Grouper.

(* ===================================================================== *)
(** ** Dataset size from the files next to the shards *)

Module ShardStats.

(** What the two optional files hold, by path: [sizes.json], a mapping from
    shard basename to element count, and [__len__], one integer. *)
Record filesystem : Type := mk_filesystem {
  read_sizes : string -> option (list (string * Z));
  read_len : string -> option Z
}.

Fixpoint sizes_get (sizes : list (string * Z)) (k : string) : option Z :=
  match sizes with
  | [] => None
  | (k', n) :: t => if String.eqb k' k then Some n else sizes_get t k
  end.

Definition sum (l : list Z) : Z := fold_left Z.add l 0.

(** Python truth value of an [int] or [None]: [not num_samples]. *)
Definition falsy (n : option Z) : bool :=
  match n with
  | None => true
  | Some z => z =? 0
  end.

Definition no_size_message : string :=
  "Currently, number of dataset samples must be specified for training dataset. Please specify via `--train-num-samples` if no dataset length info present.".

Section WithBraceexpand.
(** [braceexpand.braceexpand] *)
Variable braceexpand : string -> list string.

(** [get_dataset_size(shards)] *)
Definition get_dataset_size (fs : filesystem) (shards : string) : option Z * Z :=
  let shards_list := braceexpand shards in
  let dir_path := Str.dirname shards in
  let sizes_filename := Str.join dir_path "sizes.json" in
  let len_filename := Str.join dir_path "__len__" in
  let total_size :=
    match read_sizes fs sizes_filename with
    | Some sizes =>
        Some (sum (map (fun shard =>
                          match sizes_get sizes (Str.basename shard) with
                          | Some n => n
                          | None => 0
                          end) shards_list))
    | None =>
        match read_len fs len_filename with
        | Some n => Some n
        | None => None
        end
    end in
  let num_shards := Z.of_nat (length shards_list) in
  (total_size, num_shards).

(** [get_shard_stats(args, input_shards)]; the same lines open
    [get_wds_dataset] and [get_pile_dataset]. *)
Definition get_shard_stats (fs : filesystem) (args : Args) (input_shards : string)
  : result (Z * Z) :=
  let '(num_samples, num_shards) := get_dataset_size fs input_shards in
  let num_samples : option Z := None in
  if falsy num_samples then
    let num_samples := train_num_samples args in
    if falsy num_samples then Raise (RuntimeError no_size_message)
    else match num_samples with
         | Some n => Ok (n, num_shards)
         | None => Raise (RuntimeError no_size_message)
         end
  else match num_samples with
       | Some n => Ok (n, num_shards)
       | None => Raise (RuntimeError no_size_message)
       end.

End WithBraceexpand.
End ShardStats.

(* ===================================================================== *)
(** ** Pipeline stages *)

Module Stages.

(** A generator run to its end: the items yielded, and the exception that
    ended it when one escaped. *)
Definition gen (A : Type) : Type := list A * option exn.

Definition items {A : Type} (g : gen A) : list A := fst g.
Definition escaped {A : Type} (g : gen A) : option exn := snd g.

Definition yield {A : Type} (x : A) (g : gen A) : gen A := (x :: fst g, snd g).

(** A handler says whether to go on ([True]) or stop, or raises. *)
Definition handler : Type := exn -> result bool.

(** [log_and_continue(exn)]: warn and return [True]. *)
Definition log_and_continue : handler := fun _ => Ok true.

(** The default handler of webdataset's stages, [reraise_exception]. *)
Definition reraise_exception : handler := fun e => Raise e.

(** Modelled from the spec: webdataset's [_map(data, f, handler)] is
    imported and not part of the sources; a sample on which [f] raises is
    handed to the handler, which decides to skip it and go on, to stop, or
    raises itself.  [tail] is how the upstream generator ends. *)
Fixpoint _map {A B : Type} (f : A -> result B) (h : handler)
    (data : list A) (tail : option exn) : gen B :=
  match data with
  | [] => ([], tail)
  | sample :: rest =>
      match f sample with
      | Ok r => yield r (_map f h rest tail)
      | Raise exn =>
          match h exn with
          | Ok true => _map f h rest tail
          | Ok false => ([], None)
          | Raise e => ([], Some e)
          end
      end
  end.

Definition map {A B : Type} (f : A -> result B) (h : handler) (g : gen A) : gen B :=
  _map f h (items g) (escaped g).

(** [wds.select(predicate)] *)
Definition select {A : Type} (p : A -> bool) (g : gen A) : gen A :=
  (filter p (items g), escaped g).

(** Modelled from the spec: webdataset's [_batched(data, batchsize,
    collation_fn, partial)] is imported and not part of the sources; section
    4.8: accumulate [batchsize] samples, emit them as one batch, and at the
    end emit the remainder only if it is full or [partial] is set.  The
    collation is left out: a batch is the list of its samples. *)
Fixpoint _batched {A : Type} (batchsize : Z) (partial : bool)
    (data : list A) (tail : option exn) (batch : list A) : gen (list A) :=
  match data with
  | [] =>
      match tail with
      | Some e => ([], Some e)
      | None =>
          if Nat.eqb (length batch) 0 then ([], None)
          else if (Z.of_nat (length batch) =? batchsize) || partial
               then ([batch], None)
               else ([], None)
      end
  | sample :: rest =>
      if batchsize <=? Z.of_nat (length batch)
      then yield batch (_batched batchsize partial rest tail [sample])
      else _batched batchsize partial rest tail (batch ++ [sample])
  end.

Definition batched {A : Type} (batchsize : Z) (partial : bool) (g : gen A)
  : gen (list A) :=
  _batched batchsize partial (items g) (escaped g) [].

Section Getfirst.
(** Python's [repr] of a list of [str], as an f-string prints it. *)
Variable repr : list string -> string.

(** The loop of [getfirst]: [rest] is what is left of [keys] to try. *)
Fixpoint getfirst_from (s : Grouper.sample) (keys rest : list string)
  : result Grouper.value :=
  match rest with
  | [] => Raise (ValueError ("didn't find " ++ repr keys ++ " in "
                               ++ repr (List.map fst s)))
  | k :: rest' =>
      match Grouper.dict_get s k with
      | Some v => Ok v
      | None => getfirst_from s keys rest'
      end
  end.

(** Modelled from the spec: webdataset's [getfirst(a, keys)], which its
    [to_tuple] stage calls for each field, is imported and not part of the
    sources; [keys] is the list the string [jpg;png;jpeg] is split into.
    The first of the keys present; without one,
    [ValueError(f"didn't find {keys} in {list(a.keys())}")]. *)
Definition getfirst (s : Grouper.sample) (keys : list string)
  : result Grouper.value :=
  getfirst_from s keys keys.

End Getfirst.

End Stages.

(* ===================================================================== *)
(** ** Text helpers: the regular expressions and [str] methods used *)

Module Text.

(** A Python [str], as the list of its code points. *)
Definition str : Type := list Z.

(** A [str] literal of the source, as the text it denotes. *)
Definition lit (s : string) : str :=
  List.map (fun c => Z.of_nat (nat_of_ascii c)) (Str.chars s).

Definition between (lo hi c : Z) : bool := (lo <=? c) && (c <=? hi).

(** [\s] of [re] on a [str], and the characters [str.strip()] strips:
    CPython's [Py_UNICODE_ISSPACE].  U+0009..U+000D, U+001C..U+0020,
    U+0085, U+00A0, U+1680, U+2000..U+200A, U+2028, U+2029, U+202F, U+205F,
    U+3000. *)
Definition is_space (c : Z) : bool :=
  between 9 13 c || between 28 32 c || (c =? 133) || (c =? 160)
  || (c =? 5760) || between 8192 8202 c || (c =? 8232) || (c =? 8233)
  || (c =? 8239) || (c =? 8287) || (c =? 12288).

Section Words.
(** [str.isalnum] on one character: the alphanumeric property of the
    Unicode database the interpreter was built with. *)
Variable isalnum : Z -> bool.

(** [\w] of [re] on a [str]: alphanumeric, or the underscore. *)
Definition is_word (c : Z) : bool := isalnum c || (c =? 95).

(** [re.match(r"^\W+$", s)] is not [None]. *)
Definition is_punctuation (s : str) : bool :=
  match s with
  | [] => false
  | _ => forallb (fun c => negb (is_word c)) s
  end.

End Words.

Fixpoint collapse (p : Z -> bool) (in_run : bool) (l : str) : str :=
  match l with
  | [] => []
  | c :: t =>
      if p c then (if in_run then collapse p true t else 32 :: collapse p true t)
      else c :: collapse p false t
  end.

(** [re.sub(r"\s+", " ", sentence)] *)
Definition remove_consecutive_spaces (sentence : str) : str :=
  collapse is_space false sentence.

(** [re.sub(r" +", " ", sentence)] *)
Definition remove_multiple_newline_limiters (sentence : str) : str :=
  collapse (Z.eqb 32) false sentence.

(** [preprocess_sentence(sentence)] *)
Definition preprocess_sentence (sentence : str) : str :=
  remove_multiple_newline_limiters (remove_consecutive_spaces sentence).

Fixpoint lstrip (l : str) : str :=
  match l with
  | c :: t => if is_space c then lstrip t else l
  | [] => []
  end.

(** [s.strip()] *)
Definition strip (s : str) : str := rev (lstrip (rev (lstrip s))).

Fixpoint starts_with (old s : str) : bool :=
  match old, s with
  | [], _ => true
  | o :: old', c :: s' => (o =? c) && starts_with old' s'
  | _ :: _, [] => false
  end.

(** Left-to-right, non-overlapping replacement; [count] bounds the number
    of replacements when given, [skip] characters of a match remain to drop. *)
Fixpoint replace_go (old new : str) (count : option nat) (skip : nat)
    (s : str) : str :=
  match s with
  | [] => []
  | c :: t =>
      match skip with
      | S k => replace_go old new count k t
      | O =>
          let allowed := match count with Some O => false | _ => true end in
          if allowed && starts_with old s then
            new ++ replace_go old new (option_map Nat.pred count) (length old - 1) t
          else c :: replace_go old new count 0 t
      end
  end.

(** [s.replace(old, new)] and [s.replace(old, new, count)], [old] not empty. *)
Definition replace (s old new : str) (count : option nat) : str :=
  replace_go old new count 0 s.

(** [sep.join(l)] *)
Fixpoint join (sep : str) (l : list str) : str :=
  match l with
  | [] => []
  | [x] => x
  | x :: t => x ++ sep ++ join sep t
  end.

(** The four clean-up replacements shared by [preprocess_pile] and
    [prepare_text_data], and the closing markers. *)
Definition tidy_markers (text eos_token : str) : str :=
  let text := replace text (lit "<|endofchunk|>") [] (Some 1%nat) in
  let text := replace text (lit " <|endofchunk|>") (lit "<|endofchunk|>") None in
  let text := replace text (lit "<image> ") (lit "<image>") None in
  let text := replace text (lit " <image>") (lit "<image>") None in
  text ++ lit "<|endofchunk|>" ++ eos_token.

(** A tokenizer, as the pipeline uses it: the token ids of a text, the id
    used for padding, and the end-of-sequence marker. *)
Record Tokenizer : Type := mk_Tokenizer {
  encode : str -> list Z;
  pad_token_id : Z;
  eos_token : str
}.

(** [tokenizer(text, max_length=n, truncation=True, padding="max_length")]:
    one row of [input_ids] and one of [attention_mask], both of length [n]. *)
Definition tokenize (tok : Tokenizer) (max_length : nat) (text : str)
  : list Z * list Z :=
  let ids := firstn max_length (encode tok text) in
  let pad := (max_length - length ids)%nat in
  (ids ++ repeat (pad_token_id tok) pad, repeat 1 (length ids) ++ repeat 0 pad).

End Text.

(* ===================================================================== *)
(** ** The interleaved preprocessor *)

Module Interleaved.

Definition MAX_NUM_TOKENS : nat := 256.

Definition image : Type := Pil.image.

(** An entry of [interleaved_list]: a string, or a decoded picture once
    [remove_unwanted_images] has parsed it. *)
Inductive item : Type :=
| Text (s : Text.str)
| Picture (im : image).

(** A slot of the image tensor: an encoded picture or zeros. *)
Inductive slot : Type :=
| Pixels (im : image)
| Zeros.

(** The decoded JSON document. *)
Record document : Type := mk_document {
  interleaved_list : list Text.str;
  is_image : list Z
}.

Definition flag_set (f : Z) : bool := negb (f =? 0).

(** [is_unwanted_image(image)] *)
Definition is_unwanted_image (im : image) : bool :=
  (Pil.width im <=? 10) || (Pil.height im <=? 10).

Section Interleaved.
(** [str.isalnum] on one character, for the [\W] of
    [remove_punctuation_based_sentences]. *)
Variable isalnum : Z -> bool.
(** [parse_image]: base64, then PIL; either can raise. *)
Variable parse_image : Text.str -> result image.
Variable text_tokenizer : Text.Tokenizer.

(** The loop of [remove_unwanted_images], from the count so far. *)
Fixpoint remove_unwanted_images_from (num_images : Z)
    (interleaved_list : list Text.str) (is_image_list : list Z)
  : result (Z * list item * list Z) :=
  match interleaved_list, is_image_list with
  | interleaved_input :: il, is_image :: fl =>
      if flag_set is_image then
        im <- parse_image interleaved_input ;;
        let is_unwanted := is_unwanted_image im in
        let num_images := if negb is_unwanted then num_images + 1 else num_images in
        '(n, il', fl') <- remove_unwanted_images_from num_images il fl ;;
        if is_unwanted || (5 <? num_images)
        then Ok (n, Text [] :: il', 0 :: fl')
        else Ok (n, Picture im :: il', is_image :: fl')
      else
        '(n, il', fl') <- remove_unwanted_images_from num_images il fl ;;
        Ok (n, Text interleaved_input :: il', is_image :: fl')
  | _, _ => Ok (num_images, List.map Text interleaved_list, is_image_list)
  end.

(** [remove_unwanted_images(interleaved_list, is_image_list)] *)
Definition remove_unwanted_images (interleaved_list : list Text.str)
    (is_image_list : list Z) : result (Z * list item * list Z) :=
  remove_unwanted_images_from 0 interleaved_list is_image_list.

(** The first loop of [preprocess_sentences]. *)
Fixpoint normalize_sentences (il : list item) (fl : list Z) : result (list item) :=
  match il, fl with
  | x :: il', f :: fl' =>
      rest <- normalize_sentences il' fl' ;;
      if negb (flag_set f) then
        match x with
        | Text s => Ok (Text (Text.preprocess_sentence s) :: rest)
        | Picture _ => Raise TypeError
        end
      else Ok (x :: rest)
  | _, _ => Ok il
  end.

(** [remove_punctuation_based_sentences(interleaved_list, is_image_list)] *)
Fixpoint remove_punctuation_based_sentences (il : list item) (fl : list Z)
  : result (list item) :=
  match il, fl with
  | x :: il', f :: fl' =>
      rest <- remove_punctuation_based_sentences il' fl' ;;
      if negb (flag_set f) then
        match x with
        | Text s => Ok ((if Text.is_punctuation isalnum s then Text [] else x) :: rest)
        | Picture _ => Raise TypeError
        end
      else Ok (x :: rest)
  | _, _ => Ok il
  end.

(** [interleaved_input == ""] *)
Definition is_empty_text (x : item) : bool :=
  match x with
  | Text [] => true
  | Text (_ :: _) => false
  | Picture _ => false
  end.

(** [filter_out_empty_sentences(interleaved_list, is_image_list)] *)
Fixpoint filter_out_empty_sentences (il : list item) (fl : list Z)
  : list item * list Z :=
  match il, fl with
  | x :: il', f :: fl' =>
      let (il'', fl'') := filter_out_empty_sentences il' fl' in
      if negb (is_empty_text x) then (x :: il'', f :: fl'') else (il'', fl'')
  | _, _ => ([], [])
  end.

(** [preprocess_sentences(interleaved_list, is_image_list)] *)
Definition preprocess_sentences (il : list item) (fl : list Z)
  : result (Z * list item * list Z) :=
  il <- normalize_sentences il fl ;;
  il <- remove_punctuation_based_sentences il fl ;;
  let (il, fl) := filter_out_empty_sentences il fl in
  if negb (Nat.eqb (length il) (length fl))
  then Raise (AssertionError "lengths of the interleaved and is_image list should be same")
  else Ok (Z.of_nat (length il), il, fl).

(** The loop of [substitute_with_image_tag]. *)
Fixpoint collect_images (il : list item) (fl : list Z) : list item * list item :=
  match il, fl with
  | x :: il', f :: fl' =>
      let (images, il'') := collect_images il' fl' in
      if flag_set f then (x :: images, Text (Text.lit "<|endofchunk|><image>") :: il'')
      else (images, x :: il'')
  | _, _ => ([], il)
  end.

(** [substitute_with_image_tag(interleaved_list, is_image_list)] *)
Definition substitute_with_image_tag (il : list item) (fl : list Z)
  : result (list item * list item * list Z) :=
  let (images, il) := collect_images il fl in
  if negb (0 <? Z.of_nat (length images))
  then Raise (AssertionError "images should be >1")
  else Ok (images, il, fl).

Fixpoint all_text (il : list item) : result (list Text.str) :=
  match il with
  | [] => Ok []
  | Text s :: t => rest <- all_text t ;; Ok (s :: rest)
  | Picture _ :: _ => Raise TypeError
  end.

(** [prepare_text_data(interleaved_list, text_tokenizer)] *)
Definition prepare_text_data (il : list item) : result (list Z * list Z) :=
  strs <- all_text il ;;
  let text := Text.join (Text.lit " ") strs in
  let text := Text.tidy_markers text (Text.eos_token text_tokenizer) in
  Ok (Text.tokenize text_tokenizer MAX_NUM_TOKENS text).

Fixpoint all_pictures (images : list item) : result (list image) :=
  match images with
  | [] => Ok []
  | Picture im :: t => rest <- all_pictures t ;; Ok (im :: rest)
  | Text _ :: _ => Raise TypeError
  end.

(** [preprocess_image(sample, image_processor)]: one encoded row per
    picture; the flip and the colour jitter keep the shape. *)
Definition preprocess_image (images : list image) : list slot :=
  List.map Pixels images.

(** [prepare_image_data(image_list, image_processor)] *)
Definition prepare_image_data (image_list : list item) : result (list slot) :=
  ims <- all_pictures image_list ;;
  let images_tensor := preprocess_image ims in
  if (length image_list <? 5)%nat
  then Ok (images_tensor ++ repeat Zeros (5 - length image_list))
  else Ok images_tensor.

(** [preprocess_interleaved_sample(sample, text_tokenizer, image_processor)] *)
Definition preprocess_interleaved_sample (sample : document)
  : result (list slot * (list Z * list Z)) :=
  let interleaved_list := interleaved_list sample in
  let is_image_list := is_image sample in
  '(num_images, interleaved_list, is_image_list) <-
     remove_unwanted_images interleaved_list is_image_list ;;
  if num_images =? 0 then Raise (ValueError "No images in sample") else
  '(num_sentences, interleaved_list, is_image_list) <-
     preprocess_sentences interleaved_list is_image_list ;;
  if num_sentences =? 0 then Raise (ValueError "No sentences in sample") else
  '(images, interleaved_list, is_image_list) <-
     substitute_with_image_tag interleaved_list is_image_list ;;
  text_tensor <- prepare_text_data interleaved_list ;;
  images_tensor <- prepare_image_data images ;;
  Ok (images_tensor, text_tensor).

(** [preprocess_interleaved_json(data, text_tokenizer, image_processor)];
    [json_loads] is [data[0].decode('utf8')] followed by [json.loads]. *)
Definition preprocess_interleaved_json (json_loads : string -> result document)
    (data : string) : result (list slot * (list Z * list Z)) :=
  sample <- json_loads data ;;
  preprocess_interleaved_sample sample.

End Interleaved.
End Interleaved.

(* ===================================================================== *)
(** ** The span-masking preprocessor *)

(** torch's random draws, as [preprocess_pile] uses them: the mask
    [torch.rand(n) <= 0.7] and the permutation [torch.randperm(k)]. *)
Class TorchRandom : Type := {
  rand_le : nat -> list bool;
  rand_le_length : forall n, length (rand_le n) = n;
  randperm : nat -> list nat;
  randperm_perm : forall k, Permutation (randperm k) (seq 0 k)
}.

Module Pile.
Section Pile.
Context {TR : TorchRandom}.
(** [str.isalnum] on one character, for the [\W] of the punctuation
    filter. *)
Variable isalnum : Z -> bool.
(** [sample[0].decode("utf-8")] *)
Variable utf8_decode : string -> result Text.str.
(** nltk's [sent_tokenize] *)
Variable sent_tokenize : Text.str -> list Text.str.
Variable tokenizer : Text.Tokenizer.
(** [clip_processor.tokenizer] *)
Variable clip_tokenizer : Text.Tokenizer.

(** [indices_replaced.sum()] *)
Definition count_true (marks : list bool) : Z :=
  Z.of_nat (length (filter (fun b => b) marks)).

(** [torch.nonzero(indices_replaced).squeeze()]: the marked positions. *)
Fixpoint nonzero_from (i : nat) (marks : list bool) : list nat :=
  match marks with
  | [] => []
  | b :: t => if b then i :: nonzero_from (S i) t else nonzero_from (S i) t
  end.

Definition nonzero (marks : list bool) : list nat := nonzero_from 0 marks.

(** [indices_replaced[idx] = False] for every [idx] of a list. *)
Definition unmark (marks : list bool) (idx : list nat) : list bool :=
  fold_left (fun m i => list_set m i false) idx marks.

(** The sentences that survive: whitespace normalised, split, and the ones
    that are only punctuation removed. *)
Definition sentences_of (sample : Text.str) : list Text.str :=
  let sample := Text.remove_consecutive_spaces sample in
  let sample := Text.remove_multiple_newline_limiters sample in
  let sentences := sent_tokenize sample in
  filter (fun s => negb (Text.is_punctuation isalnum s)) sentences.

(** The marks after the cap: at most 10 stay set. *)
Definition cap_marks (indices_replaced : list bool) : list bool :=
  if 10 <? count_true indices_replaced then
    let true_indices := nonzero indices_replaced in
    let overflowing := Z.to_nat (count_true indices_replaced - 10) in
    let drop := firstn overflowing (randperm (length true_indices)) in
    unmark indices_replaced (List.map (fun p => nth p true_indices 0%nat) drop)
  else indices_replaced.

(** The final [indices_replaced] of a sample that is not rejected. *)
Definition indices_replaced_of (sentences : list Text.str) : list bool :=
  cap_marks (rand_le (length sentences)).

Fixpoint chosen (sentences : list Text.str) (marks : list bool) : list Text.str :=
  match sentences, marks with
  | s :: ss, m :: ms => if m then Text.strip s :: chosen ss ms else chosen ss ms
  | _, _ => []
  end.

Fixpoint splice (sentences : list Text.str) (marks : list bool) : list Text.str :=
  match sentences, marks with
  | s :: ss, m :: ms =>
      (if m then Text.lit "<|endofchunk|><image>" ++ s else s) :: splice ss ms
  | _, _ => sentences
  end.

(** [preprocess_pile(sample, tokenizer, clip_processor)] *)
Definition preprocess_pile (sample : string)
  : result ((list (list Z) * list (list Z)) * (list Z * list Z)) :=
  sample <- utf8_decode sample ;;
  let sentences := sentences_of sample in
  if Nat.eqb (length sentences) 0 then Raise (ValueError "No sentences in sample") else
  let indices_replaced := rand_le (length sentences) in
  if count_true indices_replaced =? 0 then Raise (ValueError "No sentences to mask") else
  let indices_replaced := cap_marks indices_replaced in
  let chosen_sentences := chosen sentences indices_replaced in
  let sentences := splice sentences indices_replaced in
  let text := Text.join (Text.lit " ") sentences in
  let text := Text.tidy_markers text (Text.eos_token tokenizer) in
  let text_tensor := Text.tokenize tokenizer 256 text in
  let clip_text_tensor := List.map (Text.tokenize clip_tokenizer 24) chosen_sentences in
  let input_ids := List.map fst clip_text_tensor in
  let attention_mask := List.map snd clip_text_tensor in
  let zero_padding := repeat (repeat 0 24) (10 - length chosen_sentences) in
  if (length chosen_sentences <? 10)%nat
  then Ok ((input_ids ++ zero_padding, attention_mask ++ zero_padding), text_tensor)
  else Ok ((input_ids, attention_mask), text_tensor).

End Pile.
End Pile.

(* ===================================================================== *)
(** ** The paired image-caption preprocessors *)

Module Paired.
Section Paired.
Variable tokenizer : Text.Tokenizer.

(** [preprocess_image(sample, image_processor)] on a batch of pictures. *)
Definition preprocess_image (sample : list Interleaved.image)
  : list Interleaved.slot :=
  List.map Interleaved.Pixels sample.

Definition longest (rows : list (list Z)) : nat :=
  fold_right (fun r m => Nat.max (length r) m) 0%nat rows.

(** [preprocess_text(sample, tokenizer)]: [max_length=32],
    [padding="longest"], [truncation="only_first"]. *)
Definition preprocess_text (sample : list Text.str) : list (list Z) * list (list Z) :=
  let sample :=
    List.map (fun s => Text.lit "<image>" ++ Text.strip s
                         ++ Text.lit "<|endofchunk|>"
                         ++ Text.eos_token tokenizer) sample in
  let rows := List.map (fun s => firstn 32 (Text.encode tokenizer s)) sample in
  let n := longest rows in
  (List.map (fun r => r ++ repeat (Text.pad_token_id tokenizer) (n - length r)) rows,
   List.map (fun r => repeat 1 (length r) ++ repeat 0 (n - length r)) rows).

End Paired.
End Paired.

(* ===================================================================== *)
(** ** The stages each dataset kind adds after the sample shuffle *)

Module Pipelines.
Import Stages.

Section Interleaved.
Context {Out : Type}.
(** Python's [repr] of a list of [str], for the message of [getfirst]. *)
Variable repr : list string -> string.
(** [preprocess_json_fn], the partial application of
    [preprocess_interleaved_json]. *)
Variable preprocess_json_fn : Grouper.value -> result Out.

(** [add_interleaved_data_processing_step(args, preprocess_json_fn, pipeline)] *)
Definition add_interleaved_data_processing_step (args : Args)
    (g : gen Grouper.sample) : gen (list Out) :=
  let g := map (fun s => getfirst repr s ["json"%string]) reraise_exception g in
  let g := map preprocess_json_fn log_and_continue g in
  let g := map (fun x => Ok x) reraise_exception g in
  batched (batch_size args) false g.

End Interleaved.

Section Pile.
Context {Out : Type}.
Variable repr : list string -> string.
Variable preprocess_fn : Grouper.value -> result Out.

(** The last stages of [get_pile_dataset]. *)
Definition pile_stages (args : Args) (g : gen Grouper.sample) : gen (list Out) :=
  let g := map (fun s => getfirst repr s ["txt"%string]) reraise_exception g in
  let g := map preprocess_fn log_and_continue g in
  batched (batch_size args) false g.

End Pile.

Section ImageText.
Variable repr : list string -> string.
(** [wds.decode("pilrgb")] on one sample. *)
Variable decode : Grouper.sample -> result Grouper.sample.
Variable tokenizer : Text.Tokenizer.

Definition to_tuple_image_text (s : Grouper.sample)
  : result (Grouper.value * Grouper.value) :=
  i <- getfirst repr s ["jpg"; "png"; "jpeg"]%string ;;
  t <- getfirst repr s ["txt"%string] ;;
  Ok (i, t).

Fixpoint pictures_of (l : list Grouper.value) : result (list Pil.image) :=
  match l with
  | [] => Ok []
  | Grouper.VImage im :: t => rest <- pictures_of t ;; Ok (im :: rest)
  | _ :: _ => Raise TypeError
  end.

(** The captions of a batch; a decoded caption is a [str], held in [VStr]
    by its characters. *)
Fixpoint captions_of (l : list Grouper.value) : result (list Text.str) :=
  match l with
  | [] => Ok []
  | Grouper.VStr c :: t => rest <- captions_of t ;; Ok (Text.lit c :: rest)
  | _ :: _ => Raise TypeError
  end.

(** [map_tuple(preprocess_image_fn, preprocess_text_fn)] on a collated
    batch: the column of pictures and the column of captions. *)
Definition map_tuple_fn (batch : list (Grouper.value * Grouper.value))
  : result (list Interleaved.slot * (list (list Z) * list (list Z))) :=
  ims <- pictures_of (List.map fst batch) ;;
  caps <- captions_of (List.map snd batch) ;;
  Ok (Paired.preprocess_image ims, Paired.preprocess_text tokenizer caps).

(** The last stages of [get_wds_dataset]. *)
Definition image_text_stages (args : Args) (g : gen Grouper.sample)
  : gen (list Interleaved.slot * (list (list Z) * list (list Z))) :=
  let g := select Grouper.filter_no_caption_or_no_image g in
  let g := map decode log_and_continue g in
  let g := map to_tuple_image_text log_and_continue g in
  let g := batched (batch_size args) false g in
  map map_tuple_fn log_and_continue g.

End ImageText.
End Pipelines.

(* ===================================================================== *)
(** ** Vocabulary of the properties *)

Module ShuffleSpec.
Section ShuffleSpec.
Context {PR : PyRandom} {A : Type}.

(** What the properties say of one loop iteration: the buffer holds at most
    [max 1 bufsize] elements; the [for] loop yields exactly when at least
    [threshold] elements are buffered. *)
Definition event_ok (bufsize threshold : Z) (ev : Shuffle.event (A := A)) : Prop :=
  Z.of_nat (length (Shuffle.buffer_of ev)) <= Z.max 1 bufsize /\
  match ev with
  | Shuffle.Iter b (Some _) => threshold <= Z.of_nat (length b)
  | Shuffle.Iter b None => Z.of_nat (length b) < threshold
  | Shuffle.Drain _ _ => True
  end.

(** A run that ends normally, respects the bounds, and has yielded exactly
    the elements of [l], each once. *)
Definition run_ok (bufsize threshold : Z) (g : Shuffle.gen (A := A)) (l : list A) : Prop :=
  snd g = None /\ Forall (event_ok bufsize threshold) (fst g) /\
  Permutation (Shuffle.yields g) l.

End ShuffleSpec.
End ShuffleSpec.

(** The smallest configuration: one sample per batch, one node, one worker. *)
Definition unit_args : Args := mkArgs "" 1 1 1 0 false None.

(** A linear congruential generator, to run the definitions on. *)
Definition lcg_next (r : Z) : Z := (r * 6364136223846793005 + 1442695040888963407) mod 2 ^ 64.

#[refine] Instance Lcg : PyRandom := {|
  rng := Z;
  rng_seed := fun a => Z.abs a mod 2 ^ 64;
  randbelow := fun r n => ((r / 2 ^ 33) mod n, lcg_next r)
|}.
Proof.
  intros r n Hn; cbn. apply Z.mod_pos_bound; assumption.
Defined.

Module GrouperSpec.
Import Grouper.

(** The stream of the example: two entries with prefix [a], one with
    prefix [b], all from one shard. *)
Definition example_stream (img img2 shard : string) : list filesample :=
  [mk_filesample "a.jpg" img shard;
   mk_filesample "a.txt" "hi" shard;
   mk_filesample "b.jpg" img2 shard].

Definition group_a (img shard : string) : sample :=
  [("__key__", VStr "a"); ("__url__", VStr shard);
   ("jpg", VBytes img); ("txt", VBytes "hi")]%string.

Definition group_b (img2 shard : string) : sample :=
  [("__key__", VStr "b"); ("__url__", VStr shard); ("jpg", VBytes img2)]%string.

End GrouperSpec.

Module ShardStatsSpec.
Import ShardStats.

(** Two shards, and a [sizes.json] next to them that counts 250 elements. *)
Definition example_shards : string := "/data/shard-{000..001}.tar".

Definition example_braceexpand (_ : string) : list string :=
  ["/data/shard-000.tar"; "/data/shard-001.tar"]%string.

Definition example_fs : filesystem :=
  mk_filesystem
    (fun path => if String.eqb path "/data/sizes.json"
                 then Some [("shard-000.tar", 100); ("shard-001.tar", 150)]%string
                 else None)
    (fun _ => None).

Definition no_hint_args : Args := mkArgs example_shards 2 1 1 0 false None.

End ShardStatsSpec.

Module StagesSpec.

(** The results of the samples [f] accepts, in order. *)
Definition successes {A B : Type} (f : A -> result B) (data : list A) : list B :=
  flat_map (fun x => match f x with Ok y => [y] | Raise _ => [] end) data.

Definition rejected {A B : Type} (f : A -> result B) (data : list A) : list A :=
  filter (fun x => match f x with Ok _ => false | Raise _ => true end) data.

Fixpoint comma_separated (l : list string) : string :=
  match l with
  | [] => ""
  | [x] => x
  | x :: t => x ++ ", " ++ comma_separated t
  end%string.

(** Python's [repr] of a list of [str] that hold letters, digits,
    underscores and dots only: each in single quotes. *)
Definition plain_repr (l : list string) : string :=
  ("[" ++ comma_separated (List.map (fun s => "'" ++ s ++ "'") l) ++ "]")%string.

End StagesSpec.

Module UnicodeSpec.

(** The alphanumeric characters up to U+00FF, as [str.isalnum] has them, and
    none above: a table to run the definitions on. *)
Definition latin1_isalnum (c : Z) : bool :=
  Text.between 48 57 c || Text.between 65 90 c || Text.between 97 122 c
  || (c =? 170) || Text.between 178 179 c || (c =? 181)
  || Text.between 185 186 c || Text.between 188 190 c
  || Text.between 192 214 c || Text.between 216 246 c
  || Text.between 248 255 c.

(** [a == b] on two [str]. *)
Fixpoint str_eqb (a b : Text.str) : bool :=
  match a, b with
  | [], [] => true
  | x :: a', y :: b' => (x =? y) && str_eqb a' b'
  | _, _ => false
  end.

End UnicodeSpec.

Module InterleavedSpec.
Import Interleaved.

Section InterleavedSpec.
Variable isalnum : Z -> bool.
Variable parse_image : Text.str -> result image.

(** Every entry flagged as an image decodes. *)
Fixpoint all_decode (il : list Text.str) (fl : list Z) : bool :=
  match il, fl with
  | x :: il', f :: fl' =>
      (if flag_set f
       then match parse_image x with Ok _ => true | Raise _ => false end
       else true) && all_decode il' fl'
  | _, _ => true
  end.

(** The pictures that survive the icon filter, in document order. *)
Fixpoint wanted_images (il : list Text.str) (fl : list Z) : list image :=
  match il, fl with
  | x :: il', f :: fl' =>
      if flag_set f then
        match parse_image x with
        | Ok im => if is_unwanted_image im then wanted_images il' fl'
                   else im :: wanted_images il' fl'
        | Raise _ => wanted_images il' fl'
        end
      else wanted_images il' fl'
  | _, _ => []
  end.

(** The sentences that survive: text entries that are neither empty nor
    only punctuation once their whitespace is normalised. *)
Fixpoint surviving_sentences (il : list Text.str) (fl : list Z)
  : list Text.str :=
  match il, fl with
  | x :: il', f :: fl' =>
      let s := Text.preprocess_sentence x in
      if negb (flag_set f) && negb (is_empty_text (Text s))
         && negb (Text.is_punctuation isalnum s)
      then s :: surviving_sentences il' fl'
      else surviving_sentences il' fl'
  | _, _ => []
  end.

End InterleavedSpec.

Definition is_picture (x : item) : bool :=
  match x with
  | Picture _ => true
  | Text _ => false
  end.

(** The pictures among the entries that have a flag, in order. *)
Fixpoint pictures (il : list item) (fl : list Z) : list image :=
  match il, fl with
  | Picture im :: il', _ :: fl' => im :: pictures il' fl'
  | Text _ :: il', _ :: fl' => pictures il' fl'
  | _, _ => []
  end.

(** An entry is a picture exactly when its flag is set. *)
Fixpoint flags_agree (il : list item) (fl : list Z) : Prop :=
  match il, fl with
  | x :: il', f :: fl' => flag_set f = is_picture x /\ flags_agree il' fl'
  | _, _ => True
  end.

(** The image tensor of a document that keeps the pictures [w]. *)
Definition image_tensor_of (w : list image) : list slot :=
  List.map Pixels (firstn 5 w) ++ repeat Zeros (5 - length (firstn 5 w)).

(** A picture of the given size, and a document of seven of them, each
    followed by a word. *)
Definition photo (n : Z) : image := Pil.mk_image (20 + n) 30 "".

Definition example_parse (s : Text.str) : result image :=
  match s with
  | [c] => Ok (photo (c - 48))
  | _ => if UnicodeSpec.str_eqb s (Text.lit "icon")
         then Ok (Pil.mk_image 10 10 "")
         else Raise (DecodeError "cannot identify image file")
  end.

(** A tokenizer whose token ids are the code points. *)
Definition example_tokenizer : Text.Tokenizer :=
  Text.mk_Tokenizer (fun s => s) 0 (Text.lit "</s>").

Definition seven_pictures : document :=
  mk_document
    (List.map Text.lit ["1"; "one"; "2"; "3"; "..."; "4"; "5"; "6"; "7"]%string)
    [1; 0; 1; 1; 0; 1; 1; 1; 1].

Definition icons_only : document :=
  mk_document (List.map Text.lit ["icon"; "a caption"; "icon"]%string) [1; 0; 1].

(** One picture and no sentence. *)
Definition picture_only : document := mk_document [Text.lit "1"] [1].

End InterleavedSpec.

(** torch draws to run the definitions on: every sentence marked, and the
    identity permutation. *)
#[refine] Instance MarkAll : TorchRandom := {|
  rand_le := fun n => repeat true n;
  randperm := fun k => seq 0 k
|}.
Proof.
  - intros n. apply repeat_length.
  - intros k. apply Permutation_refl.
Defined.

Module PileSpec.

(** UTF-8 decoding, on bytes that are all ASCII. *)
Definition example_decode (s : string) : result Text.str := Ok (Text.lit s).

(** Sentences end with a full stop. *)
Fixpoint split_sentences (acc : Text.str) (l : Text.str) : list Text.str :=
  match l with
  | [] => match acc with [] => [] | _ => [rev acc] end
  | c :: t =>
      if c =? 46
      then rev (c :: acc) :: split_sentences [] t
      else split_sentences (c :: acc) t
  end.

Definition example_sent_tokenize (s : Text.str) : list Text.str :=
  split_sentences [] s.

Definition three_sentences : string := "One.  Two.
Three.".

(** The sentences at the marked positions, in order. *)
Definition marked (sentences : list Text.str) (marks : list bool)
  : list Text.str :=
  List.map fst (filter (fun sm : Text.str * bool => snd sm) (combine sentences marks)).

(** Every sentence, the marked ones behind the image tag. *)
Definition tagged (sentences : list Text.str) (marks : list bool)
  : list Text.str :=
  List.map (fun sm : Text.str * bool =>
              if snd sm then Text.lit "<|endofchunk|><image>" ++ fst sm
              else fst sm)
           (combine sentences marks).

(** After the un-marking a sentence is marked only if the draw marked it. *)
Definition only_cleared (drawn marks : list bool) : Prop :=
  Forall2 (fun before after : bool => after = true -> before = true) drawn marks.

End PileSpec.

Module RejectionSpec.
Import Grouper.

(** A decoded image-caption sample whose caption is blank. *)
Definition blank_caption : sample :=
  [("__key__", VStr "a"); ("__url__", VStr "s.tar");
   ("jpg", VImage (InterleavedSpec.photo 1)); ("txt", VStr "  ")]%string.

End RejectionSpec.

(** The end-to-end scenario of the specification: batches of two samples,
    one node, two workers, eight samples. *)
Definition scenario_args : Args := mkArgs "shard-{0..3}.tar" 2 1 2 0 false None.

Definition example_detshuffle2 : Shuffle.detshuffle2 :=
  Shuffle.mk_detshuffle2 4 2 42 Epoch.Shared.

Definition example_urls : list string := ["s0.tar"; "s1.tar"; "s2.tar"]%string.

(** A deterministic source of five draws, on the generator above, from the
    state [entropy]. *)
Definition example_source (entropy : Z) : Resampled.ResampledShards2 (PR := Lcg) :=
  Resampled.mk_ResampledShards2 (PR := Lcg) example_urls 5 entropy true Epoch.Shared.

(** Five grouped samples that carry a [txt] field. *)
Definition txt_sample (key : string) : Grouper.sample :=
  [("__key__", Grouper.VStr key); ("__url__", Grouper.VStr "s.tar");
   ("txt", Grouper.VBytes "a caption.")]%string.

Definition five_txt_samples : list Grouper.sample :=
  List.map txt_sample ["a"; "b"; "c"; "d"; "e"]%string.

Definition keep_text (v : Grouper.value) : result Grouper.value := Ok v.

(* ===================================================================== *)
(** ** Building the interleaved dataset *)

Module Construction.

Definition _SHARD_SHUFFLE_SIZE : Z := 2000.
Definition _SHARD_SHUFFLE_INITIAL : Z := 500.
Definition _SAMPLE_SHUFFLE_SIZE : Z := 5000.
Definition _SAMPLE_SHUFFLE_INITIAL : Z := 1000.

(** The stage [add_detshuffle2_step(shared_epoch, args, pipeline)] puts
    after the shard list. *)
Definition add_detshuffle2_step (args : Args) : Shuffle.detshuffle2 :=
  Shuffle.mk_detshuffle2 _SHARD_SHUFFLE_SIZE _SHARD_SHUFFLE_INITIAL (seed args)
    Epoch.Shared.

Section Construction.
Context {PR : PyRandom}.
Variable braceexpand : string -> list string.

(** Modelled from the spec: webdataset's [expand_urls(urls)], which
    [ResampledShards2] and [wds.SimpleShardList] call on the shard pattern,
    is imported and not part of the sources; the pattern is split on [::]
    and every part is brace-expanded. *)
Definition expand_urls (urls : string) : list string :=
  flat_map braceexpand (Str.split urls "::").

(** Modelled from the spec: the constructor of torch's [DataLoader], which
    [wds.WebLoader(dataset, batch_size=None, shuffle=False,
    num_workers=args.workers, persistent_workers=True)] calls, is imported
    and not part of the sources; it refuses a negative worker count, and
    workers that are to persist when there is none. *)
Definition WebLoader_init (num_workers : Z) : result unit :=
  if num_workers <? 0
  then Raise (ValueError "num_workers option should be non-negative; use num_workers=0 to disable multiprocessing.")
  else if num_workers =? 0
  then Raise (ValueError "persistent_workers option needs num_workers > 0")
  else Ok tt.

(** Where the shards of a pipeline come from: [wds.SimpleShardList] or
    [ResampledShards2]. *)
Inductive shard_source : Type :=
| SimpleShardList (urls : list string)
| Resampled (source : Resampled.ResampledShards2).

(** What the loader is built from and the counts attached to it:
    [dataset.with_epoch(num_worker_batches)], [num_workers=args.workers],
    [dataloader.num_batches], [dataloader.num_samples]. *)
Record DataLoader : Type := mk_DataLoader {
  source : shard_source;
  with_epoch : Z;
  num_workers : Z;
  num_batches : Z;
  num_samples : Z
}.

(** [class DataInfo]; a sampler is kept as the epoch it was last given. *)
Record DataInfo : Type := mk_DataInfo {
  dataloader : DataLoader;
  sampler : option Z;
  shared_epoch : option Epoch.SharedEpoch
}.

(** [DataInfo.set_epoch(epoch)] *)
Definition set_epoch (d : DataInfo) (epoch : Z) : DataInfo :=
  let shared_epoch :=
    match shared_epoch d with
    | Some c => Some (Epoch.set_value c epoch)
    | None => None
    end in
  let sampler :=
    match sampler d with
    | Some _ => Some epoch
    | None => None
    end in
  mk_DataInfo (dataloader d) sampler shared_epoch.

(** [prepare_dataloader(args, floor, num_samples, dataset)] *)
Definition prepare_dataloader (args : Args) (floor : bool) (num_samples : Z)
    (dataset : shard_source) : result DataLoader :=
  '(num_samples, num_batches, num_worker_batches) <-
     Driver.recompute_samples_stats args floor num_samples ;;
  _ <- WebLoader_init (workers args) ;;
  Ok (mk_DataLoader dataset num_worker_batches (workers args) num_batches num_samples).

Definition too_few_shards : string := "number of shards must be >= total workers".

(** [get_interleaved_dataset(args, image_processor, tokenizer, epoch,
    floor)]; [entropy] is the state the resampler's generator starts in. *)
Definition get_interleaved_dataset (fs : ShardStats.filesystem) (entropy : rng)
    (args : Args) (epoch : Z) (floor : bool) : result DataInfo :=
  let input_shards := shards args in
  let resampled := dataset_resampled args in
  '(num_samples, num_shards) <-
     ShardStats.get_shard_stats braceexpand fs args input_shards ;;
  let shared_epoch := Epoch.new epoch in
  dataset <-
    (if resampled then
       source <- Resampled.init (expand_urls input_shards) Resampled.sys_maxsize
                   entropy true Epoch.Shared ;;
       Ok (Resampled source)
     else
       if workers args * world_size args <=? num_shards
       then Ok (SimpleShardList (expand_urls input_shards))
       else Raise (AssertionError too_few_shards)) ;;
  dataloader <- prepare_dataloader args floor num_samples dataset ;;
  Ok (mk_DataInfo dataloader None (Some shared_epoch)).

End Construction.
End Construction.

(** [k] calls of [detshuffle2.run] in a row on one stage, over the same
    input. *)
Fixpoint runs {PR : PyRandom} {A : Type} (k : nat) (cell : Epoch.SharedEpoch)
    (self : Shuffle.detshuffle2) (entropy : rng) (worker_seed : Z) (src : list A)
  : list (Shuffle.gen (A := A)) * Shuffle.detshuffle2 :=
  match k with
  | O => ([], self)
  | S k' =>
      let (g, self') := Shuffle.run cell self entropy worker_seed src in
      let (gs, self'') := runs k' cell self' entropy worker_seed src in
      (g :: gs, self'')
  end.

Definition counting_detshuffle2 : Shuffle.detshuffle2 :=
  Shuffle.mk_detshuffle2 1000 100 7 (Epoch.Counter (-1)).

Definition example_free_source (entropy : Z) : Resampled.ResampledShards2 (PR := Lcg) :=
  Resampled.mk_ResampledShards2 (PR := Lcg) example_urls 3 entropy false Epoch.Shared.

Definition resampled_args : Args := mkArgs "shard-{0..3}.tar" 2 1 2 0 true (Some 8).

Definition four_shards (_ : string) : list string :=
  ["shard-0.tar"; "shard-1.tar"; "shard-2.tar"; "shard-3.tar"]%string.

Definition no_files : ShardStats.filesystem :=
  ShardStats.mk_filesystem (fun _ => None) (fun _ => None).

Module GrouperVocab.
Import Grouper.

(** The payloads a sample holds, in the order of its fields. *)
Definition payloads (s : sample) : list string :=
  flat_map (fun kv => match snd kv with VBytes b => [b] | _ => [] end) s.

(** Whether the key function gives an entry a prefix. *)
Definition has_key (keys : string -> option (string * string)) (f : filesample)
  : bool :=
  match keys (fname f) with Some _ => true | None => false end.

(** The suffix under which an entry is stored. *)
Definition suffix_of (keys : string -> option (string * string)) (lcase : bool)
    (f : filesample) : option string :=
  match keys (fname f) with
  | Some (_, s) => Some (if lcase then Str.lower s else s)
  | None => None
  end.

Definition prefix_of (keys : string -> option (string * string)) (f : filesample)
  : option string :=
  match keys (fname f) with
  | Some (p, _) => Some p
  | None => None
  end.

(** The two fields every new sample starts with. *)
Definition header (prefix shard : string) : sample :=
  [("__key__", VStr prefix); ("__url__", VStr shard)]%string.

Definition reserved (s : string) : bool :=
  String.eqb s "__key__" || String.eqb s "__url__" || String.eqb s "__bad__".

Definition well_formed (d : sample) : Prop :=
  NoDup (List.map fst d) /\ dict_mem d "__key__" = true /\ dict_mem d "__url__" = true.

Definition two_parts : list filesample :=
  [mk_filesample "dir/x.JPG" "picture" "s.tar";
   mk_filesample "dir/x.txt" "caption" "s.tar"].

Definition same_name_twice : list filesample :=
  [mk_filesample "x.jpg" "first" "s0.tar"; mk_filesample "x.jpg" "second" "s1.tar"].

End GrouperVocab.

(* ===================================================================== *)
(** ** The two other dataset constructors and the dispatch *)

Module Constructors.
Import Construction.

(** The three constructors [get_dataset_fn] can return. *)
Inductive dataset_fn : Type :=
| GetWds
| GetPile
| GetInterleaved.

(** [get_dataset_fn(dataset_type)] *)
Definition get_dataset_fn (dataset_type : string) : result dataset_fn :=
  if String.eqb dataset_type "image_text" then Ok GetWds
  else if String.eqb dataset_type "pile" then Ok GetPile
  else if String.eqb dataset_type "interleaved" then Ok GetInterleaved
  else Raise (ValueError ("Unsupported dataset type: " ++ dataset_type)).

Section Constructors.
Context {PR : PyRandom}.
Variable braceexpand : string -> list string.

(** [get_wds_dataset(args, image_processor, tokenizer, epoch, floor)], as
    far as the loader goes: where its shards come from, the epoch cell and
    the counts.  The stages it puts in between are [image_text_stages]. *)
Definition get_wds_dataset (fs : ShardStats.filesystem) (entropy : rng)
    (args : Args) (epoch : Z) (floor : bool) : result (DataInfo (PR := PR)) :=
  let input_shards := shards args in
  let resampled := dataset_resampled args in
  let '(num_samples, num_shards) :=
    ShardStats.get_dataset_size braceexpand fs input_shards in
  let num_samples : option Z := None in
  num_samples <-
    (if ShardStats.falsy num_samples then
       let num_samples := train_num_samples args in
       if ShardStats.falsy num_samples
       then Raise (RuntimeError ShardStats.no_size_message)
       else Ok num_samples
     else Ok num_samples) ;;
  let shared_epoch := Epoch.new epoch in
  pipeline <-
    (if resampled then
       source <- Resampled.init (expand_urls braceexpand input_shards)
                   Resampled.sys_maxsize entropy true Epoch.Shared ;;
       Ok (Resampled source)
     else Ok (SimpleShardList (expand_urls braceexpand input_shards))) ;;
  _ <- (if negb resampled then
          if workers args * world_size args <=? num_shards then Ok tt
          else Raise (AssertionError too_few_shards)
        else Ok tt) ;;
  match num_samples with
  | None => Raise TypeError
  | Some num_samples =>
      let global_batch_size := batch_size args * world_size args in
      f1 <- PyFloat.true_div num_samples global_batch_size ;;
      let num_batches := Driver.round_fn floor f1 in
      let num_workers := Z.max 1 (workers args) in
      f2 <- PyFloat.true_div num_batches num_workers ;;
      let num_worker_batches := Driver.round_fn floor f2 in
      let num_batches := num_worker_batches * num_workers in
      let num_samples := num_batches * global_batch_size in
      _ <- WebLoader_init (workers args) ;;
      Ok (mk_DataInfo
            (mk_DataLoader pipeline num_worker_batches (workers args)
               num_batches num_samples)
            None (Some shared_epoch))
  end.

(** [get_pile_dataset(args, image_processor, tokenizer, epoch, floor)], as
    far as the loader goes; the stages it puts in between are
    [pile_stages]. *)
Definition get_pile_dataset (fs : ShardStats.filesystem) (entropy : rng)
    (args : Args) (epoch : Z) (floor : bool) : result (DataInfo (PR := PR)) :=
  let input_shards := shards args in
  let resampled := dataset_resampled args in
  let '(num_samples, num_shards) :=
    ShardStats.get_dataset_size braceexpand fs input_shards in
  let num_samples : option Z := None in
  num_samples <-
    (if ShardStats.falsy num_samples then
       let num_samples := train_num_samples args in
       if ShardStats.falsy num_samples
       then Raise (RuntimeError ShardStats.no_size_message)
       else Ok num_samples
     else Ok num_samples) ;;
  let shared_epoch := Epoch.new epoch in
  pipeline <-
    (if resampled then
       source <- Resampled.init (expand_urls braceexpand input_shards)
                   Resampled.sys_maxsize entropy true Epoch.Shared ;;
       Ok (Resampled source)
     else Ok (SimpleShardList (expand_urls braceexpand input_shards))) ;;
  _ <- (if negb resampled then
          if workers args * world_size args <=? num_shards then Ok tt
          else Raise (AssertionError too_few_shards)
        else Ok tt) ;;
  match num_samples with
  | None => Raise TypeError
  | Some num_samples =>
      let global_batch_size := batch_size args * world_size args in
      f1 <- PyFloat.true_div num_samples global_batch_size ;;
      let num_batches := Driver.round_fn floor f1 in
      let num_workers := Z.max 1 (workers args) in
      f2 <- PyFloat.true_div num_batches num_workers ;;
      let num_worker_batches := Driver.round_fn floor f2 in
      let num_batches := num_worker_batches * num_workers in
      let num_samples := num_batches * global_batch_size in
      _ <- WebLoader_init (workers args) ;;
      Ok (mk_DataInfo
            (mk_DataLoader pipeline num_worker_batches (workers args)
               num_batches num_samples)
            None (Some shared_epoch))
  end.

(** [get_data(args, image_processor, tokenizer, epoch)]; [dataset_type] is
    [args.dataset_type], and [floor] is left to its default. *)
Definition get_data (dataset_type : string) (fs : ShardStats.filesystem)
    (entropy : rng) (args : Args) (epoch : Z) : result (DataInfo (PR := PR)) :=
  fn <- get_dataset_fn dataset_type ;;
  match fn with
  | GetWds => get_wds_dataset fs entropy args epoch false
  | GetPile => get_pile_dataset fs entropy args epoch false
  | GetInterleaved => get_interleaved_dataset braceexpand fs entropy args epoch false
  end.

End Constructors.
End Constructors.

(* ===================================================================== *)
(** ** Counting what a loader yields *)

Module Counting.
Import Stages.

(** A batch of the image-caption pipeline: the image tensor, and the pair
    [preprocess_text] returns. *)
Definition batch : Type := list Interleaved.slot * (list (list Z) * list (list Z)).

(** [len] of a tensor is the number of its rows; [len] of a pair is 2. *)
Definition len_tensor {A : Type} (t : list A) : Z := Z.of_nat (length t).
Definition len_pair {A B : Type} (p : A * B) : Z := 2.

(** The loop of [count_samples], from the counts so far. *)
Fixpoint count_samples_from (n_elements n_batches : Z) (batches : list batch)
    (tail : option exn) : result (Z * Z) :=
  match batches with
  | [] =>
      match tail with
      | Some e => Raise e
      | None => Ok (n_elements, n_batches)
      end
  | (images, texts) :: rest =>
      let n_batches := n_batches + 1 in
      let n_elements := n_elements + len_tensor images in
      if negb (len_tensor images =? len_pair texts) then Raise (AssertionError "")
      else count_samples_from n_elements n_batches rest tail
  end.

(** [count_samples(dataloader)] *)
Definition count_samples (dataloader : gen batch) : result (Z * Z) :=
  count_samples_from 0 0 (items dataloader) (escaped dataloader).

End Counting.

(* ===================================================================== *)
(** ** Vocabulary of the further properties *)

Module TextVocab.

(** The text does not start with white space. *)
Definition starts_clean (l : Text.str) : bool :=
  match l with
  | c :: _ => negb (Text.is_space c)
  | [] => true
  end.

(** The only white space left is single spaces: every white-space character
    is a space, and no two of them are neighbours. *)
Fixpoint single_spaced (l : Text.str) : bool :=
  match l with
  | [] => true
  | c :: t =>
      (if Text.is_space c then (c =? 32) && starts_clean t else true)
      && single_spaced t
  end.

(** The characters that are not white space, in order. *)
Definition ink (s : Text.str) : Text.str :=
  filter (fun c => negb (Text.is_space c)) s.

(** The sentence has a word character: alphanumeric, or an underscore. *)
Definition has_word (isalnum : Z -> bool) (s : Text.str) : bool :=
  existsb (Text.is_word isalnum) s.

End TextVocab.

Module InterleavedVocab.
Import Interleaved.

Section InterleavedVocab.
Variable parse_image : Text.str -> result image.

(** The exception of the first flagged entry that does not decode. *)
Fixpoint first_decode_error (il : list Text.str) (fl : list Z) : option exn :=
  match il, fl with
  | x :: il', f :: fl' =>
      if flag_set f then
        match parse_image x with
        | Ok _ => first_decode_error il' fl'
        | Raise e => Some e
        end
      else first_decode_error il' fl'
  | _, _ => None
  end.

End InterleavedVocab.

(** What [preprocess_sentences] leaves of an entry and its flag: a text is
    not empty, and under a cleared flag it has a word and single spaces
    only; a picture is under a set flag. *)
Definition kept_entry (isalnum : Z -> bool) (xf : item * Z) : Prop :=
  match fst xf with
  | Text s =>
      s <> [] /\
      (flag_set (snd xf) = false ->
       TextVocab.has_word isalnum s = true /\
       TextVocab.single_spaced s = true)
  | Picture _ => flag_set (snd xf) = true
  end.

(** A flag is kept or cleared. *)
Definition kept_or_cleared (f f' : Z) : Prop := f' = f \/ f' = 0.

(** Seven pictures and two icons. *)
Definition photos_and_icons : document :=
  mk_document
    (List.map Text.lit
       ["1"; "icon"; "2"; "3"; "a  b"; "4"; "5"; "6"; "icon"; "7"]%string)
    [1; 1; 1; 1; 0; 1; 1; 1; 2; 1].

End InterleavedVocab.

Module CountingVocab.

Definition pair_of_rows (n : Z) : Counting.batch :=
  ([Interleaved.Zeros; Interleaved.Zeros], ([[n]; [n]], [[1]; [1]])).

End CountingVocab.

Module PipelinesVocab.

(** A grouped sample that carries a [json] field. *)
Definition json_sample (key : string) : Grouper.sample :=
  [("__key__", Grouper.VStr key); ("__url__", Grouper.VStr "s.tar");
   ("json", Grouper.VBytes key)]%string.

(** The exception of [getfirst] on a sample that has none of the keys. *)
Definition not_found (repr : list string -> string) (keys : list string)
    (s : Grouper.sample) : exn :=
  ValueError ("didn't find " ++ repr keys ++ " in " ++ repr (List.map fst s)).

(** What the two map stages make of a sample: the field, then the
    preprocessor. *)
Definition field_then {Out : Type} (repr : list string -> string)
    (field : string) (f : Grouper.value -> result Out) (s : Grouper.sample)
  : result Out :=
  v <- Stages.getfirst repr s [field] ;; f v.

End PipelinesVocab.

(** A shard shuffle whose seed is negative. *)
Definition worker_seeded_detshuffle2 : Shuffle.detshuffle2 :=
  Shuffle.mk_detshuffle2 4 2 (-1) (Epoch.Counter (-1)).

(** The arguments with another worker count. *)
Definition with_workers (args : Args) (w : Z) : Args :=
  mkArgs (shards args) (batch_size args) (world_size args) w (seed args)
         (dataset_resampled args) (train_num_samples args).

Module GrouperFilterVocab.

(** Every field of the sample is one of the two the grouping adds, or is
    listed. *)
Definition only_listed (l : list string) (d : Grouper.sample) : Prop :=
  Forall (fun k => k = "__key__"%string \/ k = "__url__"%string \/ In k l)
         (List.map fst d).

Definition picture_caption_and_more : list Grouper.filesample :=
  [Grouper.mk_filesample "a.jpg" "picture" "s.tar";
   Grouper.mk_filesample "a.json" "metadata" "s.tar";
   Grouper.mk_filesample "a.txt" "caption" "s.tar";
   Grouper.mk_filesample "b.json" "metadata" "s.tar";
   Grouper.mk_filesample "b.txt" "caption" "s.tar"].

End GrouperFilterVocab.

(* ===================================================================== *)
(* ===================================================================== *)
(** * Properties *)

(* ===================================================================== *)
(** ** Facts about the float model *)

Module PyFloatFacts.
Import PyFloat.

Lemma rne_ge (x y n : Z) : 0 < y -> n * y <= x -> n <= rne x y.
Proof.
  intros Hy Hn. unfold rne.
  assert (n <= x / y) by (apply Z.div_le_lower_bound; lia).
  destruct (2 * (x mod y) ?= y); [destruct (Z.even (x / y))| |]; lia.
Qed.

Lemma rne_le (x y n : Z) : 0 < y -> x <= n * y -> rne x y <= n.
Proof.
  intros Hy Hn. unfold rne.
  pose proof (Z.div_mod x y ltac:(lia)) as Hdm.
  pose proof (Z.mod_pos_bound x y Hy) as Hr.
  assert (Hq : x / y <= n) by (apply Z.div_le_upper_bound; lia).
  destruct (Z.eq_dec (x / y) n) as [E|E].
  - assert (x mod y = 0) by nia.
    replace (2 * (x mod y) ?= y) with Lt by (symmetry; apply Z.compare_lt_iff; lia).
    lia.
  - destruct (2 * (x mod y) ?= y); [destruct (Z.even (x / y))| |]; lia.
Qed.

Lemma rne_gt (x y n : Z) : 0 < y -> y < 2 * (x - n * y) -> n < rne x y.
Proof.
  intros Hy Hn. unfold rne.
  pose proof (Z.div_mod x y ltac:(lia)) as Hdm.
  pose proof (Z.mod_pos_bound x y Hy) as Hr.
  assert (Hq : n <= x / y) by (apply Z.div_le_lower_bound; lia).
  destruct (Z.eq_dec (x / y) n) as [E|E].
  - replace (2 * (x mod y) ?= y) with Gt by (symmetry; apply Z.compare_gt_iff; nia).
    lia.
  - destruct (2 * (x mod y) ?= y); [destruct (Z.even (x / y))| |]; lia.
Qed.

Lemma rne_lt (x y n : Z) : 0 < y -> y < 2 * (n * y - x) -> rne x y < n.
Proof.
  intros Hy Hn. unfold rne.
  pose proof (Z.div_mod x y ltac:(lia)) as Hdm.
  pose proof (Z.mod_pos_bound x y Hy) as Hr.
  assert (Hq : x / y < n) by (apply Z.div_lt_upper_bound; lia).
  destruct (Z.eq_dec (x / y) (n - 1)) as [E|E].
  - replace (2 * (x mod y) ?= y) with Lt by (symmetry; apply Z.compare_lt_iff; nia).
    lia.
  - destruct (2 * (x mod y) ?= y); [destruct (Z.even (x / y))| |]; lia.
Qed.

Lemma pow2_pos (k : Z) : 0 <= k -> 0 < 2 ^ k.
Proof. intros; apply Z.pow_pos_nonneg; lia. Qed.

Lemma pow2_split (i j : Z) : 0 <= i -> 0 <= j -> 2 ^ (i + j) = 2 ^ i * 2 ^ j.
Proof. intros; apply Z.pow_add_r; lia. Qed.

Lemma pow2_mono (i j : Z) : 0 <= i <= j -> 2 ^ i <= 2 ^ j.
Proof. intros; apply Z.pow_le_mono_r; lia. Qed.

(** The exponent found is not too large: [b * 2^k <= a]. *)
Lemma ilog2_ratio_le (a b : Z) :
  0 < a -> 0 < b -> scaled_leb b (ilog2_ratio a b) a = true.
Proof.
  intros Ha Hb. unfold ilog2_ratio.
  destruct (scaled_leb b (Z.log2 a - Z.log2 b) a) eqn:E; [exact E|].
  pose proof (Z.log2_spec a Ha) as [La _].
  pose proof (Z.log2_spec b Hb) as [_ Lb].
  pose proof (Z.log2_nonneg a) as Na. pose proof (Z.log2_nonneg b) as Nb.
  set (la := Z.log2 a) in *. set (lb := Z.log2 b) in *.
  unfold scaled_leb.
  destruct (0 <=? la - lb - 1) eqn:Ek.
  - apply Z.leb_le in Ek. apply Z.leb_le.
    replace la with (la - lb - 1 + Z.succ lb) in La by lia.
    rewrite pow2_split in La by lia.
    pose proof (pow2_pos (la - lb - 1) ltac:(lia)). nia.
  - apply Z.leb_gt in Ek. apply Z.leb_le.
    replace (Z.succ lb) with (la + (- (la - lb - 1))) in Lb by lia.
    rewrite pow2_split in Lb by lia.
    pose proof (pow2_pos (- (la - lb - 1)) ltac:(lia)). nia.
Qed.

(** [a <= 2^K] bounds the exponent by [K]. *)
Lemma ilog2_ratio_upper (a b K : Z) :
  0 < a -> 0 < b -> 0 <= K -> a < 2 ^ (K + 1) -> ilog2_ratio a b <= K.
Proof.
  intros Ha Hb HK Hlt.
  pose proof (ilog2_ratio_le a b Ha Hb) as H. unfold scaled_leb in H.
  destruct (Z_le_gt_dec (ilog2_ratio a b) K) as [|G]; [assumption|exfalso].
  destruct (0 <=? ilog2_ratio a b) eqn:E; [|apply Z.leb_gt in E; lia].
  apply Z.leb_le in H.
  pose proof (pow2_mono (K + 1) (ilog2_ratio a b) ltac:(lia)). nia.
Qed.

Lemma scaled_rne_nonpos (a b e : Z) :
  e <= 0 -> scaled_rne a b e = rne (a * 2 ^ (- e)) b.
Proof.
  intros He. unfold scaled_rne. destruct (0 <=? e) eqn:E; [|reflexivity].
  apply Z.leb_le in E. replace e with 0 by lia. simpl.
  now rewrite !Z.mul_1_r.
Qed.

Lemma math_floor_nonpos (m e : Z) :
  e <= 0 -> math_floor (mkFloat m e) = m / 2 ^ (- e).
Proof.
  intros He. unfold math_floor; simpl. destruct (0 <=? e) eqn:E; [|reflexivity].
  apply Z.leb_le in E. replace e with 0 by lia. simpl.
  now rewrite Z.mul_1_r, Z.div_1_r.
Qed.

Lemma math_ceil_nonpos (m e : Z) :
  e <= 0 -> math_ceil (mkFloat m e) = - ((- m) / 2 ^ (- e)).
Proof.
  intros He. unfold math_ceil; simpl. destruct (0 <=? e) eqn:E; [|reflexivity].
  apply Z.leb_le in E. replace e with 0 by lia. simpl.
  rewrite Z.mul_1_r, Z.div_1_r. lia.
Qed.

Lemma true_div_pos (a b : Z) :
  0 < a -> 0 < b ->
  true_div a b =
    let e := fexp a b in
    let m := scaled_rne a b e in
    if overflows m e then Raise OverflowError else Ok (mkFloat m e).
Proof.
  intros Ha Hb. unfold true_div.
  replace (b =? 0) with false by (symmetry; apply Z.eqb_neq; lia).
  replace (a =? 0) with false by (symmetry; apply Z.eqb_neq; lia).
  rewrite (Z.abs_eq a), (Z.abs_eq b) by lia.
  rewrite (Z.sgn_pos a), (Z.sgn_pos b) by lia.
  cbv zeta. destruct (overflows _ _); [reflexivity|].
  f_equal. f_equal. lia.
Qed.

(** No overflow below [2^1023], and the rounded quotient of a count that is
    at most [2^K] is again at most [2^K]. *)
Lemma true_div_bounded (a b K : Z) :
  0 < a -> 0 < b -> 0 <= K <= 1023 -> a <= 2 ^ K ->
  exists f, true_div a b = Ok f /\
            0 <= math_floor f <= 2 ^ K /\ 0 <= math_ceil f <= 2 ^ K.
Proof.
  intros Ha Hb HK HaK. rewrite true_div_pos by assumption. cbv zeta.
  pose proof (pow2_pos K ltac:(lia)) as HpK.
  assert (Hk : ilog2_ratio a b <= K).
  { apply ilog2_ratio_upper; try lia.
    rewrite pow2_split by lia. change (2 ^ 1) with 2. lia. }
  set (e := fexp a b).
  assert (He : e = Z.max (ilog2_ratio a b - 52) (-1074)) by reflexivity.
  destruct (Z_lt_le_dec e 0) as [Hneg|Hpos].
  - (* fractional unit in the last place *)
    assert (Hov : overflows (scaled_rne a b e) e = false).
    { unfold overflows. now replace (0 <=? e) with false
        by (symmetry; apply Z.leb_gt; lia). }
    rewrite Hov. eexists; split; [reflexivity|].
    rewrite math_floor_nonpos, math_ceil_nonpos, scaled_rne_nonpos by lia.
    pose proof (pow2_pos (- e) ltac:(lia)) as HS.
    set (S := 2 ^ (- e)) in *. set (m := rne (a * S) b).
    assert (Hm0 : 0 <= m) by (apply rne_ge; nia).
    assert (HmK : m <= 2 ^ K * S).
    { apply rne_le; [lia|].
      assert (a * S <= 2 ^ K * S) by (apply Z.mul_le_mono_nonneg_r; lia).
      assert (2 ^ K * S * 1 <= 2 ^ K * S * b)
        by (apply Z.mul_le_mono_nonneg_l; nia).
      lia. }
    split; split.
    + apply Z.div_pos; lia.
    + apply Z.div_le_upper_bound; nia.
    + enough (- m / S <= 0) by lia.
      apply Z.div_le_upper_bound; nia.
    + enough (- 2 ^ K <= - m / S) by lia.
      apply Z.div_le_lower_bound; nia.
  - (* integral value *)
    assert (HeK : e <= K) by lia.
    pose proof (pow2_pos e Hpos) as HE.
    assert (Hsplit : 2 ^ K = 2 ^ (K - e) * 2 ^ e).
    { rewrite <- pow2_split by lia. f_equal; lia. }
    pose proof (pow2_pos (K - e) ltac:(lia)) as HKe.
    unfold scaled_rne, overflows, math_floor, math_ceil; cbn [mant expo].
    replace (0 <=? e) with true by (symmetry; apply Z.leb_le; lia).
    set (m := rne a (b * 2 ^ e)).
    assert (Hm0 : 0 <= m) by (apply rne_ge; nia).
    assert (HmK : m <= 2 ^ (K - e)) by (apply rne_le; nia).
    assert (Hv : m * 2 ^ e <= 2 ^ K) by nia.
    assert (Hlt : 2 ^ K < 2 ^ emax).
    { apply Z.pow_lt_mono_r; unfold emax; lia. }
    replace (2 ^ emax <=? m * 2 ^ e) with false
      by (symmetry; apply Z.leb_gt; lia).
    eexists; split; [reflexivity|]. cbn [mant expo].
    replace (0 <=? e) with true by (symmetry; apply Z.leb_le; lia). nia.
Qed.

(** Below [2^53] the gap between [a / b] and the integers around it is
    more than half a unit in the last place. *)
Lemma fexp_gap (a b : Z) :
  0 < a < 2 ^ 53 -> 0 < b < 2 ^ 1075 ->
  fexp a b <= 0 /\ b < 2 * 2 ^ (- fexp a b).
Proof.
  intros [Ha Ha53] [Hb Hb1075].
  assert (Hk : ilog2_ratio a b <= 52) by (apply ilog2_ratio_upper; lia).
  pose proof (ilog2_ratio_le a b Ha Hb) as Hle.
  unfold fexp, prec, emin. set (k := ilog2_ratio a b) in *.
  split; [lia|].
  destruct (Z.max_spec (k - (53 - 1)) (-1074)) as [[_ ->]|[Hlt ->]].
  - change (- -1074) with 1074. change (2 * 2 ^ 1074) with (2 ^ 1075). lia.
  - replace (2 * 2 ^ (- (k - (53 - 1)))) with (2 ^ (53 - k)).
    2:{ replace (53 - k) with (1 + (- (k - (53 - 1)))) by lia.
        rewrite pow2_split by lia. reflexivity. }
    unfold scaled_leb in Hle. destruct (0 <=? k) eqn:E.
    + apply Z.leb_le in E, Hle.
      assert (H53 : 2 ^ 53 = 2 ^ (53 - k) * 2 ^ k).
      { rewrite <- pow2_split by lia. f_equal; lia. }
      pose proof (pow2_pos k E). pose proof (pow2_pos (53 - k) ltac:(lia)). nia.
    + apply Z.leb_gt in E. apply Z.leb_le in Hle.
      assert (H53 : 2 ^ (53 - k) = 2 ^ 53 * 2 ^ (- k)).
      { rewrite <- pow2_split by lia. f_equal; lia. }
      pose proof (pow2_pos (- k) ltac:(lia)). nia.
Qed.

(** Rounding a quotient of small integers never crosses an integer:
    [math.floor (a / b)] and [math.ceil (a / b)] are the exact ones. *)
Lemma true_div_exact (a b : Z) :
  0 < a < 2 ^ 53 -> 0 < b < 2 ^ 1075 ->
  exists f, true_div a b = Ok f /\
            math_floor f = a / b /\ math_ceil f = - ((- a) / b).
Proof.
  intros Ha Hb. destruct (fexp_gap a b Ha Hb) as [He Hgap].
  rewrite true_div_pos by lia. cbv zeta.
  set (e := fexp a b) in *.
  rewrite scaled_rne_nonpos by assumption.
  pose proof (pow2_pos (- e) ltac:(lia)) as HS.
  pose proof (Z.div_mod a b ltac:(lia)) as Hdm.
  pose proof (Z.mod_pos_bound a b ltac:(lia)) as Hr.
  assert (Hq0 : 0 <= a / b) by (apply Z.div_pos; lia).
  assert (Hqa : a / b <= a) by (apply Z.div_le_upper_bound; nia).
  assert (Hceil : - (- a / b) = if a mod b =? 0 then a / b else a / b + 1).
  { destruct (a mod b =? 0) eqn:E.
    - apply Z.eqb_eq in E.
      enough (- a / b = - (a / b)) by lia.
      symmetry; apply Z.div_unique with 0; lia.
    - apply Z.eqb_neq in E.
      enough (- a / b = - (a / b + 1)) by lia.
      symmetry; apply Z.div_unique with (b - a mod b); lia. }
  set (S := 2 ^ (- e)) in *. set (m := rne (a * S) b).
  assert (Hm : if a mod b =? 0 then m = a / b * S
               else a / b * S < m < (a / b + 1) * S).
  { destruct (a mod b =? 0) eqn:E.
    - apply Z.eqb_eq in E. apply Z.le_antisymm.
      + apply rne_le; nia.
      + apply rne_ge; nia.
    - apply Z.eqb_neq in E. split.
      + apply rne_gt; nia.
      + apply rne_lt; nia. }
  assert (Hov : overflows m e = false).
  { unfold overflows. destruct (0 <=? e) eqn:E; [|reflexivity].
    apply Z.leb_le in E. assert (e = 0) as E0 by lia.
    assert (HS1 : S = 1) by (unfold S; rewrite E0; reflexivity).
    rewrite E0. change (2 ^ 0) with 1. apply Z.leb_gt.
    assert (2 ^ 53 < 2 ^ emax) by (apply Z.pow_lt_mono_r; unfold emax; lia).
    destruct (a mod b =? 0); nia. }
  rewrite Hov. eexists; split; [reflexivity|].
  rewrite math_floor_nonpos, math_ceil_nonpos by assumption.
  fold S. rewrite Hceil.
  destruct (a mod b =? 0).
  - rewrite Hm. split.
    + apply Z.div_mul; lia.
    + replace (- (a / b * S)) with (- (a / b) * S) by lia.
      rewrite Z.div_mul by lia. lia.
  - split.
    + symmetry; apply Z.div_unique with (m - a / b * S); lia.
    + enough (- m / S = - (a / b + 1)) by lia.
      symmetry; apply Z.div_unique with ((a / b + 1) * S - m); lia.
Qed.

Lemma true_div_zero (b : Z) :
  b <> 0 -> true_div 0 b = Ok (mkFloat 0 0).
Proof.
  intros Hb. unfold true_div.
  now replace (b =? 0) with false by (symmetry; apply Z.eqb_neq; lia).
Qed.

End PyFloatFacts.


(* ===================================================================== *)
(** ** The driver's counts *)

Module DriverFacts.
Import PyFloat PyFloatFacts Driver.

Lemma ceil_div_bounds (a b : Z) :
  0 <= a -> 0 < b -> a <= - (- a / b) * b /\ - (- a / b) <= a.
Proof.
  intros Ha Hb.
  pose proof (Z.div_mod (- a) b ltac:(lia)) as Hdm.
  pose proof (Z.mod_pos_bound (- a) b Hb) as Hr.
  split; nia.
Qed.

Lemma floor_div_bounds (a b : Z) :
  0 <= a -> 0 < b -> a / b * b <= a /\ 0 <= a / b <= a.
Proof.
  intros Ha Hb.
  pose proof (Z.div_mod a b ltac:(lia)) as Hdm.
  pose proof (Z.mod_pos_bound a b Hb) as Hr.
  assert (0 <= a / b) by (apply Z.div_pos; lia).
  split; nia.
Qed.

(** On counts a double holds exactly, rounding the quotient up or down
    after the float division is rounding the exact quotient. *)
Lemma round_true_div_exact (floor : bool) (a b : Z) :
  0 <= a < 2 ^ 53 -> 0 < b < 2 ^ 1075 ->
  exists f, true_div a b = Ok f /\ round_fn floor f = ceil_or_floor floor a b.
Proof.
  intros Ha Hb. destruct (Z.eq_dec a 0) as [->|Hnz].
  - rewrite true_div_zero by lia. eexists; split; [reflexivity|].
    destruct floor; reflexivity.
  - destruct (true_div_exact a b ltac:(lia) Hb) as (f & Hf & Hfl & Hce).
    exists f; split; [assumption|]. destruct floor; assumption.
Qed.

Lemma ceil_or_floor_range (floor : bool) (a b : Z) :
  0 <= a -> 0 < b -> 0 <= ceil_or_floor floor a b <= a.
Proof.
  intros Ha Hb. destruct floor; cbn.
  - apply floor_div_bounds; assumption.
  - pose proof (ceil_div_bounds a b Ha Hb). split; [|lia].
    enough (- a / b <= 0) by lia. apply Z.div_le_upper_bound; lia.
Qed.

(** Refinement: on such counts [recompute_samples_stats] computes the
    counts of section 4.9. *)
Lemma recompute_refines_spec (args : Args) (floor : bool) (num_samples : Z) :
  0 < batch_size args -> 0 < world_size args -> 0 < workers args ->
  0 < num_samples < 2 ^ 53 ->
  batch_size args * world_size args < 2 ^ 1075 -> workers args < 2 ^ 1075 ->
  recompute_samples_stats args floor num_samples =
  Ok (spec_counts (batch_size args) (world_size args) (workers args) floor num_samples).
Proof.
  intros Hb Hw Hk Hn Hg Hk'. unfold recompute_samples_stats, spec_counts.
  set (g := batch_size args * world_size args) in *.
  assert (0 < g) by (unfold g; nia).
  destruct (round_true_div_exact floor num_samples g ltac:(lia) ltac:(lia))
    as (f1 & E1 & R1). rewrite E1; cbn [bind]. rewrite R1.
  rewrite Z.max_r by lia.
  pose proof (ceil_or_floor_range floor num_samples g ltac:(lia) ltac:(lia)).
  destruct (round_true_div_exact floor (ceil_or_floor floor num_samples g)
              (workers args) ltac:(lia) ltac:(lia)) as (f2 & E2 & R2).
  rewrite E2; cbn [bind]. rewrite R2. reflexivity.
Qed.

(** C1. For positive batch size, world size, worker count and sample count,
    and for both rounding modes, the counts [recompute_samples_stats]
    returns satisfy [perWorkerBatches * numWorkers * batchSize * worldSize =
    totalSamples] and [totalBatches = perWorkerBatches * numWorkers]; and it
    does return counts for every sample count up to [2^1023]. *)
Theorem recompute_counts_consistent (args : Args) (floor : bool) (num_samples : Z) :
  0 < batch_size args -> 0 < world_size args -> 0 < workers args ->
  0 < num_samples ->
  (forall ns nb nwb,
      recompute_samples_stats args floor num_samples = Ok (ns, nb, nwb) ->
      nwb * workers args * batch_size args * world_size args = ns /\
      nb = nwb * workers args)
  /\ (num_samples <= 2 ^ 1023 ->
      exists ns nb nwb,
        recompute_samples_stats args floor num_samples = Ok (ns, nb, nwb)).
Proof.
  intros Hb Hw Hk Hn. split.
  - intros ns nb nwb. unfold recompute_samples_stats.
    destruct (true_div num_samples _) as [f1|]; cbn [bind]; [|discriminate].
    destruct (true_div _ _) as [f2|]; cbn [bind]; [|discriminate].
    rewrite Z.max_r by lia. intros [= <- <- <-]. split; ring.
  - intros Hle. unfold recompute_samples_stats.
    set (g := batch_size args * world_size args).
    assert (0 < g) by (unfold g; nia).
    destruct (true_div_bounded num_samples g 1023 Hn ltac:(lia) ltac:(lia) Hle)
      as (f1 & -> & Hfl & Hce). cbn [bind].
    rewrite Z.max_r by lia.
    assert (Hr : 0 <= round_fn floor f1 <= 2 ^ 1023) by (destruct floor; assumption).
    destruct (Z.eq_dec (round_fn floor f1) 0) as [->|Hnz].
    + rewrite true_div_zero by lia. cbn [bind]. eauto.
    + destruct (true_div_bounded (round_fn floor f1) (workers args) 1023
                  ltac:(lia) Hk ltac:(lia) ltac:(lia)) as (f2 & -> & _).
      cbn [bind]. eauto.
Qed.

(** C10, as stated, fails where a double cannot hold the count: above
    [2^53] the float quotient is rounded before [math.ceil] or [math.floor]
    sees it, so rounding up can lose a sample and rounding down can gain
    one. *)
Lemma recompute_rounding_not_monotone :
  recompute_samples_stats unit_args false (2 ^ 53 + 1)
    = Ok (2 ^ 53, 2 ^ 53, 2 ^ 53)
  /\ 2 ^ 53 < 2 ^ 53 + 1
  /\ recompute_samples_stats unit_args true (2 ^ 53 + 3)
    = Ok (2 ^ 53 + 4, 2 ^ 53 + 4, 2 ^ 53 + 4)
  /\ 2 ^ 53 + 3 < 2 ^ 53 + 4.
Proof. vm_compute. repeat split. Qed.

(** C10, amended. For positive batch size, world size and worker count and
    a positive sample count below [2^53] (global batch and worker count
    below [2^1075]), the counts are returned, and the recomputed total is at
    least the supplied count with ceil rounding and at most the supplied
    count with floor rounding. *)
Theorem recompute_rounding_monotone (args : Args) (num_samples : Z) :
  0 < batch_size args -> 0 < world_size args -> 0 < workers args ->
  0 < num_samples < 2 ^ 53 ->
  batch_size args * world_size args < 2 ^ 1075 -> workers args < 2 ^ 1075 ->
  (exists ns nb nwb,
      recompute_samples_stats args false num_samples = Ok (ns, nb, nwb) /\
      num_samples <= ns)
  /\ (exists ns nb nwb,
      recompute_samples_stats args true num_samples = Ok (ns, nb, nwb) /\
      ns <= num_samples).
Proof.
  intros Hb Hw Hk Hn Hg Hk'.
  rewrite !recompute_refines_spec by assumption.
  unfold spec_counts. set (g := batch_size args * world_size args) in *.
  assert (0 < g) by (unfold g; nia).
  split; do 3 eexists; (split; [reflexivity|]); cbn [ceil_or_floor].
  - pose proof (ceil_div_bounds num_samples g ltac:(lia) ltac:(lia)) as [H1 H1'].
    assert (0 <= - (- num_samples / g)).
    { enough (- num_samples / g <= 0) by lia. apply Z.div_le_upper_bound; lia. }
    pose proof (ceil_div_bounds (- (- num_samples / g)) (workers args)
                  ltac:(lia) ltac:(lia)) as [H2 _].
    nia.
  - pose proof (floor_div_bounds num_samples g ltac:(lia) ltac:(lia)) as [H1 H1'].
    pose proof (floor_div_bounds (num_samples / g) (workers args)
                  ltac:(lia) ltac:(lia)) as [H2 H2'].
    nia.
Qed.

Example scenario_counts :
  recompute_samples_stats scenario_args false 8 = Ok (8, 4, 2).
Proof. vm_compute. reflexivity. Qed.

Lemma recompute_counts_consistent_witness :
  (0 < batch_size scenario_args /\ 0 < world_size scenario_args /\
   0 < workers scenario_args /\ 0 < 8) /\
  (forall ns nb nwb,
      recompute_samples_stats scenario_args false 8 = Ok (ns, nb, nwb) ->
      nwb * workers scenario_args * batch_size scenario_args
        * world_size scenario_args = ns /\
      nb = nwb * workers scenario_args) /\
  (8 <= 2 ^ 1023 ->
   exists ns nb nwb, recompute_samples_stats scenario_args false 8 = Ok (ns, nb, nwb)).
Proof.
  split; [cbn; lia|].
  apply (recompute_counts_consistent scenario_args false 8); cbn; lia.
Defined.

Lemma recompute_rounding_monotone_witness :
  (0 < batch_size scenario_args /\ 0 < world_size scenario_args /\
   0 < workers scenario_args /\ 0 < 9 < 2 ^ 53 /\
   batch_size scenario_args * world_size scenario_args < 2 ^ 1075 /\
   workers scenario_args < 2 ^ 1075) /\
  (exists ns nb nwb,
      recompute_samples_stats scenario_args false 9 = Ok (ns, nb, nwb) /\ 9 <= ns) /\
  (exists ns nb nwb,
      recompute_samples_stats scenario_args true 9 = Ok (ns, nb, nwb) /\ ns <= 9).
Proof.
  split; [cbn; lia|].
  apply (recompute_rounding_monotone scenario_args 9); cbn; lia.
Defined.

End DriverFacts.

(* ===================================================================== *)
(** ** The deterministic shuffle *)

Module ShuffleFacts.
Import Shuffle ShuffleSpec.

Lemma list_set_last {A : Type} (pre : list A) (x v : A) (post : list A) :
  list_set (pre ++ x :: post) (length pre) v = pre ++ v :: post.
Proof. induction pre as [|h t IH]; cbn; [reflexivity|now rewrite IH]. Qed.

Lemma last_error_snoc {A : Type} (l : list A) (z : A) :
  last_error (l ++ [z]) = Some z.
Proof.
  unfold last_error. rewrite length_app; cbn.
  replace (length l + 1 - 1)%nat with (length l) by lia.
  rewrite nth_error_app2 by lia. now rewrite Nat.sub_diag.
Qed.

(** Taking position [k] out by moving the last element into it removes
    exactly the element at [k]. *)
Lemma swap_remove_perm {A : Type} (buf : list A) (k : nat) (x l : A) :
  nth_error buf k = Some x -> last_error buf = Some l ->
  Permutation buf (x :: removelast (list_set buf k l)) /\
  length buf = S (length (removelast (list_set buf k l))).
Proof.
  intros Hk Hl.
  destruct (nth_error_split buf k Hk) as (pre & post & -> & <-).
  rewrite list_set_last.
  destruct (exists_last (l := x :: post) ltac:(discriminate)) as (mid & z & Hz).
  assert (l = z) as ->.
  { rewrite Hz, app_assoc, last_error_snoc in Hl. congruence. }
  destruct mid as [|m mid]; cbn in Hz.
  - injection Hz as -> ->.
    replace (pre ++ [z]) with (pre ++ [z]) by reflexivity.
    rewrite removelast_last. split.
    + symmetry. apply Permutation_cons_append.
    + rewrite length_app; cbn; lia.
  - injection Hz as -> ->.
    replace (pre ++ z :: mid ++ [z]) with ((pre ++ z :: mid) ++ [z])
      by (rewrite <- app_assoc; reflexivity).
    rewrite removelast_last. split.
    + replace (pre ++ m :: mid ++ [z]) with ((pre ++ m :: mid) ++ [z])
        by (rewrite <- app_assoc; reflexivity).
      rewrite <- Permutation_cons_append.
      rewrite <- !Permutation_middle.
      apply perm_swap.
    + rewrite !length_app; cbn. rewrite length_app; cbn. lia.
Qed.

Section WithRandom.
Context {PR : PyRandom} {A : Type}.

Lemma pick_perm (buf : list A) (r : rng) (x : A) (buf' : list A) (r' : rng) :
  pick buf r = Ok (x, buf', r') ->
  Permutation buf (x :: buf') /\ length buf = S (length buf').
Proof.
  unfold pick, Random.randint.
  destruct (Z.of_nat (length buf) - 1 <? 0); cbn [bind]; [discriminate|].
  destruct (randbelow r _) as [k r0]; cbn [bind].
  destruct (nth_error buf _) as [s|] eqn:Hs; [|discriminate].
  destruct (last_error buf) as [l|] eqn:Hl; [|discriminate].
  intros [= <- <- <-]. eapply swap_remove_perm; eassumption.
Qed.

(** On a buffer that is not empty [pick] does not fail. *)
Lemma pick_total (buf : list A) (r : rng) :
  buf <> [] -> exists x buf' r', pick buf r = Ok (x, buf', r').
Proof.
  intros Hne. unfold pick, Random.randint.
  assert (Hlen : (0 < length buf)%nat) by (destruct buf; cbn; [congruence|lia]).
  replace (Z.of_nat (length buf) - 1 <? 0) with false
    by (symmetry; apply Z.ltb_ge; lia).
  pose proof (randbelow_range r (Z.of_nat (length buf) - 1 - 0 + 1) ltac:(lia)) as Hk.
  destruct (randbelow r _) as [k r0]; cbn [bind fst] in *.
  destruct (nth_error buf (Z.to_nat (0 + k))) as [s|] eqn:Hs.
  2:{ apply nth_error_None in Hs. lia. }
  destruct (last_error buf) as [l|] eqn:Hl.
  2:{ apply nth_error_None in Hl. lia. }
  eauto.
Qed.

Lemma drain_ok (bufsize threshold : Z) (fuel : nat) (buf : list A) (r : rng) :
  (length buf <= fuel)%nat ->
  Z.of_nat (length buf) <= Z.max 1 bufsize ->
  run_ok bufsize threshold (drain fuel buf r) buf.
Proof.
  revert buf r. induction fuel as [|fuel IH]; intros buf r Hf Hb.
  - destruct buf; [|cbn in Hf; lia]. repeat split; cbn; auto.
  - destruct buf as [|a buf0]; [repeat split; cbn; auto|].
    cbn [drain].
    destruct (pick_total (a :: buf0) r ltac:(discriminate)) as (x & buf' & r' & Hp).
    rewrite Hp. destruct (pick_perm _ _ _ _ _ Hp) as [Hperm Hlen].
    destruct (IH buf' r' ltac:(cbn in *; lia) ltac:(cbn in *; lia))
      as (He & Hev & Hy).
    repeat split; cbn [emit fst snd]; auto.
    + constructor; [|assumption]. split; [assumption|exact I].
    + unfold yields in *. cbn [fst flat_map yielded_of app].
      apply Permutation_trans with (x :: buf'); [now constructor|].
      symmetry; exact Hperm.
Qed.

Lemma yield_if_ready_ok (bufsize threshold : Z) (buf rest : list A) (r : rng)
    (k : list A -> rng -> gen) :
  buf <> [] -> threshold <= bufsize ->
  Z.of_nat (length buf) <= Z.max 1 bufsize ->
  (forall b r', Z.of_nat (length b) < Z.max 1 bufsize ->
                run_ok bufsize threshold (k b r') (b ++ rest)) ->
  run_ok bufsize threshold (yield_if_ready threshold buf r k) (buf ++ rest).
Proof.
  intros Hne Hth Hb Hk. unfold yield_if_ready.
  destruct (threshold <=? Z.of_nat (length buf)) eqn:E.
  - apply Z.leb_le in E.
    destruct (pick_total buf r Hne) as (x & buf' & r' & Hp).
    rewrite Hp. destruct (pick_perm _ _ _ _ _ Hp) as [Hperm Hlen].
    destruct (Hk buf' r' ltac:(lia)) as (He & Hev & Hy).
    repeat split; cbn [emit fst snd]; auto.
    + constructor; [|assumption]. split; assumption.
    + unfold yields in *. cbn [fst flat_map yielded_of app].
      apply Permutation_trans with ((x :: buf') ++ rest); [cbn; now constructor|].
      apply Permutation_app_tail. symmetry; exact Hperm.
  - apply Z.leb_gt in E.
    destruct (Hk buf r ltac:(lia)) as (He & Hev & Hy).
    repeat split; cbn [emit fst snd]; auto.
    constructor; [|assumption]. split; assumption.
Qed.

Lemma fill_ok (bufsize threshold : Z) (n : nat) :
  threshold <= bufsize ->
  forall (data buf : list A) (r : rng),
    (length data <= n)%nat ->
    Z.of_nat (length buf) < Z.max 1 bufsize ->
    run_ok bufsize threshold (fill bufsize threshold data buf r) (buf ++ data).
Proof.
  intros Hth. induction n as [n IH] using (well_founded_induction lt_wf).
  intros data buf r Hn Hb.
  destruct data as [|sample rest]; cbn [fill].
  - rewrite app_nil_r. apply drain_ok; lia.
  - assert (Hlen1 : length (buf ++ [sample]) = S (length buf))
      by (rewrite length_app; cbn; lia).
    assert (Hne1 : buf ++ [sample] <> []) by (destruct buf; discriminate).
    destruct (Z.of_nat (length (buf ++ [sample])) <? bufsize) eqn:E.
    + apply Z.ltb_lt in E. destruct rest as [|extra rest'].
      * replace (buf ++ [sample]) with ((buf ++ [sample]) ++ []) at 2
          by apply app_nil_r.
        apply yield_if_ready_ok; try assumption; try lia.
        intros b r' Hb'. rewrite app_nil_r. apply drain_ok; lia.
      * replace (buf ++ sample :: extra :: rest')
          with (((buf ++ [sample]) ++ [extra]) ++ rest')
          by (rewrite <- !app_assoc; reflexivity).
        apply yield_if_ready_ok; try assumption.
        -- destruct (buf ++ [sample]); discriminate.
        -- rewrite length_app; cbn; lia.
        -- intros b r' Hb'.
           apply (IH (length rest')); [cbn in Hn; lia|lia|assumption].
    + apply Z.ltb_ge in E.
      replace (buf ++ sample :: rest) with ((buf ++ [sample]) ++ rest)
        by (rewrite <- app_assoc; reflexivity).
      apply yield_if_ready_ok; try assumption; try lia.
      intros b r' Hb'.
      apply (IH (length rest)); [cbn in Hn; lia|lia|assumption].
Qed.

Lemma shuffle_ok (data : list A) (bufsize initial : Z) (r : rng) :
  run_ok bufsize (Z.min initial bufsize) (_shuffle data bufsize initial r) data.
Proof.
  unfold _shuffle. apply (fill_ok bufsize (Z.min initial bufsize) (length data));
    cbn; lia.
Qed.

(** C2. For every seed [>= 0] and every value of the shared epoch cell, two
    independent runs of [detshuffle2] over the same finite input (whatever
    state each fresh generator starts in, whatever the worker seeds) make the
    same generator run, the one seeded with [seed + epoch], and leave the
    stage unchanged; the run ends normally, its buffer never holds more than
    [bufsize] elements ([1] when [bufsize < 1]), the [for] loop yields exactly
    when at least [initial] elements are buffered ([bufsize] when [initial]
    exceeds it), and by the end every input element has been yielded once. *)
Theorem detshuffle2_deterministic
    (cell1 cell2 : Epoch.SharedEpoch) (self : detshuffle2)
    (entropy1 entropy2 : rng) (worker_seed1 worker_seed2 : Z) (src : list A) :
  0 <= ds_seed self ->
  ds_epoch self = Epoch.Shared ->
  Epoch.get_value cell1 = Epoch.get_value cell2 ->
  let g1 := fst (run cell1 self entropy1 worker_seed1 src) in
  let g2 := fst (run cell2 self entropy2 worker_seed2 src) in
  g1 = g2 /\ yields g1 = yields g2 /\
  g1 = _shuffle src (bufsize self) (initial self)
         (rng_seed (ds_seed self + Epoch.get_value cell1)) /\
  snd (run cell1 self entropy1 worker_seed1 src) = self /\
  snd g1 = None /\
  Forall (event_ok (bufsize self) (Z.min (initial self) (bufsize self))) (fst g1) /\
  Permutation (yields g1) src.
Proof.
  intros Hseed Hattr Hcell g1 g2.
  assert (E1 : run cell1 self entropy1 worker_seed1 src =
               (_shuffle src (bufsize self) (initial self)
                  (rng_seed (ds_seed self + Epoch.get_value cell1)), self)).
  { unfold run. rewrite Hattr. cbn.
    replace (ds_seed self <? 0) with false by (symmetry; apply Z.ltb_ge; lia).
    destruct self; cbn in *; subst; reflexivity. }
  assert (E2 : run cell2 self entropy2 worker_seed2 src =
               (_shuffle src (bufsize self) (initial self)
                  (rng_seed (ds_seed self + Epoch.get_value cell2)), self)).
  { unfold run. rewrite Hattr. cbn.
    replace (ds_seed self <? 0) with false by (symmetry; apply Z.ltb_ge; lia).
    destruct self; cbn in *; subst; reflexivity. }
  subst g1 g2. rewrite E1, E2, Hcell. cbn [fst snd].
  destruct (shuffle_ok src (bufsize self) (initial self)
              (rng_seed (ds_seed self + Epoch.get_value cell2))) as (He & Hev & Hp).
  repeat split; assumption.
Qed.

End WithRandom.

Example shuffle_run :
  yields (fst (run (Epoch.new 3) example_detshuffle2 (7 : @rng Lcg) 0
                 [10; 20; 30; 40; 50; 60]))
  = [10; 30; 40; 20; 60; 50].
Proof. vm_compute. reflexivity. Qed.

Lemma detshuffle2_deterministic_witness :
  (0 <= ds_seed example_detshuffle2 /\
   ds_epoch example_detshuffle2 = Epoch.Shared /\
   Epoch.get_value (Epoch.new 3) = Epoch.get_value (Epoch.set_value (Epoch.new 0) 3)) /\
  yields (fst (run (Epoch.new 3) example_detshuffle2 (7 : @rng Lcg) 0
                 [10; 20; 30; 40; 50; 60]))
  = yields (fst (run (Epoch.set_value (Epoch.new 0) 3) example_detshuffle2
                   (8 : @rng Lcg) 5 [10; 20; 30; 40; 50; 60])).
Proof.
  split; [repeat split; cbn; lia|].
  apply (detshuffle2_deterministic (Epoch.new 3) (Epoch.set_value (Epoch.new 0) 3)
           example_detshuffle2 (7 : @rng Lcg) (8 : @rng Lcg) 0 5
           [10; 20; 30; 40; 50; 60]); [cbn; lia|reflexivity|reflexivity].
Defined.

End ShuffleFacts.

(* ===================================================================== *)
(** ** The resampling shard source *)

Module ResampledFacts.
Import Resampled.

Section WithRandom.
Context {PR : PyRandom}.

Lemma choice_total {A : Type} (r : rng) (seq : list A) :
  seq <> [] -> exists x r', Random.choice r seq = Ok (x, r') /\ In x seq.
Proof.
  intros Hne. unfold Random.choice. destruct seq as [|a t]; [congruence|].
  pose proof (randbelow_range r (Z.of_nat (length (a :: t))) ltac:(cbn; lia)) as Hk.
  destruct (randbelow r _) as [k r']; cbn [fst] in Hk.
  destruct (nth_error (a :: t) (Z.to_nat k)) as [x|] eqn:E.
  - exists x, r'. split; [reflexivity|]. eapply nth_error_In; eassumption.
  - apply nth_error_None in E. lia.
Qed.

(** Every draw is made from the whole list: [n] draws give [n] identifiers,
    each one of the list, and the list is never consumed. *)
Lemma draws_total (us : list string) (n : nat) (r : rng) :
  us <> [] ->
  snd (fst (draws n us r)) = None /\
  length (fst (fst (draws n us r))) = n /\
  Forall (fun u => In u us) (fst (fst (draws n us r))).
Proof.
  intros Hne. revert r. induction n as [|n IH]; intros r; cbn [draws].
  - repeat split; constructor.
  - destruct (choice_total r us Hne) as (u & r' & -> & Hin).
    specialize (IH r'). destruct (draws n us r') as [[out e] r''].
    cbn [fst snd] in *. destruct IH as (He & Hl & Hf).
    repeat split; cbn; auto.
Qed.

Lemma init_inv (expanded : list string) (n : Z) (entropy : rng)
    (det : bool) (attr : Epoch.epoch_attr) (self : ResampledShards2) :
  init expanded n entropy det attr = Ok self ->
  self = mk_ResampledShards2 expanded n entropy det attr /\ expanded <> [].
Proof.
  unfold init. destruct expanded; [discriminate|].
  intros [= <-]. split; [reflexivity|discriminate].
Qed.

(** C3. A resampled, deterministic shard source on the shared epoch cell:
    one iteration yields exactly [nshards] shard identifiers, each drawn from
    the whole list (with replacement), and the sequence is the one the
    generator seeded with [worker_seed + epoch] produces: iterating the same
    object again during the same epoch with the same seed, or another object
    built with the same arguments from another generator state, yields the
    identical sequence. *)
Theorem resampled_deterministic
    (cell : Epoch.SharedEpoch) (expanded : list string) (n : Z)
    (entropy entropy' : rng) (worker_seed : Z) (self self' : ResampledShards2) :
  init expanded n entropy true Epoch.Shared = Ok self ->
  init expanded n entropy' true Epoch.Shared = Ok self' ->
  let first := iter cell self worker_seed in
  let again := iter cell (snd first) worker_seed in
  let other := iter cell self' worker_seed in
  fst first = fst again /\ fst first = fst other /\
  fst first =
    fst (draws (Z.to_nat n) expanded
           (rng_seed (worker_seed + Epoch.get_value cell))) /\
  snd (fst first) = None /\
  length (fst (fst first)) = Z.to_nat n /\
  Forall (fun u => In u expanded) (fst (fst first)).
Proof.
  intros H1 H2.
  apply init_inv in H1 as [-> Hne]. apply init_inv in H2 as [-> _].
  unfold iter; cbn.
  pose proof (draws_total expanded (Z.to_nat n)
                (rng_seed (worker_seed + Epoch.get_value cell)) Hne)
    as (He & Hl & Hf).
  destruct (draws (Z.to_nat n) expanded
              (rng_seed (worker_seed + Epoch.get_value cell)))
    as [[out e] r'] eqn:E.
  cbn. rewrite E. cbn in *. repeat split; assumption.
Qed.

End WithRandom.

Example resampled_run :
  fst (fst (iter (Epoch.new 1) (example_source 7) 11))
  = ["s0.tar"; "s2.tar"; "s1.tar"; "s1.tar"; "s2.tar"]%string.
Proof. vm_compute. reflexivity. Qed.

Lemma resampled_deterministic_witness :
  (init (PR := Lcg) example_urls 5 7 true Epoch.Shared = Ok (example_source 7) /\
   init (PR := Lcg) example_urls 5 8 true Epoch.Shared = Ok (example_source 8)) /\
  fst (iter (Epoch.new 1) (example_source 7) 11)
  = fst (iter (Epoch.new 1) (snd (iter (Epoch.new 1) (example_source 7) 11)) 11) /\
  fst (iter (Epoch.new 1) (example_source 7) 11)
  = fst (iter (Epoch.new 1) (example_source 8) 11).
Proof.
  split; [split; reflexivity|].
  pose proof (resampled_deterministic (PR := Lcg) (Epoch.new 1) example_urls 5 7 8 11
                (example_source 7) (example_source 8) eq_refl eq_refl) as H.
  split; [exact (proj1 H)|exact (proj1 (proj2 H))].
Defined.

End ResampledFacts.

(* ===================================================================== *)
(** ** Grouping *)

Module GrouperFacts.
Import Grouper GrouperSpec.

Example base_plus_ext_jpg : base_plus_ext "a.jpg" = Some ("a", "jpg")%string.
Proof. reflexivity. Qed.

Example base_plus_ext_dirs :
  base_plus_ext "x/y.tar/b.c.jpg" = Some ("x/y.tar/b", "c.jpg")%string.
Proof. reflexivity. Qed.

Example base_plus_ext_none : base_plus_ext "noext" = None.
Proof. reflexivity. Qed.

Lemma group_example (img img2 shard : string) :
  group_by_keys_nothrow (example_stream img img2 shard) base_plus_ext true None
  = [group_a img shard; group_b img2 shard].
Proof. reflexivity. Qed.

(** C4, as stated, fails: on the stream of the claim the grouper yields
    two samples, not one; the second is the group with prefix [b], which
    holds one field and is flushed when the stream ends. *)
Lemma grouper_yields_incomplete_group :
  let out := group_by_keys_nothrow (example_stream "img" "img2" "s.tar")
               base_plus_ext true None in
  length out <> 1%nat /\ In (group_b "img2" "s.tar") out.
Proof.
  rewrite group_example. cbn. split; [discriminate|].
  right; left; reflexivity.
Qed.

(** C4, amended. Fed the stream of the claim, the grouper yields two
    samples: the complete group for prefix [a] with its [jpg] and [txt]
    fields, then, at the end of the stream, the group for prefix [b] with
    its single [jpg] field.  The incomplete group is dropped one stage
    later, in the image-caption pipeline, by [filter_no_caption_or_no_image],
    which lets only the group for [a] through. *)
Theorem grouper_example_two_groups (img img2 shard : string) :
  let out := group_by_keys_nothrow (example_stream img img2 shard)
               base_plus_ext true None in
  out = [group_a img shard; group_b img2 shard] /\
  filter filter_no_caption_or_no_image out = [group_a img shard].
Proof. split; reflexivity. Qed.

End GrouperFacts.

(* ===================================================================== *)
(** ** Dataset size *)

Module ShardStatsFacts.
Import ShardStats ShardStatsSpec.

(** The size files decide nothing: [get_shard_stats] succeeds exactly on
    an explicit, non-zero [train_num_samples], and returns that. *)
Lemma get_shard_stats_hint_only (braceexpand : string -> list string)
    (fs : filesystem) (args : Args) (input_shards : string) :
  get_shard_stats braceexpand fs args input_shards =
  match train_num_samples args with
  | Some n => if n =? 0 then Raise (RuntimeError no_size_message)
              else Ok (n, Z.of_nat (length (braceexpand input_shards)))
  | None => Raise (RuntimeError no_size_message)
  end.
Proof.
  unfold get_shard_stats, get_dataset_size. cbn.
  destruct (train_num_samples args) as [n|]; cbn; [|reflexivity].
  destruct (n =? 0); reflexivity.
Qed.

(** C5 at the failing input: a [sizes.json] next to the shards gives the
    total, 250, and [get_dataset_size] computes it; [get_shard_stats] throws
    it away and, without [train_num_samples], raises. *)
Theorem get_shard_stats_ignores_sizes_file :
  get_dataset_size example_braceexpand example_fs example_shards = (Some 250, 2) /\
  get_shard_stats example_braceexpand example_fs no_hint_args example_shards
    = Raise (RuntimeError no_size_message).
Proof. split; reflexivity. Qed.

End ShardStatsFacts.

(* ===================================================================== *)
(** ** Stages *)

Module StagesFacts.
Import Stages StagesSpec.

(** Under [log_and_continue] a sample on which [f] raises is skipped and
    the stage goes on: it yields the results of all the other samples, in
    order, and ends the way its input ends. *)
Lemma map_log_and_continue {A B : Type} (f : A -> result B)
    (data : list A) (tail : option exn) :
  _map f log_and_continue data tail = (successes f data, tail).
Proof.
  induction data as [|x rest IH]; cbn; [reflexivity|].
  destruct (f x); cbn; rewrite IH; reflexivity.
Qed.

Lemma map_items_from {A B : Type} (f : A -> result B) (h : handler)
    (data : list A) (tail : option exn) :
  Forall (fun y => exists x, In x data /\ f x = Ok y) (fst (_map f h data tail)).
Proof.
  induction data as [|x rest IH]; cbn; [constructor|].
  destruct (f x) as [y|e] eqn:E.
  - cbn. constructor; [eauto|].
    eapply Forall_impl; [|exact IH]. cbn. intros y' (x' & Hin & Hf); eauto.
  - destruct (h e) as [[|]|]; cbn; try constructor.
    eapply Forall_impl; [|exact IH]. cbn. intros y' (x' & Hin & Hf); eauto.
Qed.

(** Every batch is full. *)
Lemma batched_full {A : Type} (batchsize : Z) (data : list A)
    (tail : option exn) (batch : list A) :
  0 < batchsize -> Z.of_nat (length batch) <= batchsize ->
  Forall (fun b => Z.of_nat (length b) = batchsize)
         (fst (_batched batchsize false data tail batch)).
Proof.
  intros Hbs. revert batch. induction data as [|x rest IH]; intros batch Hb; cbn.
  - destruct tail; cbn; [constructor|].
    destruct (Nat.eqb (length batch) 0); cbn; [constructor|].
    rewrite orb_false_r.
    destruct (Z.of_nat (length batch) =? batchsize) eqn:E; cbn; constructor.
    + now apply Z.eqb_eq.
    + constructor.
  - destruct (batchsize <=? Z.of_nat (length batch)) eqn:E.
    + apply Z.leb_le in E. cbn. constructor; [lia|].
      apply IH. cbn. lia.
    + apply Z.leb_gt in E. apply IH. rewrite length_app; cbn. lia.
Qed.

(** The batches are the input cut in order; what is left over at the end
    is shorter than a batch and is not emitted. *)
Lemma batched_remainder {A : Type} (batchsize : Z) (data : list A)
    (batch : list A) :
  0 < batchsize -> Z.of_nat (length batch) <= batchsize ->
  snd (_batched batchsize false data None batch) = None /\
  exists leftover,
    batch ++ data = concat (fst (_batched batchsize false data None batch)) ++ leftover
    /\ Z.of_nat (length leftover) < batchsize.
Proof.
  intros Hbs. revert batch. induction data as [|x rest IH]; intros batch Hb; cbn.
  - destruct (Nat.eqb (length batch) 0) eqn:E0; cbn.
    + apply Nat.eqb_eq in E0. split; [reflexivity|].
      exists []. destruct batch; [|discriminate]. cbn. split; [reflexivity|lia].
    + rewrite orb_false_r.
      destruct (Z.of_nat (length batch) =? batchsize) eqn:E; cbn.
      * split; [reflexivity|]. exists []. rewrite !app_nil_r. split; [reflexivity|cbn; lia].
      * apply Z.eqb_neq in E. split; [reflexivity|].
        exists batch. rewrite app_nil_r. split; [reflexivity|lia].
  - destruct (batchsize <=? Z.of_nat (length batch)) eqn:E.
    + apply Z.leb_le in E.
      destruct (IH [x] ltac:(cbn; lia)) as (He & leftover & Hc & Hl).
      cbn. split; [assumption|]. exists leftover.
      rewrite <- app_assoc, <- Hc. split; [reflexivity|assumption].
    + apply Z.leb_gt in E.
      destruct (IH (batch ++ [x]) ltac:(rewrite length_app; cbn; lia))
        as (He & leftover & Hc & Hl).
      split; [assumption|]. exists leftover.
      rewrite <- Hc, <- app_assoc. split; [reflexivity|assumption].
Qed.

End StagesFacts.

(* ===================================================================== *)
(** ** The batches of the three pipelines *)

Module PipelinesFacts.
Import Stages StagesSpec StagesFacts Pipelines.

Lemma map_items_forall {A B : Type} (f : A -> result B) (h : handler)
    (data : list A) (tail : option exn) (Q : A -> Prop) (P : B -> Prop) :
  Forall Q data -> (forall x y, Q x -> f x = Ok y -> P y) ->
  Forall P (fst (_map f h data tail)).
Proof.
  intros HQ HP. rewrite Forall_forall in HQ.
  eapply Forall_impl; [|apply map_items_from].
  cbn. intros y (x & Hin & Hf). eauto.
Qed.

Lemma pictures_of_length (l : list Grouper.value) (ims : list Pil.image) :
  pictures_of l = Ok ims -> length ims = length l.
Proof.
  revert ims. induction l as [|v t IH]; intros ims; cbn.
  - intros [= <-]. reflexivity.
  - destruct v; try discriminate.
    destruct (pictures_of t) as [rest|]; cbn; [|discriminate].
    intros [= <-]. cbn. now rewrite (IH rest).
Qed.

Lemma captions_of_length (l : list Grouper.value) (caps : list Text.str) :
  captions_of l = Ok caps -> length caps = length l.
Proof.
  revert caps. induction l as [|v t IH]; intros caps; cbn.
  - intros [= <-]. reflexivity.
  - destruct v; try discriminate.
    destruct (captions_of t) as [rest|]; cbn; [|discriminate].
    intros [= <-]. cbn. now rewrite (IH rest).
Qed.

(** The tensors made from a batch have one row per sample of the batch. *)
Lemma map_tuple_fn_rows (tokenizer : Text.Tokenizer)
    (batch : list (Grouper.value * Grouper.value))
    (slots : list Interleaved.slot) (ids mask : list (list Z)) :
  map_tuple_fn tokenizer batch = Ok (slots, (ids, mask)) ->
  length slots = length batch /\ length ids = length batch /\
  length mask = length batch.
Proof.
  unfold map_tuple_fn.
  destruct (pictures_of _) as [ims|] eqn:Ei; cbn; [|discriminate].
  destruct (captions_of _) as [caps|] eqn:Ec; cbn; [|discriminate].
  apply pictures_of_length in Ei. apply captions_of_length in Ec.
  rewrite length_map in Ei, Ec.
  unfold Paired.preprocess_image, Paired.preprocess_text.
  intros [= <- <- <-]. rewrite !length_map. auto.
Qed.

(** C9. With a positive batch size, every batch the three pipelines emit
    holds exactly [batch_size] samples, for every input stream and however
    it ends; when a stream of accepted samples is exhausted, the batches are
    the stream cut in order and the remainder, shorter than a batch, is not
    emitted. *)
Theorem batches_are_full (args : Args) (g : gen Grouper.sample) :
  0 < batch_size args ->
  (forall (Out : Type) (repr : list string -> string)
          (preprocess_json_fn : Grouper.value -> result Out),
      Forall (fun b => Z.of_nat (length b) = batch_size args)
        (items (add_interleaved_data_processing_step repr preprocess_json_fn
                  args g)))
  /\ (forall (Out : Type) (repr : list string -> string)
             (preprocess_fn : Grouper.value -> result Out),
      Forall (fun b => Z.of_nat (length b) = batch_size args)
        (items (pile_stages repr preprocess_fn args g)))
  /\ (forall repr decode tokenizer,
      Forall (fun b => Z.of_nat (length (fst b)) = batch_size args /\
                       Z.of_nat (length (fst (snd b))) = batch_size args /\
                       Z.of_nat (length (snd (snd b))) = batch_size args)
        (items (image_text_stages repr decode tokenizer args g)))
  /\ (forall (A : Type) (accepted : list A),
      escaped (batched (batch_size args) false (accepted, None)) = None /\
      exists leftover,
        accepted =
          concat (items (batched (batch_size args) false (accepted, None)))
          ++ leftover
        /\ Z.of_nat (length leftover) < batch_size args).
Proof.
  intros Hbs. repeat split.
  - intros Out repr f. unfold add_interleaved_data_processing_step, batched, items.
    apply batched_full; [assumption|cbn; lia].
  - intros Out repr f. unfold pile_stages, batched, items.
    apply batched_full; [assumption|cbn; lia].
  - intros repr decode tokenizer. unfold image_text_stages, map, items.
    eapply map_items_forall.
    + unfold batched. apply batched_full; [assumption|cbn; lia].
    + cbn. intros b [slots [ids mask]] Hb Hf.
      apply map_tuple_fn_rows in Hf. cbn. lia.
  - unfold batched, items, escaped; cbn [fst snd].
    apply (batched_remainder (batch_size args) accepted []); [assumption|cbn; lia].
  - unfold batched, items, escaped; cbn [fst snd].
    destruct (batched_remainder (batch_size args) accepted [] Hbs ltac:(cbn; lia))
      as (_ & leftover & Hc & Hl).
    exists leftover. split; assumption.
Qed.

Lemma batches_are_full_witness :
  0 < batch_size scenario_args /\
  Forall (fun b => Z.of_nat (length b) = batch_size scenario_args)
    (items (pile_stages plain_repr keep_text scenario_args
              (five_txt_samples, None))) /\
  length (items (pile_stages plain_repr keep_text scenario_args
                   (five_txt_samples, None)))
    = 2%nat.
Proof.
  split; [cbn; lia|]. split.
  - apply (batches_are_full scenario_args (five_txt_samples, None)
             ltac:(cbn; lia)).
  - vm_compute. reflexivity.
Defined.

End PipelinesFacts.

(* ===================================================================== *)
(** ** The interleaved preprocessor *)

Module InterleavedFacts.
Import Interleaved InterleavedSpec.

Example seven_pictures_keep_five :
  option_map fst
    (match preprocess_interleaved_sample UnicodeSpec.latin1_isalnum example_parse example_tokenizer seven_pictures
     with Ok r => Some r | Raise _ => None end)
  = Some [Pixels (photo 1); Pixels (photo 2); Pixels (photo 3);
          Pixels (photo 4); Pixels (photo 5)].
Proof. vm_compute. reflexivity. Qed.

Example icons_only_rejected :
  preprocess_interleaved_sample UnicodeSpec.latin1_isalnum example_parse example_tokenizer icons_only
  = Raise (ValueError "No images in sample").
Proof. vm_compute. reflexivity. Qed.

Section WithParse.
Variable isalnum : Z -> bool.
Variable parse_image : Text.str -> result image.
Variable text_tokenizer : Text.Tokenizer.

Local Arguments Z.add : simpl never.
Local Arguments Z.sub : simpl never.
Local Arguments Z.to_nat : simpl never.
Local Arguments Z.of_nat : simpl never.

Lemma firstn_to_nat_succ {A : Type} (n0 : Z) (x : A) (l : list A) :
  0 <= n0 -> n0 < 5 ->
  firstn (Z.to_nat (5 - n0)) (x :: l) = x :: firstn (Z.to_nat (5 - (n0 + 1))) l.
Proof.
  intros H0 H5. replace (Z.to_nat (5 - n0)) with (S (Z.to_nat (5 - (n0 + 1)))) by lia.
  reflexivity.
Qed.

Lemma firstn_to_nat_done {A : Type} (n0 : Z) (l : list A) :
  5 <= n0 -> firstn (Z.to_nat (5 - n0)) l = [].
Proof. intros H. replace (Z.to_nat (5 - n0)) with 0%nat by lia. reflexivity. Qed.

(** [remove_unwanted_images] counts every picture that passes the icon
    filter and keeps the first five of them, each under a set flag; every
    other entry ends up as text under a cleared flag. *)
Lemma remove_unwanted_images_from_spec (il : list Text.str) :
  forall (fl : list Z) (n0 : Z),
    0 <= n0 -> all_decode parse_image il fl = true ->
    exists il' fl',
      remove_unwanted_images_from parse_image n0 il fl
        = Ok (n0 + Z.of_nat (length (wanted_images parse_image il fl)), il', fl')
      /\ flags_agree il' fl'
      /\ pictures il' fl'
         = firstn (Z.to_nat (5 - n0)) (wanted_images parse_image il fl).
Proof.
  induction il as [|x il IH]; intros fl n0 Hn0 Hdec.
  - cbn. exists [], fl. rewrite Z.add_0_r, firstn_nil. repeat split.
  - destruct fl as [|f fl].
    + cbn. eexists _, []. rewrite Z.add_0_r, firstn_nil. repeat split.
    + cbn in Hdec |- *. destruct (flag_set f) eqn:Ef.
      * destruct (parse_image x) as [im|] eqn:Ep; [|discriminate].
        cbn in Hdec |- *. destruct (is_unwanted_image im) eqn:Eu; cbn.
        -- destruct (IH fl n0 Hn0 Hdec) as (il' & fl' & -> & Hag & Hpic).
           cbn. exists (Text [] :: il'), (0 :: fl'). repeat split; assumption.
        -- destruct (IH fl (n0 + 1) ltac:(lia) Hdec) as (il' & fl' & -> & Hag & Hpic).
           cbn. destruct (5 <? n0 + 1) eqn:E5.
           ++ apply Z.ltb_lt in E5. exists (Text [] :: il'), (0 :: fl').
              split; [f_equal; f_equal; f_equal; lia|].
              split; [split; [reflexivity|assumption]|].
              cbn. rewrite Hpic. rewrite !firstn_to_nat_done by lia. reflexivity.
           ++ apply Z.ltb_ge in E5. exists (Picture im :: il'), (f :: fl').
              split; [f_equal; f_equal; f_equal; lia|].
              split; [split; [assumption|assumption]|].
              cbn. rewrite Hpic. now rewrite firstn_to_nat_succ by lia.
      * cbn in Hdec.
        destruct (IH fl n0 Hn0 Hdec) as (il' & fl' & -> & Hag & Hpic).
        cbn. exists (Text x :: il'), (f :: fl'). repeat split; assumption.
Qed.

(** When [remove_unwanted_images] returns, every flagged entry decoded. *)
Lemma remove_unwanted_images_from_decodes (il : list Text.str) :
  forall (fl : list Z) (n0 : Z) r,
    remove_unwanted_images_from parse_image n0 il fl = Ok r ->
    all_decode parse_image il fl = true.
Proof.
  induction il as [|x il IH]; intros fl n0 r; [reflexivity|].
  destruct fl as [|f fl]; [reflexivity|]. cbn.
  destruct (flag_set f).
  - destruct (parse_image x) as [im|]; cbn; [|discriminate].
    destruct (remove_unwanted_images_from parse_image _ il fl) as [r'|] eqn:E;
      cbn; [|discriminate].
    intros _. eapply IH; eassumption.
  - destruct (remove_unwanted_images_from parse_image _ il fl) as [r'|] eqn:E;
      cbn; [|discriminate].
    intros _. eapply IH; eassumption.
Qed.

Lemma normalize_sentences_spec (il : list item) :
  forall fl, flags_agree il fl ->
    exists il', normalize_sentences il fl = Ok il'
                /\ flags_agree il' fl /\ pictures il' fl = pictures il fl.
Proof.
  induction il as [|x il IH]; intros fl Hag.
  - exists []. cbn. repeat split.
  - destruct fl as [|f fl].
    + exists (x :: il). cbn. repeat split; destruct x; reflexivity.
    + cbn in Hag. destruct Hag as [Hf Hag].
      destruct (IH fl Hag) as (il' & E & Hag' & Hpic).
      cbn. rewrite E; cbn. destruct x as [s|im]; cbn in Hf; rewrite Hf; cbn.
      * eexists; split; [reflexivity|]. cbn. rewrite Hf. repeat split; assumption.
      * eexists; split; [reflexivity|]. cbn. rewrite Hf, Hpic. repeat split; assumption.
Qed.

Lemma remove_punctuation_spec (il : list item) :
  forall fl, flags_agree il fl ->
    exists il', remove_punctuation_based_sentences isalnum il fl = Ok il'
                /\ flags_agree il' fl /\ pictures il' fl = pictures il fl.
Proof.
  induction il as [|x il IH]; intros fl Hag.
  - exists []. cbn. repeat split.
  - destruct fl as [|f fl].
    + exists (x :: il). cbn. repeat split; destruct x; reflexivity.
    + cbn in Hag. destruct Hag as [Hf Hag].
      destruct (IH fl Hag) as (il' & E & Hag' & Hpic).
      cbn. rewrite E; cbn. destruct x as [s|im]; cbn in Hf; rewrite Hf; cbn.
      * eexists; split; [reflexivity|].
        destruct (Text.is_punctuation isalnum s); cbn; rewrite Hf; repeat split; assumption.
      * eexists; split; [reflexivity|]. cbn. rewrite Hf, Hpic. repeat split; assumption.
Qed.

Lemma filter_out_empty_sentences_spec (il : list item) :
  forall fl, flags_agree il fl ->
    length (fst (filter_out_empty_sentences il fl))
      = length (snd (filter_out_empty_sentences il fl))
    /\ flags_agree (fst (filter_out_empty_sentences il fl))
                   (snd (filter_out_empty_sentences il fl))
    /\ pictures (fst (filter_out_empty_sentences il fl))
                (snd (filter_out_empty_sentences il fl)) = pictures il fl.
Proof.
  induction il as [|x il IH]; intros fl Hag.
  - cbn. repeat split.
  - destruct fl as [|f fl].
    + cbn. repeat split; destruct x; reflexivity.
    + cbn in Hag. destruct Hag as [Hf Hag].
      destruct (IH fl Hag) as (Hl & Hag' & Hpic).
      cbn. destruct (filter_out_empty_sentences il fl) as [il' fl']. cbn in *.
      destruct x as [s|im]; cbn.
      * destruct s; cbn; repeat split; auto.
      * rewrite Hpic. repeat split; auto.
Qed.

Lemma pictures_length (il : list item) :
  forall fl, (length (pictures il fl) <= length il)%nat.
Proof.
  induction il as [|x il IH]; intros fl; [cbn; lia|].
  destruct fl as [|f fl]; [destruct x; cbn; lia|].
  destruct x; cbn; specialize (IH fl); lia.
Qed.

Lemma collect_images_spec (il : list item) :
  forall fl, flags_agree il fl -> length il = length fl ->
    fst (collect_images il fl) = List.map Picture (pictures il fl)
    /\ exists strs, all_text (snd (collect_images il fl)) = Ok strs.
Proof.
  induction il as [|x il IH]; intros fl Hag Hlen.
  - cbn. split; [reflexivity|]. exists []. reflexivity.
  - destruct fl as [|f fl]; [discriminate|].
    cbn in Hag, Hlen. destruct Hag as [Hf Hag].
    destruct (IH fl Hag ltac:(lia)) as (Him & strs & Hs).
    cbn. destruct (collect_images il fl) as [images il']. cbn in *.
    destruct x as [s|im]; cbn in Hf; rewrite Hf; cbn.
    + split; [assumption|]. rewrite Hs; cbn. eauto.
    + split; [now rewrite Him|]. rewrite Hs; cbn. eauto.
Qed.

Lemma all_pictures_map (l : list image) :
  all_pictures (List.map Picture l) = Ok l.
Proof. induction l as [|im l IH]; cbn; [reflexivity|now rewrite IH]. Qed.

Lemma image_tensor_of_length (w : list image) : length (image_tensor_of w) = 5%nat.
Proof.
  unfold image_tensor_of. rewrite length_app, length_map, repeat_length.
  pose proof (firstn_le_length 5 w). lia.
Qed.

(** A document whose flagged entries decode and that keeps at least one
    picture is accepted, and its image tensor holds the first five
    pictures, then zeros. *)
Lemma interleaved_accepts (doc : document) :
  all_decode parse_image (interleaved_list doc) (is_image doc) = true ->
  wanted_images parse_image (interleaved_list doc) (is_image doc) <> [] ->
  exists text_tensor,
    preprocess_interleaved_sample isalnum parse_image text_tokenizer doc
    = Ok (image_tensor_of
            (wanted_images parse_image (interleaved_list doc) (is_image doc)),
          text_tensor).
Proof.
  intros Hdec Hw. unfold preprocess_interleaved_sample, remove_unwanted_images.
  destruct (remove_unwanted_images_from_spec (interleaved_list doc) (is_image doc)
              0 ltac:(lia) Hdec) as (il1 & fl1 & -> & Hag1 & Hpic1).
  set (w := wanted_images parse_image (interleaved_list doc) (is_image doc)) in *.
  cbn [bind]. change (Z.to_nat (5 - 0)) with 5%nat in Hpic1.
  assert (Hwlen : (0 < length w)%nat) by (destruct w; cbn; [congruence|lia]).
  replace (0 + Z.of_nat (length w) =? 0) with false
    by (symmetry; apply Z.eqb_neq; lia).
  unfold preprocess_sentences.
  destruct (normalize_sentences_spec il1 fl1 Hag1) as (il2 & -> & Hag2 & Hpic2).
  cbn [bind].
  destruct (remove_punctuation_spec il2 fl1 Hag2) as (il3 & -> & Hag3 & Hpic3).
  cbn [bind].
  destruct (filter_out_empty_sentences_spec il3 fl1 Hag3) as (Hl4 & Hag4 & Hpic4).
  destruct (filter_out_empty_sentences il3 fl1) as [il4 fl4]. cbn [fst snd] in *.
  rewrite Hl4, Nat.eqb_refl. cbn [negb bind].
  assert (Hpics : pictures il4 fl4 = firstn 5 w) by congruence.
  assert (Hne : (0 < length (firstn 5 w))%nat).
  { rewrite length_firstn. lia. }
  assert (Hl4' : (0 < length fl4)%nat).
  { pose proof (pictures_length il4 fl4). rewrite Hpics in *. lia. }
  replace (Z.of_nat (length fl4) =? 0) with false
    by (symmetry; apply Z.eqb_neq; lia).
  unfold substitute_with_image_tag.
  destruct (collect_images_spec il4 fl4 Hag4 Hl4) as (Him & strs & Hs).
  destruct (collect_images il4 fl4) as [images il5]. cbn [fst snd] in *.
  subst images. rewrite Hpics, length_map.
  replace (0 <? Z.of_nat (length (firstn 5 w))) with true
    by (symmetry; apply Z.ltb_lt; lia).
  cbn [negb bind]. unfold prepare_text_data. rewrite Hs. cbn [bind].
  unfold prepare_image_data. rewrite all_pictures_map. cbn [bind].
  rewrite length_map. unfold preprocess_image, image_tensor_of.
  destruct (length (firstn 5 w) <? 5)%nat eqn:E5.
  - eexists; reflexivity.
  - apply Nat.ltb_ge in E5. pose proof (firstn_le_length 5 w).
    replace (5 - length (firstn 5 w))%nat with 0%nat by lia.
    cbn [repeat]. rewrite app_nil_r. eexists; reflexivity.
Qed.

Lemma interleaved_rejects_no_images (doc : document) :
  all_decode parse_image (interleaved_list doc) (is_image doc) = true ->
  wanted_images parse_image (interleaved_list doc) (is_image doc) = [] ->
  preprocess_interleaved_sample isalnum parse_image text_tokenizer doc
  = Raise (ValueError "No images in sample").
Proof.
  intros Hdec Hw. unfold preprocess_interleaved_sample, remove_unwanted_images.
  destruct (remove_unwanted_images_from_spec (interleaved_list doc) (is_image doc)
              0 ltac:(lia) Hdec) as (il1 & fl1 & -> & _).
  rewrite Hw. reflexivity.
Qed.

Lemma interleaved_ok_decodes (doc : document) r :
  preprocess_interleaved_sample isalnum parse_image text_tokenizer doc = Ok r ->
  all_decode parse_image (interleaved_list doc) (is_image doc) = true.
Proof.
  unfold preprocess_interleaved_sample, remove_unwanted_images.
  destruct (remove_unwanted_images_from parse_image 0 _ _) as [r0|] eqn:E;
    [|discriminate].
  intros _. eapply remove_unwanted_images_from_decodes; eassumption.
Qed.

(** C6. For every document the interleaved preprocessor accepts, the image
    tensor has exactly five slots: the first five pictures that pass the
    icon filter (at least one, at most five), in order, then zeros; with
    seven such pictures the five first fill the tensor and two are left
    out.  A document whose flagged entries decode but none of whose pictures
    passes the filter is rejected with [ValueError]; one that keeps a picture
    and a sentence is accepted. *)
Theorem interleaved_image_slots (doc : document) :
  let w := wanted_images parse_image (interleaved_list doc) (is_image doc) in
  (forall images_tensor text_tensor,
      preprocess_interleaved_sample isalnum parse_image text_tokenizer doc
        = Ok (images_tensor, text_tensor) ->
      length images_tensor = 5%nat /\
      images_tensor = List.map Pixels (firstn 5 w)
                      ++ repeat Zeros (5 - length (firstn 5 w)) /\
      (1 <= length (firstn 5 w) <= 5)%nat /\
      (length w = 7%nat ->
       images_tensor = List.map Pixels (firstn 5 w) /\ length (skipn 5 w) = 2%nat))
  /\ (all_decode parse_image (interleaved_list doc) (is_image doc) = true ->
      w = [] ->
      preprocess_interleaved_sample isalnum parse_image text_tokenizer doc
        = Raise (ValueError "No images in sample"))
  /\ (all_decode parse_image (interleaved_list doc) (is_image doc) = true ->
      w <> [] ->
      surviving_sentences isalnum (interleaved_list doc) (is_image doc) <> [] ->
      exists images_tensor text_tensor,
        preprocess_interleaved_sample isalnum parse_image text_tokenizer doc
          = Ok (images_tensor, text_tensor)).
Proof.
  intros w. split; [|split].
  - intros images_tensor text_tensor Hok.
    pose proof (interleaved_ok_decodes doc _ Hok) as Hdec.
    destruct w as [|im w'] eqn:Ew.
    + rewrite (interleaved_rejects_no_images doc Hdec Ew) in Hok. discriminate.
    + destruct (interleaved_accepts doc Hdec) as (text & Hacc).
      { fold w. rewrite Ew. discriminate. }
      fold w in Hacc. rewrite Ew in Hacc. rewrite Hacc in Hok.
      injection Hok as <- <-.
      split; [apply image_tensor_of_length|].
      split; [reflexivity|].
      split.
      * rewrite length_firstn. cbn [length]. lia.
      * intros H7. unfold image_tensor_of.
        rewrite length_firstn, length_skipn, H7. cbn [Nat.min Nat.sub repeat].
        rewrite app_nil_r. split; reflexivity.
  - intros Hdec Hw. apply interleaved_rejects_no_images; assumption.
  - intros Hdec Hw _. destruct (interleaved_accepts doc Hdec Hw) as (text & ->).
    eauto.
Qed.

End WithParse.

Lemma interleaved_image_slots_witness :
  (all_decode example_parse (interleaved_list seven_pictures)
     (is_image seven_pictures) = true /\
   wanted_images example_parse (interleaved_list seven_pictures)
     (is_image seven_pictures) <> [] /\
   surviving_sentences UnicodeSpec.latin1_isalnum (interleaved_list seven_pictures)
     (is_image seven_pictures) <> []) /\
  exists images_tensor text_tensor,
    preprocess_interleaved_sample UnicodeSpec.latin1_isalnum example_parse example_tokenizer seven_pictures
      = Ok (images_tensor, text_tensor) /\
    length images_tensor = 5%nat /\
    images_tensor = [Pixels (photo 1); Pixels (photo 2); Pixels (photo 3);
                     Pixels (photo 4); Pixels (photo 5)].
Proof.
  assert (Hd : all_decode example_parse (interleaved_list seven_pictures)
                 (is_image seven_pictures) = true) by (vm_compute; reflexivity).
  assert (Hw : wanted_images example_parse (interleaved_list seven_pictures)
                 (is_image seven_pictures) <> []) by (vm_compute; discriminate).
  assert (Hs : surviving_sentences UnicodeSpec.latin1_isalnum (interleaved_list seven_pictures)
                 (is_image seven_pictures) <> []) by (vm_compute; discriminate).
  split; [repeat split; assumption|].
  destruct (interleaved_image_slots UnicodeSpec.latin1_isalnum example_parse example_tokenizer seven_pictures)
    as (H1 & _ & H3).
  destruct (H3 Hd Hw Hs) as (t & x & Hok).
  exists t, x. split; [exact Hok|].
  destruct (H1 t x Hok) as (Hl & Ht & _).
  split; [exact Hl|]. rewrite Ht. vm_compute. reflexivity.
Defined.

End InterleavedFacts.

(* ===================================================================== *)
(** ** The span-masking preprocessor *)

Module PileFacts.
Import Pile PileSpec.

Lemma list_set_length {A : Type} (l : list A) :
  forall k v, length (list_set l k v) = length l.
Proof.
  induction l as [|h t IH]; intros k v; [reflexivity|].
  destruct k; cbn; [reflexivity|now rewrite IH].
Qed.

Lemma list_set_nth_other (l : list bool) :
  forall k j, j <> k -> nth j (list_set l k false) false = nth j l false.
Proof.
  induction l as [|h t IH]; intros k j Hjk; [destruct j; reflexivity|].
  destruct k, j; cbn; try reflexivity; try congruence.
  apply IH. congruence.
Qed.

Lemma count_true_cons (b : bool) (l : list bool) :
  count_true (b :: l) = (if b then 1 else 0) + count_true l.
Proof. unfold count_true. destruct b; cbn [filter length]; lia. Qed.

Lemma count_true_nonneg (l : list bool) : 0 <= count_true l.
Proof. unfold count_true. lia. Qed.

Lemma count_list_set (l : list bool) :
  forall k, nth k l false = true ->
            count_true (list_set l k false) = count_true l - 1.
Proof.
  induction l as [|h t IH]; intros k Hk; [destruct k; discriminate|].
  destruct k; cbn in Hk |- *.
  - subst h. rewrite !count_true_cons. lia.
  - rewrite !count_true_cons, (IH k Hk). lia.
Qed.

(** Clearing distinct marked positions lowers the count by their number. *)
Lemma unmark_count (idx : list nat) :
  forall marks, NoDup idx ->
    Forall (fun i => nth i marks false = true) idx ->
    count_true (unmark marks idx) = count_true marks - Z.of_nat (length idx).
Proof.
  induction idx as [|i rest IH]; intros marks Hnd Hall; [cbn; lia|].
  inversion Hnd as [|? ? Hnotin Hnd']; subst.
  inversion Hall as [|? ? Hi Hall']; subst.
  cbn [unmark fold_left]. change (fold_left _ rest ?m) with (unmark m rest).
  rewrite IH; [|assumption|].
  - rewrite count_list_set by assumption. cbn [length]. lia.
  - rewrite Forall_forall in *. intros j Hj.
    rewrite list_set_nth_other; [auto|]. intros ->. contradiction.
Qed.

Lemma unmark_length (idx : list nat) :
  forall marks, length (unmark marks idx) = length marks.
Proof.
  induction idx as [|i rest IH]; intros marks; [reflexivity|].
  cbn [unmark fold_left]. change (fold_left _ rest ?m) with (unmark m rest).
  now rewrite IH, list_set_length.
Qed.

Lemma nonzero_from_spec (marks : list bool) :
  forall i,
    length (nonzero_from i marks) = Z.to_nat (count_true marks) /\
    Forall (fun p => (i <= p)%nat /\ nth (p - i) marks false = true)
           (nonzero_from i marks) /\
    NoDup (nonzero_from i marks).
Proof.
  induction marks as [|b t IH]; intros i.
  - cbn. repeat split; constructor.
  - destruct (IH (S i)) as (Hl & Hall & Hnd).
    pose proof (count_true_nonneg t).
    assert (Hshift : Forall (fun p => (i <= p)%nat /\ nth (p - i) (b :: t) false = true)
                            (nonzero_from (S i) t)).
    { eapply Forall_impl; [|exact Hall]. cbn beta. intros p [Hp Hn]. split; [lia|].
      replace (p - i)%nat with (S (p - S i)) by lia. exact Hn. }
    rewrite count_true_cons. destruct b; cbn [nonzero_from].
    + repeat split.
      * cbn [length]. rewrite Hl. lia.
      * constructor; [|assumption]. split; [lia|]. now rewrite Nat.sub_diag.
      * constructor; [|assumption]. intros Hin.
        rewrite Forall_forall in Hall. apply Hall in Hin. lia.
    + repeat split; [rewrite Hl; lia|assumption|assumption].
Qed.

Lemma firstn_incl {A : Type} (n : nat) (l : list A) (x : A) :
  In x (firstn n l) -> In x l.
Proof.
  revert l. induction n as [|n IH]; intros l; [contradiction|].
  destruct l as [|h t]; [contradiction|]. cbn. intros [->|H]; auto.
Qed.

Lemma firstn_NoDup {A : Type} (n : nat) (l : list A) :
  NoDup l -> NoDup (firstn n l).
Proof.
  revert l. induction n as [|n IH]; intros l Hnd; [constructor|].
  destruct l as [|h t]; [constructor|]. cbn.
  inversion Hnd; subst. constructor; [|auto].
  intros Hin. apply firstn_incl in Hin. contradiction.
Qed.

Lemma list_set_false_clears (l : list bool) :
  forall k : nat,
    Forall2 (fun before after => after = true -> before = true)
            l (list_set l k false).
Proof.
  assert (Hrefl : forall m : list bool,
             Forall2 (fun before after => after = true -> before = true) m m).
  { induction m; constructor; auto. }
  induction l as [|b l IH]; intros k; [destruct k; constructor|].
  destruct k as [|k]; cbn [list_set]; constructor; auto. discriminate.
Qed.

Lemma unmark_clears (idx : list nat) :
  forall marks : list bool,
    Forall2 (fun before after => after = true -> before = true)
            marks (unmark marks idx).
Proof.
  unfold unmark. induction idx as [|i idx IH]; intros marks; cbn [fold_left].
  - induction marks; constructor; auto.
  - pose proof (list_set_false_clears marks i) as H1.
    pose proof (IH (list_set marks i false)) as H2.
    revert H1 H2. generalize (fold_left (fun m j => list_set m j false) idx
                                (list_set marks i false)).
    generalize (list_set marks i false). clear.
    induction marks as [|b marks IH]; intros l1 l2 H1 H2.
    + inversion H1; subst. inversion H2; subst. constructor.
    + inversion H1; subst. inversion H2; subst. constructor; [auto|].
      eapply IH; eassumption.
Qed.

Section WithTorch.
Context {TR : TorchRandom}.

(** After the cap at most ten marks stay set, and they are ten when more
    than ten were set. *)
Lemma cap_marks_count (marks : list bool) :
  count_true (cap_marks marks) = Z.min (count_true marks) 10 /\
  length (cap_marks marks) = length marks.
Proof.
  unfold cap_marks. destruct (10 <? count_true marks) eqn:E.
  2:{ apply Z.ltb_ge in E. split; [lia|reflexivity]. }
  apply Z.ltb_lt in E.
  destruct (nonzero_from_spec marks 0) as (Hl & Hall & Hnd).
  fold (nonzero marks) in Hl, Hall, Hnd.
  set (ti := nonzero marks) in *.
  set (k := length ti) in *.
  set (over := Z.to_nat (count_true marks - 10)).
  pose proof (randperm_perm k) as Hperm.
  assert (Hpnd : NoDup (randperm k)).
  { eapply Permutation_NoDup; [symmetry; exact Hperm|apply seq_NoDup]. }
  assert (Hplt : forall p, In p (randperm k) -> (p < k)%nat).
  { intros p Hp. eapply Permutation_in in Hp; [|exact Hperm].
    apply in_seq in Hp. lia. }
  assert (Hplen : length (randperm k) = k).
  { rewrite (Permutation_length Hperm). apply length_seq. }
  set (drop := firstn over (randperm k)).
  assert (Hdnd : NoDup drop) by (apply firstn_NoDup; assumption).
  assert (Hdlt : forall p, In p drop -> (p < k)%nat).
  { intros p Hp. apply Hplt. eapply firstn_incl; exact Hp. }
  assert (Hdlen : length drop = over).
  { unfold drop. rewrite length_firstn, Hplen. unfold over, k. lia. }
  set (idx := List.map (fun p => nth p ti 0%nat) drop).
  assert (Hind : NoDup idx).
  { apply NoDup_map_NoDup_ForallPairs; [|assumption].
    intros p q Hp Hq Heq. apply (proj1 (NoDup_nth ti 0%nat) Hnd); auto. }
  assert (Hia : Forall (fun i => nth i marks false = true) idx).
  { rewrite Forall_forall. intros i Hi. apply in_map_iff in Hi as (p & <- & Hp).
    rewrite Forall_forall in Hall.
    destruct (Hall (nth p ti 0%nat)) as [_ Hn]; [apply nth_In; auto|].
    now rewrite Nat.sub_0_r in Hn. }
  split; [|apply unmark_length].
  rewrite unmark_count by assumption.
  unfold idx. rewrite length_map, Hdlen. unfold over. lia.
Qed.

End WithTorch.

Lemma tokenize_row_length (tok : Text.Tokenizer) (n : nat) (text : Text.str) :
  length (fst (Text.tokenize tok n text)) = n /\
  length (snd (Text.tokenize tok n text)) = n.
Proof.
  unfold Text.tokenize; cbn [fst snd].
  pose proof (firstn_le_length n (Text.encode tok text)).
  rewrite !length_app, !repeat_length. lia.
Qed.

Lemma chosen_length (sentences : list Text.str) :
  forall marks, length marks = length sentences ->
                Z.of_nat (length (chosen sentences marks)) = count_true marks.
Proof.
  induction sentences as [|s ss IH]; intros marks Hl.
  - destruct marks; [reflexivity|discriminate].
  - destruct marks as [|m ms]; [discriminate|]. cbn in Hl.
    rewrite count_true_cons. destruct m; cbn [chosen length].
    + rewrite Nat2Z.inj_succ, (IH ms) by lia. lia.
    + rewrite (IH ms) by lia. lia.
Qed.

(** The chosen sentences are the marked ones, each stripped. *)
Lemma chosen_marked (sentences : list Text.str) :
  forall marks, chosen sentences marks = List.map Text.strip (marked sentences marks).
Proof.
  unfold marked. induction sentences as [|s ss IH]; intros marks; [reflexivity|].
  destruct marks as [|m ms]; [reflexivity|].
  cbn [chosen combine filter snd]. destruct m; cbn [List.map fst]; now rewrite IH.
Qed.

(** The loop over the sentences puts the image tag before the marked ones
    and leaves the others. *)
Lemma splice_tagged (sentences : list Text.str) :
  forall marks, length marks = length sentences ->
                splice sentences marks = tagged sentences marks.
Proof.
  unfold tagged. induction sentences as [|s ss IH]; intros marks Hl.
  - destruct marks; reflexivity.
  - destruct marks as [|m ms]; [discriminate|]. cbn in Hl.
    cbn [splice combine List.map fst snd]. rewrite IH by lia. reflexivity.
Qed.

Lemma skipn_app_exact {A : Type} (l1 l2 : list A) (n : nat) :
  length l1 = n -> skipn n (l1 ++ l2) = l2.
Proof.
  intros <-. rewrite skipn_app, skipn_all, Nat.sub_diag. reflexivity.
Qed.

Section WithCollaborators.
Context {TR : TorchRandom}.
Variable isalnum : Z -> bool.
Variable utf8_decode : string -> result Text.str.
Variable sent_tokenize : Text.str -> list Text.str.
Variable tokenizer : Text.Tokenizer.
Variable clip_tokenizer : Text.Tokenizer.

Local Abbreviation preprocess := (preprocess_pile isalnum utf8_decode sent_tokenize tokenizer clip_tokenizer).

(** The rows of the masked-sentence tensors: one per chosen sentence, then
    rows of zeros up to ten; every row has 24 entries. *)
Lemma masked_rows_shape (chosen_sentences : list Text.str) (c : nat) :
  length chosen_sentences = c -> (c <= 10)%nat ->
  forall (proj : list Z * list Z -> list Z),
    (forall s, length (proj (Text.tokenize clip_tokenizer 24 s)) = 24%nat) ->
    let rows := List.map proj (List.map (Text.tokenize clip_tokenizer 24) chosen_sentences) in
    let padded := if (c <? 10)%nat then rows ++ repeat (repeat 0 24) (10 - c) else rows in
    length padded = 10%nat /\
    Forall (fun row => length row = 24%nat) padded /\
    skipn c padded = repeat (repeat 0 24) (10 - c) /\
    padded = rows ++ repeat (repeat 0 24) (10 - c).
Proof.
  intros Hc Hle proj Hproj rows padded.
  assert (Hrl : length rows = c) by (unfold rows; now rewrite !length_map).
  assert (Hrf : Forall (fun row => length row = 24%nat) rows).
  { unfold rows. rewrite Forall_forall. intros row Hin.
    apply in_map_iff in Hin as (t & <- & Hin).
    apply in_map_iff in Hin as (sn & <- & _). apply Hproj. }
  unfold padded. destruct (c <? 10)%nat eqn:E.
  - apply Nat.ltb_lt in E. repeat split.
    + rewrite length_app, repeat_length. lia.
    + apply Forall_app. split; [assumption|].
      rewrite Forall_forall. intros row Hin. apply repeat_spec in Hin. subst row.
      apply repeat_length.
    + now apply skipn_app_exact.
  - apply Nat.ltb_ge in E. assert (c = 10%nat) as -> by lia. repeat split.
    + assumption.
    + assumption.
    + cbn [Nat.sub repeat]. apply skipn_all2. lia.
    + cbn [Nat.sub repeat]. now rewrite app_nil_r.
Qed.

Lemma marks_of_sentences (sentences : list Text.str) :
  length (indices_replaced_of sentences) = length sentences /\
  count_true (indices_replaced_of sentences)
    = Z.min (count_true (rand_le (length sentences))) 10.
Proof.
  unfold indices_replaced_of.
  destruct (cap_marks_count (rand_le (length sentences))) as [Hc Hl].
  split; [now rewrite Hl, rand_le_length|assumption].
Qed.

(** The un-marking only clears marks. *)
Lemma cap_marks_clears (drawn : list bool) : only_cleared drawn (cap_marks drawn).
Proof.
  unfold only_cleared, cap_marks.
  destruct (10 <? count_true drawn); [apply unmark_clears|].
  induction drawn; constructor; auto.
Qed.

(** The two ways [preprocess_pile] rejects a sample that decodes, and
    nothing else does. *)
Lemma preprocess_pile_cases (sample : string) (text : Text.str) :
  utf8_decode sample = Ok text ->
  let sentences := sentences_of isalnum sent_tokenize text in
  (sentences = [] /\ preprocess sample = Raise (ValueError "No sentences in sample"))
  \/ (sentences <> [] /\ count_true (rand_le (length sentences)) = 0 /\
      preprocess sample = Raise (ValueError "No sentences to mask"))
  \/ (sentences <> [] /\ count_true (rand_le (length sentences)) <> 0 /\
      exists out, preprocess sample = Ok out).
Proof.
  intros Hdec sentences. unfold preprocess_pile. rewrite Hdec. cbn [bind].
  fold sentences. destruct sentences as [|s0 ss] eqn:Es.
  - left. split; reflexivity.
  - right. cbn [length Nat.eqb].
    destruct (count_true (rand_le (S (length ss))) =? 0) eqn:E0.
    + left. apply Z.eqb_eq in E0. repeat split; [discriminate|assumption].
    + right. apply Z.eqb_neq in E0. repeat split; [discriminate|assumption|].
      destruct (_ <? 10)%nat; eexists; reflexivity.
Qed.

(** C7. For every document the span-masking preprocessor accepts, a
    sentence survives the punctuation filter, and there are marks, got from
    the random draw by clearing marks only, ten of them when the draw marked
    more, such that: at least one and at most ten sentences are marked; the
    masked-sentence [input_ids] and [attention_mask] are the rows of the
    marked sentences, stripped and tokenized to 24 entries, in order, then
    rows of zeros up to ten, so both have exactly ten rows of 24 entries
    whatever the number of sentences; and the text tensor is the
    tokenization of the sentences joined, the marked ones behind the image
    tag.  The preprocessor does accept every document that decodes, keeps a
    sentence and has one marked. *)
Theorem pile_masked_shape (sample : string) :
  (forall input_ids attention_mask text_tensor,
      preprocess sample = Ok ((input_ids, attention_mask), text_tensor) ->
      exists text marks,
        utf8_decode sample = Ok text /\
        let sentences := sentences_of isalnum sent_tokenize text in
        let drawn := rand_le (length sentences) in
        let replaced := marked sentences marks in
        let zero_rows := repeat (repeat 0 24) (10 - length replaced) in
        sentences <> [] /\
        length marks = length sentences /\
        only_cleared drawn marks /\
        count_true marks = Z.min (count_true drawn) 10 /\
        Z.of_nat (length replaced) = count_true marks /\
        1 <= Z.of_nat (length replaced) <= 10 /\
        input_ids
          = List.map (fun s => fst (Text.tokenize clip_tokenizer 24 (Text.strip s)))
              replaced ++ zero_rows /\
        attention_mask
          = List.map (fun s => snd (Text.tokenize clip_tokenizer 24 (Text.strip s)))
              replaced ++ zero_rows /\
        text_tensor
          = Text.tokenize tokenizer 256
              (Text.tidy_markers (Text.join (Text.lit " ") (tagged sentences marks))
                 (Text.eos_token tokenizer)) /\
        length input_ids = 10%nat /\ length attention_mask = 10%nat /\
        Forall (fun row => length row = 24%nat) input_ids /\
        Forall (fun row => length row = 24%nat) attention_mask)
  /\ (forall text,
      utf8_decode sample = Ok text ->
      sentences_of isalnum sent_tokenize text <> [] ->
      count_true (rand_le (length (sentences_of isalnum sent_tokenize text))) <> 0 ->
      exists out, preprocess sample = Ok out).
Proof.
  split.
  - intros input_ids attention_mask text_tensor Hok.
    destruct (utf8_decode sample) as [text|] eqn:Hdec.
    2:{ unfold preprocess_pile in Hok. rewrite Hdec in Hok. discriminate. }
    exists text, (indices_replaced_of (sentences_of isalnum sent_tokenize text)).
    split; [reflexivity|]. cbv zeta.
    unfold preprocess_pile in Hok. rewrite Hdec in Hok. cbn [bind] in Hok.
    fold (indices_replaced_of (sentences_of isalnum sent_tokenize text)) in Hok.
    set (sentences := sentences_of isalnum sent_tokenize text) in *.
    set (marks := indices_replaced_of sentences) in *.
    destruct (Nat.eqb (length sentences) 0) eqn:El; [discriminate|].
    destruct (count_true (rand_le (length sentences)) =? 0) eqn:E0; [discriminate|].
    apply Z.eqb_neq in E0. apply Nat.eqb_neq in El.
    pose proof (count_true_nonneg (rand_le (length sentences))) as Hnn.
    destruct (marks_of_sentences sentences) as [Hml Hmc]. fold marks in Hml, Hmc.
    pose proof (chosen_length sentences marks Hml) as Hch.
    rewrite (splice_tagged sentences marks Hml) in Hok.
    rewrite (chosen_marked sentences marks) in Hok, Hch.
    set (replaced := marked sentences marks) in *.
    rewrite length_map in Hch, Hok.
    assert (Hle : (length replaced <= 10)%nat) by lia.
    pose proof (masked_rows_shape (List.map Text.strip replaced) (length replaced)
                  (length_map _ _) Hle fst
                  (fun s => proj1 (tokenize_row_length clip_tokenizer 24 s)))
      as (Hi1 & Hi2 & _ & Hi4).
    pose proof (masked_rows_shape (List.map Text.strip replaced) (length replaced)
                  (length_map _ _) Hle snd
                  (fun s => proj2 (tokenize_row_length clip_tokenizer 24 s)))
      as (Ha1 & Ha2 & _ & Ha4).
    cbv zeta in Hi1, Hi2, Hi4, Ha1, Ha2, Ha4.
    rewrite Hi4 in Hi1, Hi2. rewrite Ha4 in Ha1, Ha2.
    assert (Hrows : input_ids
                    = List.map fst (List.map (Text.tokenize clip_tokenizer 24)
                                      (List.map Text.strip replaced))
                      ++ repeat (repeat 0 24) (10 - length replaced)
                    /\ attention_mask
                       = List.map snd (List.map (Text.tokenize clip_tokenizer 24)
                                         (List.map Text.strip replaced))
                         ++ repeat (repeat 0 24) (10 - length replaced)
                    /\ text_tensor
                       = Text.tokenize tokenizer 256
                           (Text.tidy_markers
                              (Text.join (Text.lit " ") (tagged sentences marks))
                              (Text.eos_token tokenizer))).
    { rewrite <- Hi4, <- Ha4.
      destruct (length replaced <? 10)%nat; injection Hok as <- <- <-;
        repeat split; reflexivity. }
    destruct Hrows as (-> & -> & ->). rewrite !map_map in *.
    split; [intros E; apply El; now rewrite E|].
    split; [exact Hml|]. split; [apply cap_marks_clears|].
    split; [exact Hmc|]. split; [exact Hch|].
    split; [lia|].
    repeat split; assumption.
  - intros text Hdec Hs Hm.
    destruct (preprocess_pile_cases sample text Hdec)
      as [[He _]|[(_ & H0 & _)|(_ & _ & Hout)]];
      [contradiction|contradiction|assumption].
Qed.

End WithCollaborators.

Example three_sentences_split :
  sentences_of UnicodeSpec.latin1_isalnum example_sent_tokenize
    (Text.lit three_sentences)
  = List.map Text.lit ["One."; " Two."; " Three."]%string.
Proof. vm_compute. reflexivity. Qed.

(** A sentence of accented letters is not punctuation; white space beyond
    ASCII is collapsed like the rest. *)
Example accented_sentence_kept :
  sentences_of UnicodeSpec.latin1_isalnum example_sent_tokenize
    [233; 160; 8195; 233; 46; 33; 46]
  = [[233; 32; 233; 46]].
Proof. vm_compute. reflexivity. Qed.

Lemma pile_masked_shape_witness :
  (example_decode three_sentences = Ok (Text.lit three_sentences) /\
   sentences_of UnicodeSpec.latin1_isalnum example_sent_tokenize
     (Text.lit three_sentences) <> [] /\
   count_true (rand_le (TorchRandom := MarkAll)
                 (length (sentences_of UnicodeSpec.latin1_isalnum
                            example_sent_tokenize (Text.lit three_sentences))))
     <> 0) /\
  exists input_ids attention_mask text_tensor,
    preprocess_pile (TR := MarkAll) UnicodeSpec.latin1_isalnum example_decode
      example_sent_tokenize InterleavedSpec.example_tokenizer
      InterleavedSpec.example_tokenizer three_sentences
    = Ok ((input_ids, attention_mask), text_tensor) /\
    length input_ids = 10%nat /\ length attention_mask = 10%nat /\
    firstn 3 input_ids
    = List.map (fun s => Text.lit s ++ repeat 0 (24 - String.length s))
        ["One."; "Two."; "Three."]%string /\
    skipn 3 input_ids = repeat (repeat 0 24) 7.
Proof.
  assert (Hd : example_decode three_sentences = Ok (Text.lit three_sentences))
    by reflexivity.
  assert (Hs : sentences_of UnicodeSpec.latin1_isalnum example_sent_tokenize
                 (Text.lit three_sentences) <> [])
    by (vm_compute; discriminate).
  assert (Hm : count_true (rand_le (TorchRandom := MarkAll)
                 (length (sentences_of UnicodeSpec.latin1_isalnum
                            example_sent_tokenize (Text.lit three_sentences))))
               <> 0)
    by (vm_compute; discriminate).
  split; [repeat split; assumption|].
  destruct (pile_masked_shape (TR := MarkAll) UnicodeSpec.latin1_isalnum
              example_decode example_sent_tokenize
              InterleavedSpec.example_tokenizer InterleavedSpec.example_tokenizer
              three_sentences) as (H1 & H2).
  destruct (H2 (Text.lit three_sentences) Hd Hs Hm) as ([[ids mask] tt] & Hok).
  exists ids, mask, tt. split; [exact Hok|].
  destruct (H1 ids mask tt Hok)
    as (text & marks & _ & _ & _ & _ & _ & _ & _ & _ & _ & _ & Hi & Ha & _).
  split; [exact Hi|]. split; [exact Ha|].
  vm_compute in Hok. injection Hok as <- _ _.
  split; vm_compute; reflexivity.
Defined.

End PileFacts.

(* ===================================================================== *)
(** ** Rejections and how the pipeline treats them *)

Module RejectionFacts.
Import Interleaved InterleavedSpec InterleavedFacts.

(** C8. The interleaved preprocessor does not reject a document in which
    no sentence survives: [preprocess_sentences] returns the length of the
    filtered list, which counts the pictures left in it, so the check
    [num_sentences == 0] that raises [ValueError("No sentences in sample")]
    never fires once a picture is kept.  On the document that holds one
    picture and nothing else no sentence survives, the count returned is 1,
    and tensors are returned; and so it is for every document whose flagged
    entries decode and that keeps a picture and no sentence. *)
Theorem no_sentences_check_never_fires :
  surviving_sentences UnicodeSpec.latin1_isalnum
    (interleaved_list picture_only) (is_image picture_only) = []
  /\ preprocess_sentences UnicodeSpec.latin1_isalnum [Picture (photo 1)] [1]
     = Ok (1, [Picture (photo 1)], [1])
  /\ (exists text_tensor,
        preprocess_interleaved_sample UnicodeSpec.latin1_isalnum example_parse
          example_tokenizer picture_only
        = Ok ([Pixels (photo 1); Zeros; Zeros; Zeros; Zeros], text_tensor))
  /\ (forall isalnum parse_image text_tokenizer (doc : document),
        all_decode parse_image (interleaved_list doc) (is_image doc) = true ->
        wanted_images parse_image (interleaved_list doc) (is_image doc) <> [] ->
        surviving_sentences isalnum (interleaved_list doc) (is_image doc) = [] ->
        exists r,
          preprocess_interleaved_sample isalnum parse_image text_tokenizer doc
          = Ok r).
Proof.
  split; [reflexivity|]. split; [reflexivity|]. split.
  - eexists. vm_compute. reflexivity.
  - intros isalnum parse_image text_tokenizer doc Hdec Hw _.
    destruct (interleaved_accepts isalnum parse_image text_tokenizer doc Hdec Hw)
      as (text_tensor & ->).
    eauto.
Qed.

End RejectionFacts.

(* ===================================================================== *)
(* ===================================================================== *)
(** * Further properties of the code *)

(* ===================================================================== *)
(** ** More on the driver's counts *)

Module DriverMore.
Import PyFloat PyFloatFacts Driver DriverFacts.

Lemma ceil_or_floor_multiple (floor : bool) (k b : Z) :
  0 < b -> ceil_or_floor floor (k * b) b = k.
Proof.
  intros Hb. destruct floor; cbn.
  - apply Z.div_mul; lia.
  - replace (- (k * b)) with (- k * b) by lia. rewrite Z.div_mul by lia. lia.
Qed.

Lemma ceil_or_floor_mono (floor : bool) (a a' b : Z) :
  0 < b -> a <= a' -> ceil_or_floor floor a b <= ceil_or_floor floor a' b.
Proof.
  intros Hb Ha. destruct floor; cbn.
  - apply Z.div_le_mono; lia.
  - enough (- a' / b <= - a / b) by lia. apply Z.div_le_mono; lia.
Qed.

(** The counts of a zero total are all zero. *)
Lemma recompute_zero (args : Args) (floor : bool) :
  0 < batch_size args -> 0 < world_size args -> 0 < workers args ->
  recompute_samples_stats args floor 0 = Ok (0, 0, 0).
Proof.
  intros Hb Hw Hk. unfold recompute_samples_stats.
  rewrite true_div_zero by nia. cbn [bind].
  assert (R0 : round_fn floor (mkFloat 0 0) = 0) by (destruct floor; reflexivity).
  rewrite R0, true_div_zero by lia. cbn [bind]. rewrite R0. reflexivity.
Qed.

(** X1. The recomputed counts are a fixed point: fed its own recomputed
    total (below [2^53]), in either rounding mode, the driver returns the
    same three counts again. *)
Theorem recompute_fixed_point (args : Args) (floor floor' : bool)
    (num_samples ns nb nwb : Z) :
  0 < batch_size args -> 0 < world_size args -> 0 < workers args ->
  0 < num_samples < 2 ^ 53 ->
  batch_size args * world_size args < 2 ^ 1075 -> workers args < 2 ^ 1075 ->
  recompute_samples_stats args floor num_samples = Ok (ns, nb, nwb) ->
  ns < 2 ^ 53 ->
  recompute_samples_stats args floor' ns = Ok (ns, nb, nwb).
Proof.
  intros Hb Hw Hk Hn Hg Hk' Hrun Hns.
  rewrite recompute_refines_spec in Hrun by assumption.
  unfold spec_counts in Hrun. injection Hrun as <- <- <-.
  set (g := batch_size args * world_size args) in *.
  assert (Hg0 : 0 < g) by (unfold g; nia).
  pose proof (ceil_or_floor_range floor num_samples g ltac:(lia) Hg0) as Hnb.
  pose proof (ceil_or_floor_range floor (ceil_or_floor floor num_samples g)
                (workers args) ltac:(lia) Hk) as Hnwb.
  set (nwb := ceil_or_floor floor (ceil_or_floor floor num_samples g) (workers args)) in *.
  destruct (Z.eq_dec nwb 0) as [E0|E0].
  - rewrite E0. cbn [Z.mul]. apply recompute_zero; assumption.
  - rewrite recompute_refines_spec; try assumption; [|nia].
    unfold spec_counts. fold g.
    rewrite (ceil_or_floor_multiple floor' (nwb * workers args) g Hg0).
    rewrite (ceil_or_floor_multiple floor' nwb (workers args) Hk).
    reflexivity.
Qed.

(** X2. Below [2^53] the recomputed total strays from the supplied one by
    less than one round of global batches over the workers: rounding up
    repeats fewer than [batch_size * world_size * workers] samples, rounding
    down drops fewer than that. *)
Theorem recompute_overshoot_bounded (args : Args) (floor : bool)
    (num_samples ns nb nwb : Z) :
  0 < batch_size args -> 0 < world_size args -> 0 < workers args ->
  0 < num_samples < 2 ^ 53 ->
  batch_size args * world_size args < 2 ^ 1075 -> workers args < 2 ^ 1075 ->
  recompute_samples_stats args floor num_samples = Ok (ns, nb, nwb) ->
  if floor
  then num_samples - batch_size args * world_size args * workers args < ns
       /\ ns <= num_samples
  else num_samples <= ns
       /\ ns < num_samples + batch_size args * world_size args * workers args.
Proof.
  intros Hb Hw Hk Hn Hg Hk' Hrun.
  rewrite recompute_refines_spec in Hrun by assumption.
  unfold spec_counts in Hrun. injection Hrun as <- <- <-.
  set (g := batch_size args * world_size args) in *.
  assert (Hg0 : 0 < g) by (unfold g; nia).
  destruct floor; cbn [ceil_or_floor].
  - pose proof (Z.div_mod num_samples g ltac:(lia)) as D1.
    pose proof (Z.mod_pos_bound num_samples g Hg0) as R1.
    pose proof (Z.div_mod (num_samples / g) (workers args) ltac:(lia)) as D2.
    pose proof (Z.mod_pos_bound (num_samples / g) (workers args) Hk) as R2.
    split; nia.
  - pose proof (Z.div_mod (- num_samples) g ltac:(lia)) as D1.
    pose proof (Z.mod_pos_bound (- num_samples) g Hg0) as R1.
    pose proof (Z.div_mod (- - (- num_samples / g)) (workers args) ltac:(lia)) as D2.
    pose proof (Z.mod_pos_bound (- - (- num_samples / g)) (workers args) Hk) as R2.
    split; nia.
Qed.

(** X3. Below [2^53] the recomputed total is monotone in the supplied
    sample count: more samples never give a smaller epoch. *)
Theorem recompute_monotone_in_samples (args : Args) (floor : bool)
    (n n' ns nb nwb ns' nb' nwb' : Z) :
  0 < batch_size args -> 0 < world_size args -> 0 < workers args ->
  0 < n -> n <= n' -> n' < 2 ^ 53 ->
  batch_size args * world_size args < 2 ^ 1075 -> workers args < 2 ^ 1075 ->
  recompute_samples_stats args floor n = Ok (ns, nb, nwb) ->
  recompute_samples_stats args floor n' = Ok (ns', nb', nwb') ->
  ns <= ns' /\ nb <= nb' /\ nwb <= nwb'.
Proof.
  intros Hb Hw Hk Hn Hnn Hn' Hg Hk' Hrun Hrun'.
  rewrite recompute_refines_spec in Hrun by (try assumption; lia).
  rewrite recompute_refines_spec in Hrun' by (try assumption; lia).
  unfold spec_counts in Hrun, Hrun'.
  injection Hrun as <- <- <-. injection Hrun' as <- <- <-.
  set (g := batch_size args * world_size args) in *.
  assert (Hg0 : 0 < g) by (unfold g; nia).
  pose proof (ceil_or_floor_mono floor n n' g Hg0 Hnn) as M1.
  pose proof (ceil_or_floor_mono floor _ _ (workers args) Hk M1) as M2.
  assert (M3 : ceil_or_floor floor (ceil_or_floor floor n g) (workers args)
                 * workers args
               <= ceil_or_floor floor (ceil_or_floor floor n' g) (workers args)
                  * workers args)
    by (apply Z.mul_le_mono_nonneg_r; lia).
  repeat split; [|assumption|assumption].
  apply Z.mul_le_mono_nonneg_r; lia.
Qed.

Lemma recompute_fixed_point_witness :
  (0 < batch_size scenario_args /\ 0 < world_size scenario_args /\
   0 < workers scenario_args /\ 0 < 9 < 2 ^ 53 /\
   batch_size scenario_args * world_size scenario_args < 2 ^ 1075 /\
   workers scenario_args < 2 ^ 1075 /\
   recompute_samples_stats scenario_args false 9 = Ok (12, 6, 3) /\
   12 < 2 ^ 53) /\
  recompute_samples_stats scenario_args true 12 = Ok (12, 6, 3).
Proof.
  assert (H : recompute_samples_stats scenario_args false 9 = Ok (12, 6, 3))
    by (vm_compute; reflexivity).
  split; [repeat split; try exact H; cbn; lia|].
  apply (recompute_fixed_point scenario_args false true 9 12 6 3);
    try exact H; cbn; lia.
Defined.

Lemma recompute_overshoot_bounded_witness :
  (0 < batch_size scenario_args /\ 0 < world_size scenario_args /\
   0 < workers scenario_args /\ 0 < 9 < 2 ^ 53 /\
   batch_size scenario_args * world_size scenario_args < 2 ^ 1075 /\
   workers scenario_args < 2 ^ 1075 /\
   recompute_samples_stats scenario_args false 9 = Ok (12, 6, 3)) /\
  9 <= 12 /\
  12 < 9 + batch_size scenario_args * world_size scenario_args
           * workers scenario_args.
Proof.
  assert (H : recompute_samples_stats scenario_args false 9 = Ok (12, 6, 3))
    by (vm_compute; reflexivity).
  split; [repeat split; try exact H; cbn; lia|].
  apply (recompute_overshoot_bounded scenario_args false 9 12 6 3);
    try exact H; cbn; lia.
Defined.

Lemma recompute_monotone_in_samples_witness :
  (0 < batch_size scenario_args /\ 0 < world_size scenario_args /\
   0 < workers scenario_args /\ 0 < 9 /\ 9 <= 13 /\ 13 < 2 ^ 53 /\
   batch_size scenario_args * world_size scenario_args < 2 ^ 1075 /\
   workers scenario_args < 2 ^ 1075 /\
   recompute_samples_stats scenario_args false 9 = Ok (12, 6, 3) /\
   recompute_samples_stats scenario_args false 13 = Ok (16, 8, 4)) /\
  12 <= 16 /\ 6 <= 8 /\ 3 <= 4.
Proof.
  assert (H : recompute_samples_stats scenario_args false 9 = Ok (12, 6, 3))
    by (vm_compute; reflexivity).
  assert (H' : recompute_samples_stats scenario_args false 13 = Ok (16, 8, 4))
    by (vm_compute; reflexivity).
  split; [repeat split; try exact H; try exact H'; cbn; lia|].
  apply (recompute_monotone_in_samples scenario_args false 9 13 12 6 3 16 8 4);
    try exact H; try exact H'; cbn; lia.
Defined.

End DriverMore.

(* ===================================================================== *)
(** ** Building the dataset, and the epoch *)

Module ConstructionFacts.
Import Construction.

Lemma wrap_int32_small (e : Z) : - 2 ^ 31 <= e < 2 ^ 31 -> Epoch.wrap_int32 e = e.
Proof.
  intros He. unfold Epoch.wrap_int32. rewrite Z.mod_small; lia.
Qed.

Section WithRandom.
Context {PR : PyRandom}.
Variable braceexpand : string -> list string.

Lemma WebLoader_init_ok (num_workers : Z) (u : unit) :
  WebLoader_init num_workers = Ok u -> 0 < num_workers.
Proof.
  unfold WebLoader_init.
  destruct (num_workers <? 0) eqn:E1; [discriminate|].
  destruct (num_workers =? 0) eqn:E2; [discriminate|].
  apply Z.ltb_ge in E1. apply Z.eqb_neq in E2. lia.
Qed.

Lemma recompute_counts (args : Args) (floor : bool) (n ns nb nwb : Z) :
  Driver.recompute_samples_stats args floor n = Ok (ns, nb, nwb) ->
  ns = nb * (batch_size args * world_size args) /\
  nb = nwb * Z.max 1 (workers args).
Proof.
  unfold Driver.recompute_samples_stats.
  destruct (PyFloat.true_div n _); cbn [bind]; [|discriminate].
  destruct (PyFloat.true_div _ _); cbn [bind]; [|discriminate].
  intros [= <- <- <-]. split; reflexivity.
Qed.

(** X4. What a successful construction of the interleaved dataset
    guarantees: an explicit non-zero sample count was supplied and there is
    at least one worker; unless the shards are resampled, the brace
    expansion of the pattern has at least [workers * world_size] entries (in
    resampled mode their number is never checked, only that the list the
    resampler draws from is not empty); the shards are the pattern split on
    [::] with every part brace-expanded; the loader's sample count is its
    batch count times the global batch, its batch count the per-worker count
    times the workers; and the shared epoch cell is there. *)
Theorem get_interleaved_dataset_ok (fs : ShardStats.filesystem) (entropy : rng)
    (args : Args) (epoch : Z) (floor : bool) (info : DataInfo) :
  get_interleaved_dataset braceexpand fs entropy args epoch floor = Ok info ->
  (exists n, train_num_samples args = Some n /\ n <> 0 /\
             Driver.recompute_samples_stats args floor n
             = Ok (num_samples (dataloader info), num_batches (dataloader info),
                   with_epoch (dataloader info))) /\
  0 < workers args /\ num_workers (dataloader info) = workers args /\
  (if dataset_resampled args
   then expand_urls braceexpand (shards args) <> [] /\
        exists src, source (dataloader info) = Resampled src /\
                    Resampled.deterministic src = true /\
                    Resampled.urls src = expand_urls braceexpand (shards args)
   else workers args * world_size args
          <= Z.of_nat (length (braceexpand (shards args))) /\
        source (dataloader info)
        = SimpleShardList (expand_urls braceexpand (shards args))) /\
  num_samples (dataloader info)
    = num_batches (dataloader info) * (batch_size args * world_size args) /\
  num_batches (dataloader info)
    = with_epoch (dataloader info) * workers args /\
  shared_epoch info = Some (Epoch.new epoch) /\ sampler info = None.
Proof.
  unfold get_interleaved_dataset.
  rewrite ShardStatsFacts.get_shard_stats_hint_only.
  destruct (train_num_samples args) as [n|]; [|discriminate].
  destruct (n =? 0) eqn:En; [discriminate|]. apply Z.eqb_neq in En.
  cbn [bind]. unfold prepare_dataloader.
  destruct (dataset_resampled args).
  - unfold Resampled.init.
    destruct (expand_urls braceexpand (shards args)) as [|u us] eqn:Eb;
      [discriminate|].
    cbn [bind].
    destruct (Driver.recompute_samples_stats args floor n) as [[[ns nb] nwb]|] eqn:Er;
      [|discriminate].
    cbn [bind].
    destruct (WebLoader_init (workers args)) as [u0|] eqn:Ew; [|discriminate].
    apply WebLoader_init_ok in Ew.
    cbn [bind]. intros [= <-]. cbn.
    destruct (recompute_counts _ _ _ _ _ _ Er) as [H1 H2].
    rewrite Z.max_r in H2 by lia.
    split; [exists n; auto|].
    split; [assumption|]. split; [reflexivity|].
    split; [split; [discriminate|eexists; repeat split]|].
    repeat split; assumption.
  - destruct (workers args * world_size args <=? _) eqn:El; [|discriminate].
    apply Z.leb_le in El. cbn [bind].
    destruct (Driver.recompute_samples_stats args floor n) as [[[ns nb] nwb]|] eqn:Er;
      [|discriminate].
    cbn [bind].
    destruct (WebLoader_init (workers args)) as [u0|] eqn:Ew; [|discriminate].
    apply WebLoader_init_ok in Ew.
    cbn [bind]. intros [= <-]. cbn.
    destruct (recompute_counts _ _ _ _ _ _ Er) as [H1 H2].
    rewrite Z.max_r in H2 by lia.
    split; [exists n; auto|].
    split; [assumption|]. split; [reflexivity|].
    split; [split; [assumption|reflexivity]|].
    repeat split; assumption.
Qed.

(** X5. The order of the construction errors: without a non-zero
    [train_num_samples] the construction raises [RuntimeError] whatever the
    shards and the files next to them; with one, and without resampling, too
    few shards for [workers * world_size] raise [AssertionError] before any
    count is computed. *)
Theorem get_interleaved_dataset_errors (fs : ShardStats.filesystem) (entropy : rng)
    (args : Args) (epoch : Z) (floor : bool) :
  (ShardStats.falsy (train_num_samples args) = true ->
   get_interleaved_dataset braceexpand fs entropy args epoch floor
   = Raise (RuntimeError ShardStats.no_size_message)) /\
  (ShardStats.falsy (train_num_samples args) = false ->
   dataset_resampled args = false ->
   Z.of_nat (length (braceexpand (shards args))) < workers args * world_size args ->
   get_interleaved_dataset braceexpand fs entropy args epoch floor
   = Raise (AssertionError too_few_shards)).
Proof.
  unfold get_interleaved_dataset.
  rewrite ShardStatsFacts.get_shard_stats_hint_only.
  split.
  - destruct (train_num_samples args) as [n|]; cbn; [|reflexivity].
    intros ->. reflexivity.
  - destruct (train_num_samples args) as [n|]; cbn; [|discriminate].
    intros -> -> Hlt. cbn [bind].
    replace (workers args * world_size args <=? _) with false
      by (symmetry; apply Z.leb_gt; lia).
    reflexivity.
Qed.

(** X6. [set_epoch] on a constructed pipeline reaches the shard shuffle:
    for an epoch a C [int] holds and a seed [>= 0], the stage
    [add_detshuffle2_step] installs then shuffles with the generator seeded
    with [seed + epoch]; the last [set_epoch] wins, so going back to an
    earlier epoch gives that epoch's order again. *)
Theorem set_epoch_reaches_shuffle {A : Type} (info : DataInfo)
    (cell : Epoch.SharedEpoch) (args : Args) (earlier epoch : Z)
    (entropy : rng) (worker_seed : Z) (src : list A) :
  shared_epoch info = Some cell ->
  0 <= seed args ->
  - 2 ^ 31 <= epoch < 2 ^ 31 ->
  exists cell',
    shared_epoch (set_epoch (set_epoch info earlier) epoch) = Some cell' /\
    shared_epoch (set_epoch info epoch) = Some cell' /\
    Epoch.get_value cell' = epoch /\
    fst (Shuffle.run cell' (add_detshuffle2_step args) entropy worker_seed src)
    = Shuffle._shuffle src _SHARD_SHUFFLE_SIZE _SHARD_SHUFFLE_INITIAL
        (rng_seed (seed args + epoch)).
Proof.
  intros Hc Hs He. exists (Epoch.mkSharedEpoch epoch).
  unfold set_epoch. rewrite Hc. cbn [shared_epoch].
  unfold Epoch.set_value. rewrite (wrap_int32_small epoch He).
  repeat split.
  unfold Shuffle.run, add_detshuffle2_step. cbn.
  replace (seed args <? 0) with false by (symmetry; apply Z.ltb_ge; lia).
  reflexivity.
Qed.

End WithRandom.

Example construct_resampled :
  option_map (fun d => (num_samples (dataloader d), num_batches (dataloader d),
                        with_epoch (dataloader d)))
    (match get_interleaved_dataset (PR := Lcg) four_shards no_files 7
             resampled_args 0 false
     with Ok d => Some d | Raise _ => None end)
  = Some (8, 4, 2).
Proof. vm_compute. reflexivity. Qed.

Lemma get_interleaved_dataset_ok_witness :
  exists info,
    get_interleaved_dataset (PR := Lcg) four_shards no_files 7 resampled_args 0 false
      = Ok info /\
    num_samples (dataloader info)
      = num_batches (dataloader info)
        * (batch_size resampled_args * world_size resampled_args).
Proof.
  eexists. split; [reflexivity|].
  exact (proj1 (proj2 (proj2 (proj2 (proj2
           (get_interleaved_dataset_ok (PR := Lcg) four_shards no_files 7
              resampled_args 0 false _ eq_refl)))))).
Defined.

(** A pattern of two parts: the brace expansion counts one shard, the
    source holds two. *)
Example two_part_pattern :
  expand_urls (fun s => [s]) "a.tar::b.tar" = ["a.tar"; "b.tar"]%string
  /\ Str.split "a::::b" "::" = ["a"; ""; "b"]%string
  /\ Str.split ":::" "::" = [""; ":"]%string
  /\ Str.split "" "::" = [""]%string.
Proof. repeat split; reflexivity. Qed.

(** No loader without a worker. *)
Example no_loader_without_workers :
  get_interleaved_dataset (PR := Lcg) four_shards no_files 7
    (with_workers resampled_args 0) 0 false
  = Raise (ValueError "persistent_workers option needs num_workers > 0").
Proof. reflexivity. Qed.

Lemma get_interleaved_dataset_errors_witness :
  (ShardStats.falsy (train_num_samples scenario_args) = true) /\
  get_interleaved_dataset (PR := Lcg) four_shards no_files 7 scenario_args 0 false
  = Raise (RuntimeError ShardStats.no_size_message).
Proof.
  split; [reflexivity|].
  exact (proj1 (get_interleaved_dataset_errors (PR := Lcg) four_shards no_files 7
                  scenario_args 0 false) eq_refl).
Defined.

Lemma set_epoch_reaches_shuffle_witness :
  (shared_epoch (mk_DataInfo (PR := Lcg)
                   (mk_DataLoader (SimpleShardList []) 2 2 4 8) None
                   (Some (Epoch.new 0))) = Some (Epoch.new 0) /\
   0 <= seed scenario_args /\ - 2 ^ 31 <= 3 < 2 ^ 31) /\
  exists cell',
    shared_epoch (set_epoch (mk_DataInfo (PR := Lcg)
                               (mk_DataLoader (SimpleShardList []) 2 2 4 8) None
                               (Some (Epoch.new 0))) 3) = Some cell' /\
    Epoch.get_value cell' = 3.
Proof.
  split; [repeat split; cbn; lia|].
  destruct (set_epoch_reaches_shuffle (PR := Lcg) (A := Z)
              (mk_DataInfo (PR := Lcg) (mk_DataLoader (SimpleShardList []) 2 2 4 8)
                 None (Some (Epoch.new 0)))
              (Epoch.new 0) scenario_args 5 3 7 0 [1; 2; 3] eq_refl
              ltac:(cbn; lia) ltac:(lia)) as (cell' & _ & H2 & H3 & _).
  exists cell'. split; assumption.
Defined.

End ConstructionFacts.

(* ===================================================================== *)
(** ** More on the dataset size *)

Module ShardStatsMore.
Import ShardStats.

Lemma fold_left_add_shift (l : list Z) (a : Z) :
  fold_left Z.add l a = a + fold_left Z.add l 0.
Proof.
  revert a. induction l as [|x l IH]; intros a; cbn; [lia|].
  rewrite (IH (a + x)), (IH x). lia.
Qed.

Lemma sum_cons (x : Z) (l : list Z) : sum (x :: l) = x + sum l.
Proof. unfold sum. cbn. apply fold_left_add_shift. Qed.

Lemma sum_permutation (l l' : list Z) : Permutation l l' -> sum l = sum l'.
Proof.
  induction 1 as [|x l l' _ IH|x y l|l l' l'' _ IH1 _ IH2].
  - reflexivity.
  - rewrite !sum_cons, IH. reflexivity.
  - rewrite !sum_cons. lia.
  - congruence.
Qed.

Lemma sum_nonneg (l : list Z) : Forall (fun x => 0 <= x) l -> 0 <= sum l.
Proof.
  induction 1 as [|x l Hx _ IH]; [reflexivity|]. rewrite sum_cons. lia.
Qed.

(** X7. [get_shard_stats] returns exactly an explicit, non-zero
    [train_num_samples], with the number of expanded shards; a count of zero
    is treated as no count, and the files next to the shards change
    nothing. *)
Theorem get_shard_stats_ok_iff (braceexpand : string -> list string)
    (fs : filesystem) (args : Args) (input_shards : string) (n k : Z) :
  get_shard_stats braceexpand fs args input_shards = Ok (n, k) <->
  train_num_samples args = Some n /\ n <> 0 /\
  k = Z.of_nat (length (braceexpand input_shards)).
Proof.
  rewrite ShardStatsFacts.get_shard_stats_hint_only.
  destruct (train_num_samples args) as [m|].
  - destruct (m =? 0) eqn:E.
    + apply Z.eqb_eq in E. split; [discriminate|].
      intros ([= ->] & Hn & _). contradiction.
    + apply Z.eqb_neq in E. split.
      * intros [= <- <-]. auto.
      * intros ([= ->] & _ & ->). reflexivity.
  - split; [discriminate|]. intros (H & _). discriminate.
Qed.

(** X8. The size [get_dataset_size] reads from [sizes.json]: the sum, over
    the expanded shards, of the count listed under the shard's basename, a
    shard that is not listed counting for nothing; it does not depend on the
    order of the shards, [__len__] is not looked at when [sizes.json] is
    there, and with counts that are not negative it is not negative. *)
Theorem get_dataset_size_from_sizes (braceexpand braceexpand' : string -> list string)
    (fs : filesystem) (shards : string) (sizes : list (string * Z)) :
  read_sizes fs (Str.join (Str.dirname shards) "sizes.json") = Some sizes ->
  Permutation (braceexpand shards) (braceexpand' shards) ->
  let count shard := match sizes_get sizes (Str.basename shard) with
                     | Some c => c
                     | None => 0
                     end in
  get_dataset_size braceexpand fs shards
    = (Some (sum (List.map count (braceexpand shards))),
       Z.of_nat (length (braceexpand shards))) /\
  get_dataset_size braceexpand' fs shards = get_dataset_size braceexpand fs shards /\
  (forall len, get_dataset_size braceexpand (mk_filesystem (read_sizes fs) len) shards
               = get_dataset_size braceexpand fs shards) /\
  (Forall (fun kv => 0 <= snd kv) sizes ->
   0 <= sum (List.map count (braceexpand shards))).
Proof.
  intros Hs Hp count. unfold get_dataset_size. cbn [read_sizes]. rewrite Hs.
  fold count. split; [reflexivity|]. split; [|split].
  - f_equal.
    + f_equal. apply sum_permutation. apply Permutation_map. symmetry; exact Hp.
    + f_equal. apply Permutation_length. symmetry; exact Hp.
  - reflexivity.
  - intros Hnn. apply sum_nonneg. rewrite Forall_forall. intros x Hx.
    apply in_map_iff in Hx as (shard & <- & _). unfold count.
    destruct (sizes_get sizes (Str.basename shard)) as [c|] eqn:E; [|lia].
    clear -E Hnn. induction sizes as [|[k' c'] t IH]; [discriminate|].
    cbn in E. inversion Hnn; subst. destruct (String.eqb k' _).
    + injection E as <-. assumption.
    + auto.
Qed.

Lemma get_shard_stats_ok_iff_witness :
  (train_num_samples resampled_args = Some 8 /\ 8 <> 0 /\
   4 = Z.of_nat (length (four_shards (shards resampled_args)))) /\
  get_shard_stats four_shards no_files resampled_args (shards resampled_args)
  = Ok (8, 4).
Proof.
  assert (H : train_num_samples resampled_args = Some 8 /\ 8 <> 0 /\
              4 = Z.of_nat (length (four_shards (shards resampled_args))))
    by (repeat split; discriminate).
  split; [exact H|].
  exact (proj2 (get_shard_stats_ok_iff four_shards no_files resampled_args
                  (shards resampled_args) 8 4) H).
Defined.

Lemma get_dataset_size_from_sizes_witness :
  (read_sizes ShardStatsSpec.example_fs
     (Str.join (Str.dirname ShardStatsSpec.example_shards) "sizes.json")
   = Some [("shard-000.tar", 100); ("shard-001.tar", 150)]%string /\
   Permutation (ShardStatsSpec.example_braceexpand ShardStatsSpec.example_shards)
     (ShardStatsSpec.example_braceexpand ShardStatsSpec.example_shards)) /\
  get_dataset_size ShardStatsSpec.example_braceexpand ShardStatsSpec.example_fs
    ShardStatsSpec.example_shards = (Some 250, 2).
Proof.
  assert (H1 : read_sizes ShardStatsSpec.example_fs
                 (Str.join (Str.dirname ShardStatsSpec.example_shards) "sizes.json")
               = Some [("shard-000.tar", 100); ("shard-001.tar", 150)]%string)
    by reflexivity.
  split; [split; [exact H1|apply Permutation_refl]|].
  rewrite (proj1 (get_dataset_size_from_sizes ShardStatsSpec.example_braceexpand
                    ShardStatsSpec.example_braceexpand ShardStatsSpec.example_fs
                    ShardStatsSpec.example_shards _ H1 (Permutation_refl _))).
  reflexivity.
Defined.

End ShardStatsMore.

(* ===================================================================== *)
(** ** More on the shuffle and the resampler *)

Module ShuffleMore.
Import Shuffle.

Section WithRandom.
Context {PR : PyRandom} {A : Type}.

Lemma run_counter (cell : Epoch.SharedEpoch) (self : detshuffle2) (e0 : Z)
    (entropy : rng) (worker_seed : Z) (src : list A) :
  ds_epoch self = Epoch.Counter e0 -> 0 <= ds_seed self ->
  run cell self entropy worker_seed src
  = (_shuffle src (bufsize self) (initial self) (rng_seed (ds_seed self + (e0 + 1))),
     mk_detshuffle2 (bufsize self) (initial self) (ds_seed self)
       (Epoch.Counter (e0 + 1))).
Proof.
  intros He Hs. unfold run. rewrite He. cbn.
  replace (ds_seed self <? 0) with false by (symmetry; apply Z.ltb_ge; lia).
  reflexivity.
Qed.

(** X9. A [detshuffle2] stage that keeps its own epoch counts its runs:
    from the counter [e0], with a seed [>= 0], the [i]-th run (from 0)
    shuffles with the generator seeded with [seed + e0 + 1 + i], whatever
    the shared cell holds, and after [k] runs the counter is [e0 + k]; so
    with the default [epoch = -1] the runs use [seed], [seed + 1], ... *)
Theorem detshuffle2_counts_its_runs (k : nat) :
  forall (cell : Epoch.SharedEpoch) (self : detshuffle2) (e0 : Z)
         (entropy : rng) (worker_seed : Z) (src : list A),
    ds_epoch self = Epoch.Counter e0 -> 0 <= ds_seed self ->
    fst (runs k cell self entropy worker_seed src)
    = List.map (fun i => _shuffle src (bufsize self) (initial self)
                           (rng_seed (ds_seed self + (e0 + 1 + Z.of_nat i))))
        (seq 0 k)
    /\ snd (runs k cell self entropy worker_seed src)
       = mk_detshuffle2 (bufsize self) (initial self) (ds_seed self)
           (Epoch.Counter (e0 + Z.of_nat k)).
Proof.
  induction k as [|k IH]; intros cell self e0 entropy worker_seed src He Hs.
  - cbn. split; [reflexivity|]. rewrite Z.add_0_r. destruct self; cbn in *.
    now subst.
  - cbn [runs]. rewrite (run_counter cell self e0) by assumption.
    set (self' := mk_detshuffle2 _ _ _ _).
    destruct (IH cell self' (e0 + 1) entropy worker_seed src eq_refl Hs) as [H1 H2].
    destruct (runs k cell self' entropy worker_seed src) as [gs self''].
    cbn [fst snd] in *. split.
    + cbn [seq List.map]. f_equal; [do 3 f_equal; lia|].
      rewrite H1. rewrite <- seq_shift, map_map. apply map_ext.
      intros i. cbn. do 3 f_equal. lia.
    + rewrite H2. cbn. do 2 f_equal. lia.
Qed.

End WithRandom.

Lemma detshuffle2_counts_its_runs_witness :
  (ds_epoch counting_detshuffle2 = Epoch.Counter (-1) /\
   0 <= ds_seed counting_detshuffle2) /\
  fst (runs (PR := Lcg) 2 (Epoch.new 5) counting_detshuffle2 3 0 [1; 2; 3])
  = [_shuffle [1; 2; 3] 1000 100 (rng_seed (PyRandom := Lcg) 7);
     _shuffle [1; 2; 3] 1000 100 (rng_seed (PyRandom := Lcg) 8)].
Proof.
  split; [split; [reflexivity|cbn; lia]|].
  exact (proj1 (detshuffle2_counts_its_runs (PR := Lcg) 2 (Epoch.new 5)
                  counting_detshuffle2 (-1) 3 0 [1; 2; 3] eq_refl
                  ltac:(cbn; lia))).
Defined.

End ShuffleMore.

Module ResampledMore.
Import Resampled.

Section WithRandom.
Context {PR : PyRandom}.

Lemma draws_app (us : list string) (n m : nat) :
  us <> [] ->
  forall r,
    draws (n + m) us r
    = (fst (fst (draws n us r)) ++ fst (fst (draws m us (snd (draws n us r)))),
       None,
       snd (draws m us (snd (draws n us r)))).
Proof.
  intros Hne. induction n as [|n IH]; intros r.
  - cbn [Nat.add draws fst snd app].
    destruct (ResampledFacts.draws_total us m r Hne) as (He & _).
    destruct (draws m us r) as [[out e] r']. cbn in *. now subst.
  - cbn [Nat.add draws].
    destruct (ResampledFacts.choice_total r us Hne) as (u & r' & -> & _).
    rewrite (IH r').
    destruct (draws n us r') as [[out e] r'']. cbn. reflexivity.
Qed.

(** X10. Without [deterministic], the resampler never reseeds: a second
    iteration goes on where the first left the generator, so two iterations
    in a row yield together what one iteration of twice the length would
    have, and neither the worker seed nor the epoch has any effect. *)
Theorem resampled_free_continues
    (cell cell' : Epoch.SharedEpoch) (self : ResampledShards2)
    (worker_seed worker_seed' : Z) :
  deterministic self = false -> rs_epoch self = Epoch.Shared ->
  urls self <> [] -> 0 <= nshards self ->
  let first := iter cell self worker_seed in
  let second := iter cell' (snd first) worker_seed' in
  fst (fst first) ++ fst (fst second)
  = fst (fst (draws (Z.to_nat (nshards self) + Z.to_nat (nshards self))
                (urls self) (rs_rng self)))
  /\ snd (fst first) = None /\ snd (fst second) = None
  /\ length (fst (fst first) ++ fst (fst second))
     = Z.to_nat (2 * nshards self).
Proof.
  intros Hd He Hu Hn. unfold iter. rewrite Hd, He.
  cbn [Epoch.current].
  set (n := Z.to_nat (nshards self)).
  pose proof (draws_app (urls self) n n Hu (rs_rng self)) as Happ.
  destruct (ResampledFacts.draws_total (urls self) n (rs_rng self) Hu)
    as (He1 & Hl1 & _).
  destruct (draws n (urls self) (rs_rng self)) as [[o1 e1] r1] eqn:E1.
  cbn [fst snd deterministic rs_epoch urls nshards rs_rng Epoch.current] in *.
  fold n.
  destruct (ResampledFacts.draws_total (urls self) n r1 Hu) as (He2 & Hl2 & _).
  destruct (draws n (urls self) r1) as [[o2 e2] r2] eqn:E2.
  cbn [fst snd] in *. rewrite Happ. cbn [fst snd].
  repeat split; try assumption.
  rewrite length_app, Hl1, Hl2. unfold n. lia.
Qed.

End WithRandom.

Lemma resampled_free_continues_witness :
  (deterministic (example_free_source 7) = false /\
   rs_epoch (example_free_source 7) = Epoch.Shared /\
   urls (example_free_source 7) <> [] /\ 0 <= nshards (example_free_source 7)) /\
  length (fst (fst (iter (Epoch.new 0) (example_free_source 7) 1))
          ++ fst (fst (iter (Epoch.new 9)
                         (snd (iter (Epoch.new 0) (example_free_source 7) 1)) 2)))
  = Z.to_nat (2 * nshards (example_free_source 7)).
Proof.
  split; [repeat split; try reflexivity; try discriminate; cbn; lia|].
  exact (proj2 (proj2 (proj2
           (resampled_free_continues (PR := Lcg) (Epoch.new 0) (Epoch.new 9)
              (example_free_source 7) 1 2 eq_refl eq_refl
              ltac:(discriminate) ltac:(cbn; lia))))).
Defined.

End ResampledMore.

(* ===================================================================== *)
(** ** More on grouping *)

Module GrouperMore.
Import Grouper GrouperVocab.

Lemma dict_set_new (d : sample) (k : string) (v : value) :
  dict_mem d k = false -> dict_set d k v = d ++ [(k, v)].
Proof.
  unfold dict_mem. induction d as [|[k' v'] t IH]; cbn; [reflexivity|].
  destruct (String.eqb k' k); [discriminate|]. intros H. now rewrite IH.
Qed.

Lemma dict_get_set_other (d : sample) (k k' : string) (v : value) :
  k <> k' -> dict_get (dict_set d k v) k' = dict_get d k'.
Proof.
  intros Hne. induction d as [|[k0 v0] t IH]; cbn.
  - destruct (String.eqb_spec k k'); [contradiction|reflexivity].
  - destruct (String.eqb_spec k0 k) as [->|Hk]; cbn.
    + destruct (String.eqb_spec k k'); [contradiction|reflexivity].
    + destruct (String.eqb k0 k'); [reflexivity|exact IH].
Qed.

Lemma dict_get_set_same (d : sample) (k : string) (v : value) :
  dict_get (dict_set d k v) k = Some v.
Proof.
  induction d as [|[k0 v0] t IH]; cbn.
  - now rewrite String.eqb_refl.
  - destruct (String.eqb_spec k0 k) as [->|Hk]; cbn.
    + now rewrite String.eqb_refl.
    + destruct (String.eqb_spec k0 k); [contradiction|exact IH].
Qed.

Lemma dict_mem_in (d : sample) (k : string) :
  dict_mem d k = true <-> In k (List.map fst d).
Proof.
  unfold dict_mem. induction d as [|[k0 v0] t IH]; cbn.
  - split; [discriminate|contradiction].
  - destruct (String.eqb_spec k0 k) as [->|Hk].
    + split; auto.
    + rewrite IH. split; [auto|]. intros [H|H]; [contradiction|assumption].
Qed.

Lemma dict_set_keys (d : sample) (k : string) (v : value) :
  List.map fst (dict_set d k v)
  = if dict_mem d k then List.map fst d else List.map fst d ++ [k].
Proof.
  unfold dict_mem. induction d as [|[k0 v0] t IH]; cbn; [reflexivity|].
  destruct (String.eqb_spec k0 k) as [->|Hk]; cbn; [reflexivity|].
  rewrite IH. destruct (dict_get t k); reflexivity.
Qed.

Lemma dict_set_well_formed (d : sample) (k : string) (v : value) :
  well_formed d -> well_formed (dict_set d k v).
Proof.
  intros (Hnd & Hk & Hu). unfold well_formed.
  rewrite !dict_mem_in, dict_set_keys in *.
  destruct (dict_mem d k) eqn:E.
  - auto.
  - repeat split; try (apply in_or_app; auto).
    apply NoDup_app; [assumption|repeat constructor; intros []|].
    intros x Hx [<-|[]].
    apply dict_mem_in in Hx. congruence.
Qed.

Lemma header_well_formed (p u : string) : well_formed (header p u).
Proof.
  repeat split. cbn. repeat constructor; cbn; intuition discriminate.
Qed.

Lemma flush_well_formed (current : option sample) :
  match current with Some d => well_formed d | None => True end ->
  Forall well_formed (flush current).
Proof.
  intros Hc. unfold flush. destruct current as [d|]; [|constructor].
  destruct (valid_sample (Some d)); [|constructor].
  constructor; [assumption|constructor].
Qed.

(** X11. Whatever the key function, the case folding and the suffix
    filter, every sample [group_by_keys_nothrow] yields carries its
    [__key__] and its [__url__] and no field name twice. *)
Theorem grouped_samples_well_formed
    (keys : string -> option (string * string)) (lcase : bool)
    (suffixes : option (list string)) (files : list filesample) :
  Forall well_formed (group_by_keys_nothrow files keys lcase suffixes).
Proof.
  unfold group_by_keys_nothrow.
  enough (H : forall current,
             match current with Some d => well_formed d | None => True end ->
             Forall well_formed (group_loop keys lcase suffixes files current))
    by (apply (H None); exact I).
  induction files as [|f rest IH]; intros current Hc; cbn [group_loop].
  - apply flush_well_formed; assumption.
  - destruct (keys (fname f)) as [[prefix suffix]|]; [|apply IH; assumption].
    apply Forall_app. split.
    + match goal with |- Forall _ (if ?b then _ else _) => destruct b end;
        [|constructor].
      apply flush_well_formed; assumption.
    + apply IH.
      match goal with |- well_formed (if ?w then dict_set ?d _ _ else _) =>
        assert (Hd : well_formed d); [|destruct w; [apply dict_set_well_formed|];
                                       exact Hd] end.
      destruct current as [d|]; [|apply header_well_formed].
      destruct (key_differs d prefix || dict_mem d _);
        [apply header_well_formed|assumption].
Qed.

Lemma payloads_app (a b : sample) : payloads (a ++ b) = payloads a ++ payloads b.
Proof. unfold payloads. apply flat_map_app. Qed.

Lemma payloads_header_set (p u k x : string) :
  payloads (dict_set [("__key__"%string, VStr p); ("__url__"%string, VStr u)]
              k (VBytes x)) = [x].
Proof.
  cbn [dict_set].
  destruct (String.eqb "__key__" k); [reflexivity|].
  destruct (String.eqb "__url__" k); reflexivity.
Qed.

(** The accumulator is never empty and never marked bad. *)
Definition live (d : sample) : Prop := d <> [] /\ dict_get d "__bad__" = None.

Lemma live_valid (d : sample) : live d -> flush (Some d) = [d].
Proof.
  intros [Hne Hb]. unfold flush, valid_sample. rewrite Hb.
  destruct d; [congruence|reflexivity].
Qed.

Lemma live_set (d : sample) (k : string) (v : value) :
  dict_get d "__bad__" = None -> k <> "__bad__"%string -> live (dict_set d k v).
Proof.
  intros Hb Hk. split.
  - destruct d as [|[k0 v0] t]; cbn; [discriminate|].
    destruct (String.eqb k0 k); discriminate.
  - rewrite dict_get_set_other; assumption.
Qed.

(** X12. No archive entry is lost, duplicated or reordered by the
    grouping: when no entry has the suffix [__bad__], the payloads of the
    samples yielded, read in order, are the payloads of the entries that
    have a key, in stream order. *)
Theorem grouping_keeps_every_payload
    (keys : string -> option (string * string)) (lcase : bool)
    (files : list filesample) :
  (forall f, In f files -> suffix_of keys lcase f <> Some "__bad__"%string) ->
  flat_map payloads (group_by_keys_nothrow files keys lcase None)
  = List.map data (filter (has_key keys) files).
Proof.
  unfold group_by_keys_nothrow.
  enough (H : forall current,
             (forall f, In f files ->
                        suffix_of keys lcase f <> Some "__bad__"%string) ->
             match current with Some d => live d | None => True end ->
             flat_map payloads (group_loop keys lcase None files current)
             = match current with Some d => payloads d | None => [] end
               ++ List.map data (filter (has_key keys) files))
    by (intros Hs; apply (H None Hs I)).
  induction files as [|f rest IH]; intros current Hs Hc; cbn [group_loop].
  - cbn. rewrite app_nil_r. destruct current as [d|]; [|reflexivity].
    rewrite (live_valid d Hc). cbn. apply app_nil_r.
  - pose proof (Hs f (or_introl eq_refl)) as Hf.
    assert (Hs' : forall g, In g rest ->
                            suffix_of keys lcase g <> Some "__bad__"%string)
      by (intros g Hg; apply Hs; right; exact Hg).
    unfold suffix_of in Hf. cbn [filter]. unfold has_key at 1.
    destruct (keys (fname f)) as [[prefix suffix]|]; [|apply IH; assumption].
    set (sfx := if lcase then Str.lower suffix else suffix) in *.
    assert (Hne : sfx <> "__bad__"%string) by congruence.
    rewrite flat_map_app. cbn [List.map].
    destruct current as [d|].
    + destruct Hc as [Hd Hb].
      destruct (key_differs d prefix || dict_mem d sfx) eqn:En.
      * rewrite (live_valid d (conj Hd Hb)).
        rewrite IH; [|assumption|apply live_set; auto].
        rewrite payloads_header_set. cbn. rewrite app_nil_r. reflexivity.
      * apply orb_false_iff in En as [_ Hm].
        rewrite IH; [|assumption|apply live_set; auto].
        rewrite (dict_set_new d sfx _ Hm), payloads_app. cbn.
        rewrite <- app_assoc. reflexivity.
    + rewrite IH; [|assumption|apply live_set; auto].
      rewrite payloads_header_set. reflexivity.
Qed.

Lemma reserved_false (s : string) :
  reserved s = false ->
  s <> "__key__"%string /\ s <> "__url__"%string /\ s <> "__bad__"%string.
Proof.
  unfold reserved. intros H.
  apply orb_false_iff in H as [H Hb]. apply orb_false_iff in H as [Hk Hu].
  rewrite String.eqb_neq in Hk, Hu, Hb. auto.
Qed.

Lemma dict_mem_app (d : sample) (k k' : string) (v : value) :
  dict_mem (d ++ [(k, v)]) k' = dict_mem d k' || String.eqb k k'.
Proof.
  unfold dict_mem. induction d as [|[k0 v0] t IH]; cbn.
  - destruct (String.eqb k k'); reflexivity.
  - destruct (String.eqb k0 k'); [reflexivity|exact IH].
Qed.

Lemma dict_get_app_found (d : sample) (k : string) (v : value) (d' : sample) :
  dict_get d k = Some v -> dict_get (d ++ d') k = Some v.
Proof.
  induction d as [|[k0 v0] t IH]; cbn; [discriminate|].
  destruct (String.eqb k0 k); auto.
Qed.

Lemma dict_get_app_none (d : sample) (k k' : string) (v : value) :
  dict_get d k' = None -> k <> k' -> dict_get (d ++ [(k, v)]) k' = None.
Proof.
  intros Hd Hk. induction d as [|[k0 v0] t IH]; cbn in *.
  - destruct (String.eqb_spec k k'); [contradiction|reflexivity].
  - destruct (String.eqb k0 k'); [discriminate|auto].
Qed.

Lemma header_fresh (p u s : string) :
  s <> "__key__"%string -> s <> "__url__"%string -> dict_mem (header p u) s = false.
Proof.
  intros Hk Hu. unfold dict_mem, header. cbn [dict_get].
  destruct (String.eqb_spec "__key__" s); [congruence|].
  destruct (String.eqb_spec "__url__" s); [congruence|reflexivity].
Qed.

(** The loop on entries that all belong to the sample being built. *)
Lemma group_loop_one_group
    (keys : string -> option (string * string)) (lcase : bool) (prefix : string)
    (files : list filesample) :
  forall (d : sample) (sfx : list string),
    Forall2 (fun f s => prefix_of keys f = Some prefix /\
                        suffix_of keys lcase f = Some s) files sfx ->
    NoDup sfx ->
    Forall (fun s => dict_mem d s = false /\ s <> "__bad__"%string) sfx ->
    dict_get d "__key__" = Some (VStr prefix) ->
    dict_get d "__bad__" = None ->
    group_loop keys lcase None files (Some d)
    = [d ++ List.map (fun fs => (snd fs, VBytes (data (fst fs)))) (combine files sfx)].
Proof.
  induction files as [|f rest IH]; intros d sfx HF Hnd Hfresh Hkey Hbad.
  - inversion HF; subst. cbn. rewrite app_nil_r.
    apply live_valid. split; [|assumption].
    intros ->. discriminate.
  - inversion HF as [|? s ? sfx' [Hp Hs] HF']; subst.
    inversion Hnd as [|? ? Hnotin Hnd']; subst.
    inversion Hfresh as [|? ? [Hm Hnb] Hfresh']; subst.
    cbn [group_loop]. unfold prefix_of in Hp. unfold suffix_of in Hs.
    destruct (keys (fname f)) as [[p raw]|]; [|discriminate].
    injection Hp as ->. injection Hs as Hs. rewrite Hs.
    unfold key_differs. rewrite Hkey. cbn [value_eqb].
    rewrite String.eqb_refl, Hm. cbn [negb orb app].
    rewrite (dict_set_new d s _ Hm).
    rewrite (IH (d ++ [(s, VBytes (data f))]) sfx' HF' Hnd').
    + cbn [combine List.map fst snd]. rewrite <- app_assoc. reflexivity.
    + rewrite Forall_forall in *. intros s' Hin.
      destruct (Hfresh' s' Hin) as [Hm' Hnb']. split; [|assumption].
      rewrite dict_mem_app, Hm'. cbn [orb].
      apply String.eqb_neq. intros ->. contradiction.
    + apply dict_get_app_found. assumption.
    + apply dict_get_app_none; assumption.
Qed.

(** X13. Entries that follow each other with the same prefix and distinct
    suffixes, none of them [__key__], [__url__] or [__bad__], make exactly
    one sample: the key, the url of the first entry, then one field per
    entry, in order, under its suffix. *)
Theorem one_prefix_one_sample
    (keys : string -> option (string * string)) (lcase : bool) (prefix : string)
    (first : filesample) (rest : list filesample) (s0 : string) (sfx : list string) :
  Forall2 (fun f s => prefix_of keys f = Some prefix /\
                      suffix_of keys lcase f = Some s)
          (first :: rest) (s0 :: sfx) ->
  NoDup (s0 :: sfx) ->
  Forall (fun s => reserved s = false) (s0 :: sfx) ->
  group_by_keys_nothrow (first :: rest) keys lcase None
  = [header prefix (url first)
     ++ List.map (fun fs => (snd fs, VBytes (data (fst fs))))
          (combine (first :: rest) (s0 :: sfx))].
Proof.
  intros HF Hnd Hres. unfold group_by_keys_nothrow.
  inversion HF as [|? ? ? ? [Hp Hs] HF']; subst.
  inversion Hnd as [|? ? Hnotin Hnd']; subst.
  inversion Hres as [|? ? Hr0 Hres']; subst.
  destruct (reserved_false s0 Hr0) as (Hk0 & Hu0 & Hb0).
  cbn [group_loop]. unfold prefix_of in Hp. unfold suffix_of in Hs.
  destruct (keys (fname first)) as [[p raw]|]; [|discriminate].
  injection Hp as ->. injection Hs as Hs. rewrite Hs.
  cbn [flush app].
  assert (Hm0 : dict_mem (header prefix (url first)) s0 = false)
    by (apply header_fresh; assumption).
  change [("__key__"%string, VStr prefix); ("__url__"%string, VStr (url first))]
    with (header prefix (url first)).
  rewrite (dict_set_new _ s0 _ Hm0).
  rewrite (group_loop_one_group keys lcase prefix rest _ sfx HF' Hnd').
  - cbn [combine List.map fst snd]. rewrite <- app_assoc. reflexivity.
  - rewrite Forall_forall in *. intros s' Hin.
    destruct (reserved_false s' (Hres' s' Hin)) as (Hk & Hu & Hb).
    split; [|assumption]. rewrite dict_mem_app, header_fresh by assumption.
    cbn [orb]. apply String.eqb_neq. intros ->. contradiction.
  - reflexivity.
  - apply dict_get_app_none; [reflexivity|congruence].
Qed.

Lemma flush_single (p u s x : string) :
  s <> "__bad__"%string ->
  flush (Some (header p u ++ [(s, VBytes x)])) = [header p u ++ [(s, VBytes x)]].
Proof.
  intros Hb. apply live_valid. split; [discriminate|].
  apply dict_get_app_none; [reflexivity|assumption].
Qed.

(** X14. A suffix that comes again under the same prefix is never merged
    into the sample being built nor raised as an error: entries that all
    have the same prefix and the same suffix make one sample each, with the
    url of their own shard. *)
Theorem repeated_suffix_starts_new_sample
    (keys : string -> option (string * string)) (lcase : bool)
    (prefix s : string) (files : list filesample) :
  Forall (fun f => prefix_of keys f = Some prefix /\
                   suffix_of keys lcase f = Some s) files ->
  reserved s = false ->
  group_by_keys_nothrow files keys lcase None
  = List.map (fun f => header prefix (url f) ++ [(s, VBytes (data f))]) files.
Proof.
  intros HF Hr. destruct (reserved_false s Hr) as (Hk & Hu & Hb).
  unfold group_by_keys_nothrow.
  assert (Hm0 : forall u, dict_mem (header prefix u) s = false)
    by (intros u; apply header_fresh; assumption).
  enough (H : forall current,
             match current with
             | Some d => exists u x, d = header prefix u ++ [(s, VBytes x)]
             | None => True
             end ->
             group_loop keys lcase None files current
             = match current with Some d => [d] | None => [] end
               ++ List.map (fun f => header prefix (url f) ++ [(s, VBytes (data f))])
                    files)
    by (apply (H None); exact I).
  induction HF as [|f rest [Hp Hs] _ IH]; intros current Hc.
  - cbn [group_loop List.map]. rewrite app_nil_r.
    destruct current as [d|]; [|reflexivity].
    destruct Hc as (u & x & ->). apply flush_single; assumption.
  - cbn [group_loop List.map]. unfold prefix_of in Hp. unfold suffix_of in Hs.
    destruct (keys (fname f)) as [[p raw]|]; [|discriminate].
    injection Hp as ->. injection Hs as Hs. rewrite Hs.
    change [("__key__"%string, VStr prefix); ("__url__"%string, VStr (url f))]
      with (header prefix (url f)).
    destruct current as [d|].
    + destruct Hc as (u & x & ->).
      assert (Hin : dict_mem (header prefix u ++ [(s, VBytes x)]) s = true)
        by (rewrite dict_mem_app, String.eqb_refl; apply orb_true_r).
      rewrite Hin, orb_true_r, (flush_single prefix u s x Hb).
      rewrite (dict_set_new _ s _ (Hm0 (url f))).
      rewrite IH by eauto. reflexivity.
    + rewrite (dict_set_new _ s _ (Hm0 (url f))).
      rewrite IH by eauto. reflexivity.
Qed.

Example group_two_parts :
  group_by_keys_nothrow two_parts base_plus_ext true None
  = [header "dir/x" "s.tar" ++ [("jpg", VBytes "picture"); ("txt", VBytes "caption")]%string].
Proof. reflexivity. Qed.

Lemma grouping_keeps_every_payload_witness :
  (forall f, In f two_parts ->
             suffix_of base_plus_ext true f <> Some "__bad__"%string) /\
  flat_map payloads (group_by_keys_nothrow two_parts base_plus_ext true None)
  = List.map data (filter (has_key base_plus_ext) two_parts).
Proof.
  assert (H : forall f, In f two_parts ->
                        suffix_of base_plus_ext true f <> Some "__bad__"%string).
  { intros f [<-|[<-|[]]]; discriminate. }
  split; [exact H|].
  exact (grouping_keeps_every_payload base_plus_ext true two_parts H).
Defined.

Lemma one_prefix_one_sample_witness :
  (Forall2 (fun f s => prefix_of base_plus_ext f = Some "dir/x"%string /\
                       suffix_of base_plus_ext true f = Some s)
           two_parts ["jpg"; "txt"]%string /\
   NoDup ["jpg"; "txt"]%string /\
   Forall (fun s => reserved s = false) ["jpg"; "txt"]%string) /\
  group_by_keys_nothrow two_parts base_plus_ext true None
  = [header "dir/x" "s.tar"
     ++ List.map (fun fs => (snd fs, VBytes (data (fst fs))))
          (combine two_parts ["jpg"; "txt"]%string)].
Proof.
  assert (H1 : Forall2 (fun f s => prefix_of base_plus_ext f = Some "dir/x"%string /\
                                   suffix_of base_plus_ext true f = Some s)
                 two_parts ["jpg"; "txt"]%string)
    by (repeat constructor).
  assert (H2 : NoDup ["jpg"; "txt"]%string).
  { repeat constructor; cbn; intuition discriminate. }
  assert (H3 : Forall (fun s => reserved s = false) ["jpg"; "txt"]%string)
    by (repeat constructor).
  split; [repeat split; assumption|].
  exact (one_prefix_one_sample base_plus_ext true "dir/x"
           (mk_filesample "dir/x.JPG" "picture" "s.tar")
           [mk_filesample "dir/x.txt" "caption" "s.tar"] "jpg" ["txt"%string]
           H1 H2 H3).
Defined.

Lemma repeated_suffix_starts_new_sample_witness :
  (Forall (fun f => prefix_of base_plus_ext f = Some "x"%string /\
                    suffix_of base_plus_ext true f = Some "jpg"%string)
          same_name_twice /\
   reserved "jpg" = false) /\
  group_by_keys_nothrow same_name_twice base_plus_ext true None
  = [header "x" "s0.tar" ++ [("jpg"%string, VBytes "first")];
     header "x" "s1.tar" ++ [("jpg"%string, VBytes "second")]].
Proof.
  assert (H1 : Forall (fun f => prefix_of base_plus_ext f = Some "x"%string /\
                                suffix_of base_plus_ext true f = Some "jpg"%string)
                 same_name_twice)
    by (repeat constructor).
  split; [split; [exact H1|reflexivity]|].
  exact (repeated_suffix_starts_new_sample base_plus_ext true "x" "jpg"
           same_name_twice H1 eq_refl).
Defined.

End GrouperMore.

(* ===================================================================== *)
(** ** The white-space normalisation *)

Module TextMore.
Import Text TextVocab.

(** What a substitution of white-space runs by one space returns has single
    spaces only, and starts clean when it was called inside a run. *)
Lemma collapse_single_spaced (l : str) :
  forall in_run : bool,
    single_spaced (collapse is_space in_run l) = true /\
    (in_run = true -> starts_clean (collapse is_space in_run l) = true).
Proof.
  induction l as [|c t IH]; intros in_run; [split; reflexivity|].
  cbn [collapse]. destruct (is_space c) eqn:Ec.
  - destruct in_run.
    + apply IH.
    + destruct (IH true) as [Hs Hc]. split; [|discriminate].
      cbn [single_spaced]. change (is_space 32) with true.
      change (32 =? 32) with true. cbn [andb].
      rewrite Hs, (Hc eq_refl). reflexivity.
  - destruct (IH false) as [Hs _]. split.
    + cbn [single_spaced]. rewrite Ec, Hs. reflexivity.
    + intros _. cbn [starts_clean]. rewrite Ec. reflexivity.
Qed.

(** On a text with single spaces only, a substitution of runs of white
    space, or of runs of spaces, changes nothing. *)
Lemma collapse_fixed (p : Z -> bool) (l : str) :
  (forall c, p c = true -> is_space c = true) ->
  forall in_run : bool,
    single_spaced l = true -> (in_run = true -> starts_clean l = true) ->
    collapse p in_run l = l.
Proof.
  intros Hp. induction l as [|c t IH]; intros in_run Hs Hc; [reflexivity|].
  cbn [collapse]. cbn [single_spaced] in Hs. apply andb_true_iff in Hs as [Hh Ht].
  destruct (p c) eqn:Epc.
  - pose proof (Hp c Epc) as Ec. rewrite Ec in Hh.
    apply andb_true_iff in Hh as [Heq Hclean].
    apply Z.eqb_eq in Heq. subst c.
    destruct in_run.
    + specialize (Hc eq_refl). cbn [starts_clean] in Hc. rewrite Ec in Hc. discriminate.
    + f_equal. apply IH; [assumption|intros _; assumption].
  - f_equal. apply IH; [assumption|discriminate].
Qed.

Lemma collapse_keeps_ink (l : str) :
  forall in_run : bool,
    filter (fun c => negb (is_space c)) (collapse is_space in_run l)
    = filter (fun c => negb (is_space c)) l.
Proof.
  induction l as [|c t IH]; intros in_run; [reflexivity|].
  cbn [collapse filter]. destruct (is_space c) eqn:Ec; cbn [negb].
  - destruct in_run; [apply IH|].
    cbn [filter]. change (is_space 32) with true. cbn [negb]. apply IH.
  - cbn [filter]. rewrite Ec. cbn [negb]. f_equal. apply IH.
Qed.

Lemma remove_consecutive_spaces_single_spaced (s : str) :
  single_spaced (remove_consecutive_spaces s) = true.
Proof. unfold remove_consecutive_spaces. apply collapse_single_spaced. Qed.

Lemma space_only_is_space (c : Z) : (32 =? c) = true -> is_space c = true.
Proof. intros H. apply Z.eqb_eq in H. subst c. reflexivity. Qed.

(** The second substitution of [preprocess_sentence] finds nothing left to
    do. *)
Lemma preprocess_sentence_eq (s : str) :
  preprocess_sentence s = remove_consecutive_spaces s.
Proof.
  unfold preprocess_sentence, remove_multiple_newline_limiters.
  apply (collapse_fixed (Z.eqb 32)).
  - exact space_only_is_space.
  - apply remove_consecutive_spaces_single_spaced.
  - discriminate.
Qed.

Lemma preprocess_sentence_single_spaced (s : str) :
  single_spaced (preprocess_sentence s) = true.
Proof.
  rewrite preprocess_sentence_eq. apply remove_consecutive_spaces_single_spaced.
Qed.

Lemma remove_consecutive_spaces_fixed (s : str) :
  single_spaced s = true -> remove_consecutive_spaces s = s.
Proof.
  intros H. unfold remove_consecutive_spaces.
  apply (collapse_fixed is_space); [auto|assumption|discriminate].
Qed.

(** X15. [preprocess_sentence] brings a sentence to a normal form: its
    second substitution never changes what the first returns; what comes out
    has no white space other than single spaces, and the same characters
    that are not white space, in the same order; applied again it changes
    nothing.  White space is what [\s] matches on a [str], beyond ASCII
    too. *)
Theorem preprocess_sentence_normal_form (s : str) :
  preprocess_sentence s = remove_consecutive_spaces s /\
  single_spaced (preprocess_sentence s) = true /\
  ink (preprocess_sentence s) = ink s /\
  preprocess_sentence (preprocess_sentence s) = preprocess_sentence s.
Proof.
  split; [apply preprocess_sentence_eq|].
  split; [apply preprocess_sentence_single_spaced|].
  split.
  - rewrite preprocess_sentence_eq. unfold ink, remove_consecutive_spaces.
    apply collapse_keeps_ink.
  - rewrite (preprocess_sentence_eq (preprocess_sentence s)).
    apply remove_consecutive_spaces_fixed, preprocess_sentence_single_spaced.
Qed.

Example preprocess_sentence_tabs_and_newlines :
  preprocess_sentence (lit "  a	 b

c ") = lit " a b c ".
Proof. reflexivity. Qed.

(** [a], a no-break space, a next line, an em space, [b]. *)
Example preprocess_sentence_beyond_ascii :
  preprocess_sentence [97; 160; 133; 8195; 98] = [97; 32; 98].
Proof. reflexivity. Qed.

(** [str.strip()] strips the same white space. *)
Example strip_beyond_ascii :
  strip [160; 32; 233; 32; 98; 8195; 10] = [233; 32; 98].
Proof. reflexivity. Qed.

End TextMore.

(* ===================================================================== *)
(** ** The interleaved preprocessor, step by step *)

Module InterleavedMore.
Import Interleaved InterleavedSpec InterleavedVocab InterleavedFacts.

Section WithTable.
Variable isalnum : Z -> bool.

Lemma not_all_punctuation (l : Text.str) :
  forallb (fun c => negb (Text.is_word isalnum c)) l = false ->
  existsb (Text.is_word isalnum) l = true.
Proof.
  induction l as [|c t IH]; cbn; [discriminate|].
  destruct (Text.is_word isalnum c); cbn; [reflexivity|exact IH].
Qed.

(** A sentence that is neither empty nor made of punctuation has a word
    character. *)
Lemma has_word_of_not_punctuation (s : Text.str) :
  s <> [] -> Text.is_punctuation isalnum s = false ->
  TextVocab.has_word isalnum s = true.
Proof.
  intros Hne Hp. unfold Text.is_punctuation in Hp. unfold TextVocab.has_word.
  destruct s as [|c t]; [congruence|].
  now apply not_all_punctuation.
Qed.

Lemma is_empty_text_false (s : Text.str) :
  is_empty_text (Text s) = false -> s <> [].
Proof. destruct s; [discriminate|discriminate]. Qed.

Lemma kept_picture (im : image) (f : Z) :
  flag_set f = true -> kept_entry isalnum (Picture im, f).
Proof. intros H. exact H. Qed.

Lemma kept_flagged_text (s : Text.str) (f : Z) :
  flag_set f = true -> is_empty_text (Text s) = false ->
  kept_entry isalnum (Text s, f).
Proof.
  intros Hf He. split; [now apply is_empty_text_false|].
  cbn [snd]. rewrite Hf. discriminate.
Qed.

Lemma kept_sentence (s : Text.str) (f : Z) :
  is_empty_text (Text (Text.preprocess_sentence s)) = false ->
  Text.is_punctuation isalnum (Text.preprocess_sentence s) = false ->
  kept_entry isalnum (Text (Text.preprocess_sentence s), f).
Proof.
  intros He Hp. apply is_empty_text_false in He. split; [assumption|].
  intros _. split.
  - now apply has_word_of_not_punctuation.
  - apply TextMore.preprocess_sentence_single_spaced.
Qed.

(** The three passes of [preprocess_sentences] together: the only way out
    with an exception is a picture under a cleared flag; otherwise the two
    lists that come out of the last pass have one length, whatever the
    lengths that went in. *)
Lemma sentence_passes (il : list item) :
  forall fl : list Z,
    match normalize_sentences il fl with
    | Raise e => e = TypeError
    | Ok il1 =>
        match remove_punctuation_based_sentences isalnum il1 fl with
        | Raise e => e = TypeError
        | Ok il2 =>
            length (fst (filter_out_empty_sentences il2 fl))
            = length (snd (filter_out_empty_sentences il2 fl)) /\
            Forall (kept_entry isalnum)
              (combine (fst (filter_out_empty_sentences il2 fl))
                       (snd (filter_out_empty_sentences il2 fl)))
        end
    end.
Proof.
  induction il as [|x il IH]; intros fl.
  - cbn. split; [reflexivity|constructor].
  - destruct fl as [|f fl].
    + cbn. split; [reflexivity|constructor].
    + specialize (IH fl). cbn [normalize_sentences].
      destruct (normalize_sentences il fl) as [il1|e]; cbn [bind]; [|exact IH].
      destruct (flag_set f) eqn:Ef; cbn [negb].
      * cbn [remove_punctuation_based_sentences].
        destruct (remove_punctuation_based_sentences isalnum il1 fl) as [il2|e];
          cbn [bind]; [|exact IH].
        rewrite Ef. cbn [negb filter_out_empty_sentences].
        destruct (filter_out_empty_sentences il2 fl) as [a b].
        cbn [fst snd] in IH. destruct IH as [Hl Hk].
        destruct (is_empty_text x) eqn:Ee; cbn [negb fst snd].
        -- split; assumption.
        -- split; [cbn; now rewrite Hl|]. cbn [combine]. constructor; [|assumption].
           destruct x as [s|im]; [now apply kept_flagged_text|now apply kept_picture].
      * destruct x as [s|im]; [|reflexivity].
        cbn [remove_punctuation_based_sentences].
        destruct (remove_punctuation_based_sentences isalnum il1 fl) as [il2|e];
          cbn [bind]; [|exact IH].
        rewrite Ef. cbn [negb].
        destruct (Text.is_punctuation isalnum (Text.preprocess_sentence s)) eqn:Ep;
          cbn [filter_out_empty_sentences];
          destruct (filter_out_empty_sentences il2 fl) as [a b];
          cbn [fst snd] in IH; destruct IH as [Hl Hk].
        -- cbn. split; assumption.
        -- destruct (is_empty_text (Text (Text.preprocess_sentence s))) eqn:Ee;
             cbn [negb fst snd].
           ++ split; assumption.
           ++ split; [cbn; now rewrite Hl|]. cbn [combine].
              constructor; [|assumption]. now apply kept_sentence.
Qed.

(** X16. The assertion of [preprocess_sentences] can never fail, even on
    lists of different lengths: the call either returns, and then the count
    is the length of both lists, no text left is empty, every sentence left
    under a cleared flag has a word character and single spaces only, and
    every picture left is under a set flag; or it raises [TypeError], which
    it does not when pictures and set flags go together. *)
Theorem preprocess_sentences_never_asserts (il : list item) (fl : list Z) :
  match preprocess_sentences isalnum il fl with
  | Ok (n, il', fl') =>
      n = Z.of_nat (length il') /\ length il' = length fl' /\
      Forall (kept_entry isalnum) (combine il' fl')
  | Raise e => e = TypeError
  end
  /\ (flags_agree il fl -> exists r, preprocess_sentences isalnum il fl = Ok r).
Proof.
  split.
  - unfold preprocess_sentences. pose proof (sentence_passes il fl) as H.
    destruct (normalize_sentences il fl) as [il1|e]; cbn [bind]; [|exact H].
    destruct (remove_punctuation_based_sentences isalnum il1 fl) as [il2|e];
      cbn [bind]; [|exact H].
    destruct (filter_out_empty_sentences il2 fl) as [a b].
    cbn [fst snd] in H. destruct H as [Hl Hk].
    rewrite Hl, Nat.eqb_refl. cbn [negb].
    repeat split; [now rewrite Hl|assumption|assumption].
  - intros Hag. unfold preprocess_sentences.
    destruct (normalize_sentences_spec il fl Hag) as (il2 & -> & Hag2 & _).
    cbn [bind].
    destruct (remove_punctuation_spec isalnum il2 fl Hag2) as (il3 & -> & Hag3 & _).
    cbn [bind].
    destruct (filter_out_empty_sentences_spec il3 fl Hag3) as (Hl4 & _).
    destruct (filter_out_empty_sentences il3 fl) as [il4 fl4]. cbn [fst snd] in *.
    rewrite Hl4, Nat.eqb_refl. cbn [negb]. eexists; reflexivity.
Qed.

End WithTable.

Example preprocess_sentences_drops_blanks :
  preprocess_sentences UnicodeSpec.latin1_isalnum
    [Text (Text.lit " a   b "); Text (Text.lit "..."); Picture (photo 1);
     Text (Text.lit "   "); Text (Text.lit "x"); Text (Text.lit "y")]
    [0; 0; 1; 0; 0]
  = Ok (3, [Text (Text.lit " a b "); Picture (photo 1); Text (Text.lit "x")],
        [0; 1; 0]).
Proof. reflexivity. Qed.

(** An accented letter is a sentence; a no-break space and an ideographic
    full stop are not. *)
Example preprocess_sentences_beyond_ascii :
  preprocess_sentences UnicodeSpec.latin1_isalnum
    [Text [233]; Text [160]; Text [12290]; Text [46; 46; 46]] [0; 0; 0; 0]
  = Ok (1, [Text [233]], [0]).
Proof. reflexivity. Qed.

Lemma preprocess_sentences_never_asserts_witness :
  flags_agree [Text (Text.lit " a  b"); Picture (photo 1); Text (Text.lit "?")]
    [0; 1; 0] /\
  exists r,
    preprocess_sentences UnicodeSpec.latin1_isalnum
      [Text (Text.lit " a  b"); Picture (photo 1); Text (Text.lit "?")] [0; 1; 0]
    = Ok r.
Proof.
  assert (H : flags_agree
                [Text (Text.lit " a  b"); Picture (photo 1); Text (Text.lit "?")]
                [0; 1; 0]).
  { cbn. repeat split. }
  split; [exact H|].
  exact (proj2 (preprocess_sentences_never_asserts UnicodeSpec.latin1_isalnum
                  [Text (Text.lit " a  b"); Picture (photo 1); Text (Text.lit "?")]
                  [0; 1; 0]) H).
Defined.

Section WithParse.
Variable isalnum : Z -> bool.
Variable parse_image : Text.str -> result image.
Variable text_tokenizer : Text.Tokenizer.

Lemma first_decode_error_raised (il : list Text.str) :
  forall (fl : list Z) (n0 : Z) (e : exn),
    first_decode_error parse_image il fl = Some e ->
    remove_unwanted_images_from parse_image n0 il fl = Raise e.
Proof.
  induction il as [|x il IH]; intros fl n0 e; [discriminate|].
  destruct fl as [|f fl]; [discriminate|].
  cbn [first_decode_error remove_unwanted_images_from].
  destruct (flag_set f).
  - destruct (parse_image x) as [im|e']; cbn [bind].
    + intros H. rewrite (IH _ _ _ H). reflexivity.
    + now intros [= ->].
  - intros H. rewrite (IH _ _ _ H). reflexivity.
Qed.

Lemma no_decode_error (il : list Text.str) :
  forall fl : list Z,
    first_decode_error parse_image il fl = None ->
    all_decode parse_image il fl = true.
Proof.
  induction il as [|x il IH]; intros fl; [reflexivity|].
  destruct fl as [|f fl]; [reflexivity|].
  cbn [first_decode_error all_decode].
  destruct (flag_set f); [|exact (IH fl)].
  destruct (parse_image x); [exact (IH fl)|discriminate].
Qed.

(** X17. The whole outcome of [preprocess_interleaved_sample]: it raises
    the exception of the first flagged entry that does not decode; when all
    decode and no picture passes the size filter it raises [ValueError("No
    images in sample")]; in every other case it returns, with the first five
    such pictures and zeros.  So it never raises [ValueError("No sentences
    in sample")], nor any of its two assertions. *)
Theorem interleaved_outcome (doc : document) :
  match first_decode_error parse_image (interleaved_list doc) (is_image doc) with
  | Some e => preprocess_interleaved_sample isalnum parse_image text_tokenizer doc = Raise e
  | None =>
      match wanted_images parse_image (interleaved_list doc) (is_image doc) with
      | [] => preprocess_interleaved_sample isalnum parse_image text_tokenizer doc
              = Raise (ValueError "No images in sample")
      | w => exists text_tensor,
               preprocess_interleaved_sample isalnum parse_image text_tokenizer doc
               = Ok (image_tensor_of w, text_tensor)
      end
  end.
Proof.
  destruct (first_decode_error _ _ _) as [e|] eqn:Ed.
  - unfold preprocess_interleaved_sample, remove_unwanted_images.
    rewrite (first_decode_error_raised _ _ 0 e Ed). reflexivity.
  - apply no_decode_error in Ed.
    destruct (wanted_images _ _ _) as [|im w] eqn:Ew.
    + now apply interleaved_rejects_no_images.
    + rewrite <- Ew. apply interleaved_accepts; [assumption|].
      rewrite Ew. discriminate.
Qed.

Lemma remove_unwanted_images_from_shape (il : list Text.str) :
  forall (fl : list Z) (n0 n : Z) (il' : list item) (fl' : list Z),
    remove_unwanted_images_from parse_image n0 il fl = Ok (n, il', fl') ->
    length il' = length il /\ length fl' = length fl /\
    Forall2 kept_or_cleared fl fl'.
Proof.
  assert (Hrefl : forall l, Forall2 kept_or_cleared l l).
  { induction l; constructor; [now left|assumption]. }
  induction il as [|x il IH]; intros fl n0 n il' fl'.
  - cbn. intros [= <- <- <-]. auto.
  - destruct fl as [|f fl].
    + cbn. intros [= <- <- <-]. cbn [length]. rewrite length_map. auto.
    + cbn [remove_unwanted_images_from].
      destruct (flag_set f).
      * destruct (parse_image x) as [im|]; cbn [bind]; [|discriminate].
        destruct (remove_unwanted_images_from parse_image _ il fl)
          as [[[n1 il1] fl1]|] eqn:E; cbn [bind]; [|discriminate].
        destruct (IH _ _ _ _ _ E) as (H1 & H2 & H3).
        destruct (is_unwanted_image im || _); intros [= <- <- <-]; cbn [length];
          (split; [now rewrite H1|]); (split; [now rewrite H2|]);
          constructor; try assumption; [now right|now left].
      * destruct (remove_unwanted_images_from parse_image _ il fl)
          as [[[n1 il1] fl1]|] eqn:E; cbn [bind]; [|discriminate].
        destruct (IH _ _ _ _ _ E) as (H1 & H2 & H3).
        intros [= <- <- <-]; cbn [length].
        split; [now rewrite H1|]. split; [now rewrite H2|].
        constructor; [now left|assumption].
Qed.

(** X18. What [remove_unwanted_images] returns: the count is the number of
    pictures that pass the size filter, all of them, also beyond the fifth;
    the pictures left in the list are the first five of them, each under a
    set flag; both lists keep their lengths, and a flag is only ever kept
    or cleared. *)
Theorem remove_unwanted_images_contract (il : list Text.str) (fl : list Z)
    (n : Z) (il' : list item) (fl' : list Z) :
  remove_unwanted_images parse_image il fl = Ok (n, il', fl') ->
  n = Z.of_nat (length (wanted_images parse_image il fl)) /\
  pictures il' fl' = firstn 5 (wanted_images parse_image il fl) /\
  flags_agree il' fl' /\
  length il' = length il /\ length fl' = length fl /\
  Forall2 kept_or_cleared fl fl'.
Proof.
  unfold remove_unwanted_images. intros H.
  pose proof (remove_unwanted_images_from_decodes parse_image il fl 0 _ H) as Hdec.
  destruct (remove_unwanted_images_from_spec parse_image il fl 0 ltac:(lia) Hdec)
    as (il1 & fl1 & E & Hag & Hpic).
  rewrite E in H. injection H as <- <- <-.
  destruct (remove_unwanted_images_from_shape il fl 0 _ _ _ E) as (H1 & H2 & H3).
  repeat split; assumption.
Qed.

End WithParse.

Lemma interleaved_outcome_witness :
  exists text_tensor,
    preprocess_interleaved_sample UnicodeSpec.latin1_isalnum example_parse
      example_tokenizer picture_only
    = Ok (image_tensor_of [photo 1], text_tensor).
Proof.
  exact (interleaved_outcome UnicodeSpec.latin1_isalnum example_parse
           example_tokenizer picture_only).
Defined.

Lemma remove_unwanted_images_contract_witness :
  exists il' fl',
    remove_unwanted_images example_parse (interleaved_list photos_and_icons)
      (is_image photos_and_icons) = Ok (7, il', fl') /\
    pictures il' fl' = [photo 1; photo 2; photo 3; photo 4; photo 5] /\
    fl' = [1; 0; 1; 1; 0; 1; 1; 0; 0; 0].
Proof.
  eexists _, _. split; [reflexivity|].
  split; [|reflexivity].
  exact (proj1 (proj2 (remove_unwanted_images_contract example_parse
                         (interleaved_list photos_and_icons)
                         (is_image photos_and_icons) _ _ _ eq_refl))).
Defined.

End InterleavedMore.

(* ===================================================================== *)
(** ** The cap on the replaced sentences *)

Module PileMore.
Import Pile PileFacts.

Section WithTorch.
Context {TR : TorchRandom}.

(** X19. The cap on the replaced sentences only clears marks: every
    sentence marked after the cap was marked by the draw, the number of
    sentences is unchanged, and when the draw marks at most ten sentences
    the cap changes nothing. *)
Theorem cap_marks_only_clears (marks : list bool) :
  Forall2 (fun before after => after = true -> before = true)
          marks (cap_marks marks) /\
  (count_true marks <= 10 -> cap_marks marks = marks).
Proof.
  unfold cap_marks. split.
  - destruct (10 <? count_true marks); [apply unmark_clears|].
    induction marks; constructor; auto.
  - intros H. apply Z.ltb_ge in H. now rewrite H.
Qed.

End WithTorch.

Lemma cap_marks_only_clears_witness :
  count_true (repeat true 3) <= 10 /\
  cap_marks (TR := MarkAll) (repeat true 3) = repeat true 3.
Proof.
  assert (H : count_true (repeat true 3) <= 10) by (vm_compute; discriminate).
  split; [exact H|].
  exact (proj2 (cap_marks_only_clears (TR := MarkAll) (repeat true 3)) H).
Defined.

Example cap_marks_keeps_ten :
  cap_marks (TR := MarkAll) (repeat true 12)
  = [false; false] ++ repeat true 10.
Proof. reflexivity. Qed.

End PileMore.

(* ===================================================================== *)
(** ** The filter of the image-caption pipeline and the fields it asks for *)

Module PipelinesMore.
Import Stages Pipelines Grouper.

Lemma getfirst_one (repr : list string -> string) (s : sample) (k : string) :
  getfirst repr s [k]
  = match dict_get s k with
    | Some v => Ok v
    | None => Raise (ValueError ("didn't find " ++ repr [k] ++ " in "
                                   ++ repr (List.map fst s)))
    end.
Proof. unfold getfirst. cbn. destruct (dict_get s k); reflexivity. Qed.

(** X20. [filter_no_caption_or_no_image] lets through exactly the samples
    from which the [to_tuple("jpg;png;jpeg", "txt")] stage can take its two
    fields; the picture taken is the [jpg] field when there is one, else the
    [png] field, else the [jpeg] field, whatever their order in the
    sample. *)
Theorem filter_matches_to_tuple (repr : list string -> string) (s : sample) :
  (filter_no_caption_or_no_image s = true
   <-> exists r, to_tuple_image_text repr s = Ok r) /\
  (forall i t, to_tuple_image_text repr s = Ok (i, t) ->
     dict_get s "txt" = Some t /\
     Some i = match dict_get s "jpg", dict_get s "png" with
              | Some v, _ => Some v
              | None, Some v => Some v
              | None, None => dict_get s "jpeg"
              end).
Proof.
  unfold filter_no_caption_or_no_image, to_tuple_image_text, dict_mem.
  rewrite getfirst_one. unfold getfirst. cbn [getfirst_from].
  destruct (dict_get s "jpg") as [j|]; destruct (dict_get s "png") as [p|];
    destruct (dict_get s "jpeg") as [e|]; destruct (dict_get s "txt") as [t|];
    cbn [bind andb orb]; split;
    try (split; [intros _; eexists; reflexivity|reflexivity]);
    try (split; [discriminate|intros [r H]; discriminate]);
    try (intros i' t' [= <- <-]; split; reflexivity);
    try (intros i' t' H; discriminate).
Qed.

Lemma filter_matches_to_tuple_witness :
  filter_no_caption_or_no_image RejectionSpec.blank_caption = true /\
  exists r,
    to_tuple_image_text StagesSpec.plain_repr RejectionSpec.blank_caption = Ok r.
Proof.
  split; [reflexivity|].
  exact (proj1 (proj1 (filter_matches_to_tuple StagesSpec.plain_repr
                         RejectionSpec.blank_caption)) eq_refl).
Defined.

Example png_before_jpg_in_the_sample :
  to_tuple_image_text StagesSpec.plain_repr
    [("__key__", VStr "a"); ("png", VBytes "p"); ("txt", VBytes "t");
     ("jpg", VBytes "j")]%string
  = Ok (VBytes "j", VBytes "t").
Proof. reflexivity. Qed.

Example no_picture_in_the_sample :
  to_tuple_image_text StagesSpec.plain_repr
    [("__key__", VStr "a"); ("__url__", VStr "s.tar"); ("txt", VBytes "t")]%string
  = Raise (ValueError
             "didn't find ['jpg', 'png', 'jpeg'] in ['__key__', '__url__', 'txt']").
Proof. reflexivity. Qed.

End PipelinesMore.

(* ===================================================================== *)
(** ** Counting the batches of the image-caption loader *)

Module CountingFacts.
Import Stages Counting.

Lemma count_samples_from_pairs (batches : list batch) :
  forall n_elements n_batches : Z,
    Forall (fun b => len_tensor (fst b) = 2) batches ->
    count_samples_from n_elements n_batches batches None
    = Ok (n_elements + 2 * Z.of_nat (length batches),
          n_batches + Z.of_nat (length batches)).
Proof.
  induction batches as [|[images texts] rest IH]; intros n_elements n_batches H.
  - cbn. f_equal. f_equal; lia.
  - inversion H as [|? ? Hb Hr]; subst. cbn [fst] in Hb.
    cbn [count_samples_from]. rewrite Hb. unfold len_pair. cbn [Z.eqb Pos.eqb negb].
    rewrite IH by assumption. f_equal. cbn [length]. f_equal; lia.
Qed.

(** X21. [count_samples] compares the rows of the image tensor with the
    length of the pair [preprocess_text] returns, which is 2: on a loader
    whose batches all hold [n] rows it raises [AssertionError] at the first
    batch unless [n] is 2, however the loader ends; with two rows a batch,
    and a loader that ends normally, it returns twice the number of batches
    and the number of batches. *)
Theorem count_samples_needs_pairs (n : Z) (batches : list batch)
    (tail : option exn) :
  Forall (fun b => len_tensor (fst b) = n) batches ->
  (n <> 2 -> batches <> [] ->
   count_samples (batches, tail) = Raise (AssertionError "")) /\
  (n = 2 -> tail = None ->
   count_samples (batches, tail)
   = Ok (2 * Z.of_nat (length batches), Z.of_nat (length batches))).
Proof.
  intros H. unfold count_samples, items, escaped. cbn [fst snd]. split.
  - intros Hn Hne. destruct batches as [|[images texts] rest]; [congruence|].
    inversion H as [|? ? Hb Hr]; subst. cbn [fst] in Hn |- *.
    cbn [count_samples_from]. unfold len_pair.
    apply Z.eqb_neq in Hn. rewrite Hn. reflexivity.
  - intros -> ->. rewrite count_samples_from_pairs by assumption.
    f_equal.
Qed.

Lemma count_samples_needs_pairs_witness :
  Forall (fun b => len_tensor (fst b) = 2)
    [CountingVocab.pair_of_rows 1; CountingVocab.pair_of_rows 2;
     CountingVocab.pair_of_rows 3] /\
  count_samples ([CountingVocab.pair_of_rows 1; CountingVocab.pair_of_rows 2;
                  CountingVocab.pair_of_rows 3], None) = Ok (6, 3).
Proof.
  assert (H : Forall (fun b => len_tensor (fst b) = 2)
                [CountingVocab.pair_of_rows 1; CountingVocab.pair_of_rows 2;
                 CountingVocab.pair_of_rows 3]).
  { repeat constructor. }
  split; [exact H|].
  exact (proj2 (count_samples_needs_pairs 2 _ None H) eq_refl eq_refl).
Defined.

End CountingFacts.

(* ===================================================================== *)
(** ** The three constructors *)

Module ConstructorsFacts.
Import Construction Constructors.

Section WithRandom.
Context {PR : PyRandom}.
Variable braceexpand : string -> list string.

Lemma get_wds_dataset_refactored (fs : ShardStats.filesystem) (entropy : rng)
    (args : Args) (epoch : Z) (floor : bool) :
  get_wds_dataset braceexpand fs entropy args epoch floor
  = get_interleaved_dataset braceexpand fs entropy args epoch floor.
Proof.
  unfold get_wds_dataset, get_interleaved_dataset, ShardStats.get_shard_stats,
    prepare_dataloader, Driver.recompute_samples_stats.
  destruct (ShardStats.get_dataset_size braceexpand fs (shards args))
    as [total num_shards].
  cbn [ShardStats.falsy].
  destruct (train_num_samples args) as [n|]; cbn [ShardStats.falsy]; [|reflexivity].
  destruct (n =? 0); cbn [bind]; [reflexivity|].
  destruct (dataset_resampled args); cbn [negb].
  - destruct (Resampled.init _ _ _ _ _) as [src|e]; cbn [bind]; [|reflexivity].
    destruct (PyFloat.true_div n _) as [f1|e]; cbn [bind]; [|reflexivity].
    destruct (PyFloat.true_div _ _) as [f2|e]; cbn [bind]; [|reflexivity].
    destruct (WebLoader_init (workers args)); reflexivity.
  - destruct (_ <=? num_shards); cbn [bind]; [|reflexivity].
    destruct (PyFloat.true_div n _) as [f1|e]; cbn [bind]; [|reflexivity].
    destruct (PyFloat.true_div _ _) as [f2|e]; cbn [bind]; [|reflexivity].
    destruct (WebLoader_init (workers args)); reflexivity.
Qed.

Lemma get_pile_dataset_refactored (fs : ShardStats.filesystem) (entropy : rng)
    (args : Args) (epoch : Z) (floor : bool) :
  get_pile_dataset braceexpand fs entropy args epoch floor
  = get_interleaved_dataset braceexpand fs entropy args epoch floor.
Proof.
  rewrite <- get_wds_dataset_refactored. reflexivity.
Qed.

(** X22. The three dataset constructors agree on the loader: from the same
    arguments, [get_wds_dataset] and [get_pile_dataset], with their inlined
    size check and counts, raise the same exception as
    [get_interleaved_dataset], or return the same shard source, epoch cell
    and counts; [get_data] hands over to one of them for the types
    [image_text], [pile] and [interleaved], with ceil rounding, and raises
    [ValueError] for every other type. *)
Theorem constructors_agree (fs : ShardStats.filesystem) (entropy : rng)
    (args : Args) (epoch : Z) (floor : bool) (dataset_type : string) :
  get_wds_dataset braceexpand fs entropy args epoch floor
  = get_interleaved_dataset braceexpand fs entropy args epoch floor /\
  get_pile_dataset braceexpand fs entropy args epoch floor
  = get_interleaved_dataset braceexpand fs entropy args epoch floor /\
  get_data braceexpand dataset_type fs entropy args epoch
  = if existsb (String.eqb dataset_type) ["image_text"; "pile"; "interleaved"]%string
    then get_interleaved_dataset braceexpand fs entropy args epoch false
    else Raise (ValueError ("Unsupported dataset type: " ++ dataset_type)).
Proof.
  split; [apply get_wds_dataset_refactored|].
  split; [apply get_pile_dataset_refactored|].
  unfold get_data, get_dataset_fn. cbn [existsb].
  destruct (String.eqb dataset_type "image_text"); cbn [bind orb];
    [apply get_wds_dataset_refactored|].
  destruct (String.eqb dataset_type "pile"); cbn [bind orb];
    [apply get_pile_dataset_refactored|].
  destruct (String.eqb dataset_type "interleaved"); reflexivity.
Qed.

End WithRandom.

Lemma constructors_agree_witness :
  get_data (PR := Lcg) four_shards "pile" no_files 7 resampled_args 0
  = get_interleaved_dataset (PR := Lcg) four_shards no_files 7 resampled_args 0 false.
Proof.
  exact (proj2 (proj2 (constructors_agree (PR := Lcg) four_shards no_files 7
                         resampled_args 0 false "pile"))).
Defined.

End ConstructorsFacts.

(* ===================================================================== *)
(** ** A sample without the field a pipeline asks for *)

Module StreamEnds.
Import Stages StagesSpec StagesFacts Pipelines PipelinesVocab.

(** Under [reraise_exception] the first sample on which [f] raises ends the
    stage with that exception; the samples before it have gone through. *)
Lemma map_reraise_stops {A B : Type} (f : A -> result B)
    (before after : list A) (bad : A) (e : exn) (tail : option exn) :
  Forall (fun x => exists y, f x = Ok y) before -> f bad = Raise e ->
  _map f reraise_exception (before ++ bad :: after) tail
  = (successes f before, Some e).
Proof.
  intros Hb Hbad. induction Hb as [|x before [y Hx] Hb IH]; cbn.
  - rewrite Hbad. reflexivity.
  - rewrite Hx, IH. cbn. reflexivity.
Qed.

Lemma map_identity {A : Type} (h : handler) (data : list A) (tail : option exn) :
  _map (fun x => Ok x) h data tail = (data, tail).
Proof.
  induction data as [|x rest IH]; cbn; [reflexivity|]. rewrite IH. reflexivity.
Qed.

(** A batching stage ends the way its input ends. *)
Lemma batched_ends_as_input {A : Type} (batchsize : Z) (partial : bool)
    (data : list A) (tail : option exn) :
  forall batch, snd (_batched batchsize partial data tail batch) = tail.
Proof.
  induction data as [|x rest IH]; intros batch; cbn.
  - destruct tail; [reflexivity|].
    destruct (Nat.eqb (length batch) 0); [reflexivity|].
    destruct ((Z.of_nat (length batch) =? batchsize) || partial); reflexivity.
  - destruct (batchsize <=? Z.of_nat (length batch)); cbn; apply IH.
Qed.

(** When the input ends with an exception, the batches emitted are the
    input cut in order, and the batch being filled, full or not, is lost. *)
Lemma batched_interrupted {A : Type} (batchsize : Z) (data : list A) (e : exn) :
  0 < batchsize ->
  forall batch,
    Z.of_nat (length batch) <= batchsize ->
    exists leftover,
      batch ++ data
      = concat (fst (_batched batchsize false data (Some e) batch)) ++ leftover
      /\ Z.of_nat (length leftover) <= batchsize.
Proof.
  intros Hbs. induction data as [|x rest IH]; intros batch Hb; cbn.
  - exists batch. rewrite app_nil_r. split; [reflexivity|assumption].
  - destruct (batchsize <=? Z.of_nat (length batch)) eqn:E.
    + destruct (IH [x] ltac:(cbn; lia)) as (leftover & Hc & Hl).
      cbn. exists leftover. rewrite <- app_assoc, <- Hc. split; [reflexivity|assumption].
    + apply Z.leb_gt in E.
      destruct (IH (batch ++ [x]) ltac:(rewrite length_app; cbn; lia))
        as (leftover & Hc & Hl).
      exists leftover. rewrite <- Hc, <- app_assoc. split; [reflexivity|assumption].
Qed.

Lemma successes_compose {A B C : Type} (g : A -> result B) (f : B -> result C)
    (data : list A) :
  successes f (successes g data) = successes (fun x => y <- g x ;; f y) data.
Proof.
  unfold successes. induction data as [|x rest IH]; cbn; [reflexivity|].
  destruct (g x) as [y|e]; cbn; [|exact IH].
  rewrite IH. reflexivity.
Qed.

Section WithRepr.
Variable repr : list string -> string.

Lemma getfirst_present (field : string) (before : list Grouper.sample) :
  Forall (fun s => Grouper.dict_mem s field = true) before ->
  Forall (fun s => exists v, getfirst repr s [field] = Ok v) before.
Proof.
  intros H. eapply Forall_impl; [|exact H]. cbn. intros s Hs.
  unfold Grouper.dict_mem in Hs. unfold getfirst. cbn [getfirst_from].
  destruct (Grouper.dict_get s field); [eauto|discriminate].
Qed.

Lemma getfirst_absent (field : string) (s : Grouper.sample) :
  Grouper.dict_mem s field = false ->
  getfirst repr s [field] = Raise (not_found repr [field] s).
Proof.
  unfold Grouper.dict_mem, getfirst, not_found. cbn [getfirst_from].
  destruct (Grouper.dict_get s field); [discriminate|reflexivity].
Qed.

(** The stages [to_tuple(field)], [map(f, handler=log_and_continue)] and
    [batched], on a stream whose first sample without the field is [bad]. *)
Lemma field_stages_interrupted {Out : Type} (field : string)
    (f : Grouper.value -> result Out) (batchsize : Z)
    (before after : list Grouper.sample) (bad : Grouper.sample)
    (tail : option exn) :
  0 < batchsize ->
  Forall (fun s => Grouper.dict_mem s field = true) before ->
  Grouper.dict_mem bad field = false ->
  let out := batched batchsize false
               (map f log_and_continue
                  (map (fun s => getfirst repr s [field]) reraise_exception
                     (before ++ bad :: after, tail))) in
  escaped out = Some (not_found repr [field] bad) /\
  exists leftover,
    successes (field_then repr field f) before = concat (items out) ++ leftover /\
    Z.of_nat (length leftover) <= batchsize.
Proof.
  intros Hbs Hb Hbad out. subst out.
  assert (E : map (fun s => getfirst repr s [field]) reraise_exception
                (before ++ bad :: after, tail)
              = (successes (fun s => getfirst repr s [field]) before,
                 Some (not_found repr [field] bad))).
  { unfold map, items, escaped. cbn [fst snd].
    apply map_reraise_stops;
      [now apply getfirst_present|now apply getfirst_absent]. }
  rewrite E. unfold map, batched, items, escaped. cbn [fst snd].
  rewrite map_log_and_continue. cbn [fst snd]. split.
  - apply batched_ends_as_input.
  - rewrite successes_compose.
    destruct (batched_interrupted batchsize
                (successes (fun x => y <- getfirst repr x [field] ;; f y) before)
                (not_found repr [field] bad) Hbs [] ltac:(cbn; lia))
      as (leftover & Hc & Hl).
    exists leftover. split; [exact Hc|exact Hl].
Qed.

(** X23. In the interleaved and in the span-masking pipeline one sample
    without the field the pipeline reads ([json], [txt]) ends the stream:
    the [ValueError] of the [to_tuple] stage, which has no handler, escapes,
    with the message that names the field looked for and the fields of the
    sample; the batches emitted are the accepted samples before it cut in
    order, and the batch being filled is lost even when it is full.  The
    image-caption pipeline, whose stages all have a handler, ends the way
    its input ends. *)
Theorem missing_field_ends_the_stream (args : Args)
    (before after : list Grouper.sample) (bad : Grouper.sample)
    (tail : option exn) :
  0 < batch_size args ->
  (forall (Out : Type) (preprocess_json_fn : Grouper.value -> result Out),
      Forall (fun s => Grouper.dict_mem s "json" = true) before ->
      Grouper.dict_mem bad "json" = false ->
      let out := add_interleaved_data_processing_step repr preprocess_json_fn args
                   (before ++ bad :: after, tail) in
      escaped out
      = Some (ValueError ("didn't find " ++ repr ["json"] ++ " in "
                            ++ repr (List.map fst bad))%string) /\
      exists leftover,
        successes (field_then repr "json" preprocess_json_fn) before
        = concat (items out) ++ leftover /\
        Z.of_nat (length leftover) <= batch_size args)
  /\ (forall (Out : Type) (preprocess_fn : Grouper.value -> result Out),
      Forall (fun s => Grouper.dict_mem s "txt" = true) before ->
      Grouper.dict_mem bad "txt" = false ->
      let out := pile_stages repr preprocess_fn args
                   (before ++ bad :: after, tail) in
      escaped out
      = Some (ValueError ("didn't find " ++ repr ["txt"] ++ " in "
                            ++ repr (List.map fst bad))%string) /\
      exists leftover,
        successes (field_then repr "txt" preprocess_fn) before
        = concat (items out) ++ leftover /\
        Z.of_nat (length leftover) <= batch_size args)
  /\ (forall decode tokenizer (g : gen Grouper.sample),
      escaped (image_text_stages repr decode tokenizer args g) = escaped g).
Proof.
  intros Hbs. split; [|split].
  - intros Out f Hb Hbad out. subst out.
    unfold add_interleaved_data_processing_step.
    pose proof (field_stages_interrupted "json" f (batch_size args)
                  before after bad tail Hbs Hb Hbad) as H.
    cbn zeta in H.
    set (g2 := map f log_and_continue _) in *.
    replace (map (fun x => Ok x) reraise_exception g2) with g2; [exact H|].
    unfold map at 1. rewrite map_identity. destruct g2; reflexivity.
  - intros Out f Hb Hbad.
    exact (field_stages_interrupted "txt" f (batch_size args)
             before after bad tail Hbs Hb Hbad).
  - intros decode tokenizer g. unfold image_text_stages, map, select, batched,
      items, escaped. cbn [fst snd].
    rewrite !map_log_and_continue. cbn [fst snd].
    apply batched_ends_as_input.
Qed.

End WithRepr.

Lemma missing_field_ends_the_stream_witness :
  0 < batch_size scenario_args /\
  add_interleaved_data_processing_step plain_repr keep_text scenario_args
    ([json_sample "a"; json_sample "b"; json_sample "c"; json_sample "d";
      txt_sample "e"; json_sample "f"], None)
  = ([[Grouper.VBytes "a"; Grouper.VBytes "b"]],
     Some (ValueError "didn't find ['json'] in ['__key__', '__url__', 'txt']")).
Proof.
  split; [reflexivity|].
  pose proof (proj1 (proj1 (missing_field_ends_the_stream plain_repr scenario_args
                       [json_sample "a"; json_sample "b"; json_sample "c";
                        json_sample "d"]
                       [json_sample "f"] (txt_sample "e") None eq_refl)
                     _ keep_text
                     ltac:(repeat constructor) eq_refl)) as H.
  apply injective_projections; [reflexivity|exact H].
Defined.

End StreamEnds.

(* ===================================================================== *)
(** ** A shard shuffle seeded by the worker *)

Module ShuffleWorker.
Import Shuffle ShuffleSpec ShuffleFacts.

Section WithRandom.
Context {PR : PyRandom} {A : Type}.

(** X24. With a negative seed [detshuffle2.run] seeds its generator with
    the worker seed plus the epoch: the order then depends on the process
    the stage runs in, and on nothing else than that sum; in every
    configuration the run ends normally and yields every input element
    exactly once. *)
Theorem detshuffle2_worker_seeded (cell : Epoch.SharedEpoch) (self : detshuffle2)
    (entropy : rng) (worker_seed : Z) (src : list A) :
  ds_seed self < 0 ->
  let epoch := fst (Epoch.current cell (ds_epoch self)) in
  let g := fst (run cell self entropy worker_seed src) in
  g = _shuffle src (bufsize self) (initial self) (rng_seed (worker_seed + epoch)) /\
  snd g = None /\ Permutation (yields g) src.
Proof.
  intros Hseed epoch g.
  assert (E : g = _shuffle src (bufsize self) (initial self)
                    (rng_seed (worker_seed + epoch))).
  { subst g epoch. unfold run.
    destruct (Epoch.current cell (ds_epoch self)) as [ep attr]. cbn [fst ds_seed bufsize initial].
    replace (ds_seed self <? 0) with true by (symmetry; apply Z.ltb_lt; lia).
    reflexivity. }
  split; [exact E|]. rewrite E.
  destruct (shuffle_ok src (bufsize self) (initial self)
              (rng_seed (worker_seed + epoch))) as (He & _ & Hp).
  split; assumption.
Qed.

End WithRandom.

Lemma detshuffle2_worker_seeded_witness :
  ds_seed worker_seeded_detshuffle2 < 0 /\
  fst (run (PR := Lcg) (Epoch.new 5) worker_seeded_detshuffle2 11 40
         ["a"; "b"; "c"]%string)
  = _shuffle (PR := Lcg) ["a"; "b"; "c"]%string 4 2 (@rng_seed Lcg (40 + 0)).
Proof.
  split; [reflexivity|].
  exact (proj1 (detshuffle2_worker_seeded (PR := Lcg) (Epoch.new 5)
                  worker_seeded_detshuffle2 11 40 ["a"; "b"; "c"]%string eq_refl)).
Defined.

End ShuffleWorker.

(* ===================================================================== *)
(** ** The counts at the edges *)

Module DriverEdges.
Import PyFloat Driver.

Lemma true_div_by_nonzero (a b : Z) :
  b <> 0 -> true_div a b <> Raise ZeroDivisionError.
Proof.
  intros Hb. unfold true_div. apply Z.eqb_neq in Hb. rewrite Hb.
  destruct (a =? 0); [discriminate|].
  destruct (overflows _ _); discriminate.
Qed.

(** X25. [recompute_samples_stats] at the edges: a batch size or a world
    size of zero raises [ZeroDivisionError], and nothing else does; a worker
    count of zero or less counts as one worker; and zero samples give zero
    batches. *)
Theorem recompute_edge_cases (args : Args) (floor : bool) (num_samples : Z) :
  (batch_size args * world_size args = 0 ->
   recompute_samples_stats args floor num_samples = Raise ZeroDivisionError) /\
  (batch_size args * world_size args <> 0 ->
   recompute_samples_stats args floor num_samples <> Raise ZeroDivisionError) /\
  (workers args <= 1 ->
   recompute_samples_stats args floor num_samples
   = recompute_samples_stats (with_workers args 1) floor num_samples) /\
  (batch_size args * world_size args <> 0 ->
   recompute_samples_stats args floor 0 = Ok (0, 0, 0)).
Proof.
  unfold recompute_samples_stats. repeat split.
  - intros ->. reflexivity.
  - intros Hg. pose proof (true_div_by_nonzero num_samples _ Hg) as H1.
    destruct (true_div num_samples _) as [f1|e]; cbn [bind]; [|congruence].
    pose proof (true_div_by_nonzero (round_fn floor f1) (Z.max 1 (workers args))
                  ltac:(lia)) as H2.
    destruct (true_div _ _) as [f2|e]; cbn [bind]; [discriminate|congruence].
  - intros Hw. cbn [with_workers workers batch_size world_size].
    now rewrite (Z.max_l 1 (workers args)) by lia.
  - intros Hg. unfold true_div at 1. apply Z.eqb_neq in Hg. rewrite Hg.
    cbn [Z.eqb bind]. replace (round_fn floor (mkFloat 0 0)) with 0
      by (destruct floor; reflexivity).
    unfold true_div.
    replace (Z.max 1 (workers args) =? 0) with false
      by (symmetry; apply Z.eqb_neq; lia).
    cbn [Z.eqb bind]. replace (round_fn floor (mkFloat 0 0)) with 0
      by (destruct floor; reflexivity).
    reflexivity.
Qed.

Lemma recompute_edge_cases_witness :
  batch_size (mkArgs "" 0 1 2 0 false None)
    * world_size (mkArgs "" 0 1 2 0 false None) = 0 /\
  recompute_samples_stats (mkArgs "" 0 1 2 0 false None) true 7
  = Raise ZeroDivisionError.
Proof.
  split; [reflexivity|].
  exact (proj1 (recompute_edge_cases (mkArgs "" 0 1 2 0 false None) true 7) eq_refl).
Defined.

Example no_workers_counts_as_one :
  recompute_samples_stats (mkArgs "" 2 1 0 0 false None) false 7 = Ok (8, 4, 4)
  /\ recompute_samples_stats (mkArgs "" 0 1 2 0 false None) false 7
     = Raise ZeroDivisionError.
Proof. split; reflexivity. Qed.

End DriverEdges.

(* ===================================================================== *)
(** ** The suffix filter of the grouping *)

Module GrouperFilter.
Import Grouper GrouperVocab GrouperFilterVocab GrouperMore.

Lemma header_only_listed (l : list string) (p u : string) :
  only_listed l (header p u).
Proof.
  unfold only_listed. cbn. constructor; [left; reflexivity|].
  constructor; [right; left; reflexivity|constructor].
Qed.

Lemma dict_set_only_listed (l : list string) (d : sample) (k : string) (v : value) :
  only_listed l d -> In k l -> only_listed l (dict_set d k v).
Proof.
  unfold only_listed. intros Hd Hk. rewrite dict_set_keys.
  destruct (dict_mem d k); [assumption|].
  apply Forall_app. split; [assumption|]. constructor; [auto|constructor].
Qed.

Lemma flush_only_listed (l : list string) (current : option sample) :
  match current with Some d => only_listed l d | None => True end ->
  Forall (only_listed l) (flush current).
Proof.
  intros Hc. unfold flush. destruct current as [d|]; [|constructor].
  destruct (valid_sample (Some d)); [|constructor].
  constructor; [assumption|constructor].
Qed.

(** X26. With a list of suffixes, [group_by_keys_nothrow] stores no other
    field: every field of every sample it yields is [__key__], [__url__] or
    a listed suffix. *)
Theorem suffix_filter_keeps_only_listed
    (keys : string -> option (string * string)) (lcase : bool)
    (l : list string) (files : list filesample) :
  Forall (only_listed l) (group_by_keys_nothrow files keys lcase (Some l)).
Proof.
  unfold group_by_keys_nothrow.
  enough (H : forall current,
             match current with Some d => only_listed l d | None => True end ->
             Forall (only_listed l) (group_loop keys lcase (Some l) files current))
    by (apply (H None); exact I).
  induction files as [|f rest IH]; intros current Hc; cbn [group_loop].
  - apply flush_only_listed; assumption.
  - destruct (keys (fname f)) as [[prefix suffix]|]; [|apply IH; assumption].
    apply Forall_app. split.
    + match goal with |- Forall _ (if ?b then _ else _) => destruct b end;
        [|constructor].
      apply flush_only_listed; assumption.
    + apply IH.
      match goal with |- only_listed l (if ?w then dict_set ?d ?k _ else _) =>
        assert (Hd : only_listed l d); [|destruct w eqn:Ew; [|exact Hd]] end.
      * destruct current as [d|]; [|apply header_only_listed].
        destruct (key_differs d prefix || dict_mem d _);
          [apply header_only_listed|assumption].
      * apply dict_set_only_listed; [exact Hd|].
        apply existsb_exists in Ew as (x & Hin & Hx).
        apply String.eqb_eq in Hx. now subst x.
Qed.

Example group_pictures_and_captions_only :
  group_by_keys_nothrow picture_caption_and_more base_plus_ext true
    (Some ["jpg"; "txt"]%string)
  = [[("__key__", VStr "a"); ("__url__", VStr "s.tar");
      ("jpg", VBytes "picture"); ("txt", VBytes "caption")];
     [("__key__", VStr "b"); ("__url__", VStr "s.tar");
      ("txt", VBytes "caption")]]%string.
Proof. reflexivity. Qed.

End GrouperFilter.
